(** * html-webpack-tags-plugin: option normalisation, path resolution and
      injection, embedded from [src/index.js].

    JavaScript values are an inductive type whose objects are finite maps
    from property names to values.  Callable values are first-order codes
    that the interpreter [call] runs: the two default transforms of
    [DEFAULT_OPTIONS], the closure [path => add(path, shortcut)] built by
    [processShortcuts], and the callbacks of a configuration, which are total
    functions.  An [assert] that fails and a thrown [TypeError] or
    [SyntaxError] are the errors of a result type.  Strings are sequences of
    8-bit characters.  Objects are ordinary objects, given by their own
    properties: a property write follows the language on the key
    [__proto__], which creates no own property.

    What the source obtains from outside the repository is collected in the
    class [Host]: [path.join], [slash], [glob.sync], [minimatch],
    [addFileToAssets], the string coercion of values that are not strings, the
    callbacks, and the regular-expression engine for patterns outside the
    fragment modelled here (the patterns [createExtensionsRegex] builds from
    extensions made of ordinary characters and dots). *)

From stdpp Require Import gmap strings list fin_maps pretty.
From Stdlib Require Import Ascii String.

Set Warnings "-register-all".
Local Open Scope string_scope.
Local Open Scope list_scope.

(** ** JavaScript values *)

(** Codes of callable values. *)
Inductive fn : Type :=
| FDefaultAddHash                          (* (assetPath, hash) => assetPath + '?' + hash *)
| FDefaultAddPublicPath                    (* (assetPath, publicPath) => path.join(publicPath, assetPath) *)
| FShortcut (add : fn) (shortcut : string) (* path => add(path, shortcut) *)
| FUser (id : nat).                        (* a callback supplied by the configuration *)

Inductive jsval : Type :=
| VUndef
| VNull
| VBool (b : bool)
| VNum (n : Z)              (* a finite number *)
| VNonFinite                (* NaN, Infinity, -Infinity *)
| VStr (s : string)
| VFun (f : fn)
| VArr (items : list jsval)
| VObj (props : gmap string jsval).

(** Property read [o.k]: a missing property reads as [undefined]. *)
Definition get (o : gmap string jsval) (k : string) : jsval :=
  default VUndef (o !! k).

(** Property read on an arbitrary value; only plain objects carry the
    properties the plugin looks at. *)
Definition prop (v : jsval) (k : string) : jsval :=
  match v with
  | VObj o => get o k
  | _ => VUndef
  end.

(** Whether the assignment [o[k] = v] creates or updates an own property
    of the ordinary object [o].  Every key does but [__proto__], which does
    only when [o] has it as an own property: otherwise the assignment
    reaches the setter that [Object.prototype] supplies, and [o] gets no own
    property (given a value that is not an object or [null], as the strings
    and attribute values that validation lets through, the setter does
    nothing at all). *)
Definition assignable (o : gmap string jsval) (k : string) : bool :=
  negb (String.eqb k "__proto__") || match o !! k with Some _ => true | None => false end.

(** Property write [o[k] = v] on an ordinary object, as its own properties. *)
Definition setProperty (o : gmap string jsval) (k : string) (v : jsval)
  : gmap string jsval :=
  if assignable o k then <[ k := v ]> o else o.

(** ** The predicate library [IS] *)

Definition isDefined (v : jsval) : bool :=
  match v with VUndef => false | _ => true end.

Definition isObject (v : jsval) : bool :=
  match v with VObj _ => true | _ => false end.

Definition isBoolean (v : jsval) : bool :=
  match v with VBool _ => true | _ => false end.

Definition isNumber (v : jsval) : bool :=
  match v with VNum _ => true | _ => false end.

Definition isString (v : jsval) : bool :=
  match v with VStr _ => true | _ => false end.

Definition isArray (v : jsval) : bool :=
  match v with VArr _ => true | _ => false end.

Definition isFunction (v : jsval) : bool :=
  match v with VFun _ => true | _ => false end.

(** JavaScript truthiness, used by [filter(({ append }) => append)]. *)
Definition truthy (v : jsval) : bool :=
  match v with
  | VUndef | VNull | VNonFinite => false
  | VBool b => b
  | VNum n => negb (n =? 0)%Z
  | VStr s => negb (String.eqb s "")
  | VFun _ | VArr _ | VObj _ => true
  end.

(** ** Outcomes *)

(** One constructor per [assert] of the source. *)
Inductive assert_site : Type :=
| AExtensionsNotArray
| AExtensionNotString
| ATypeNotCssOrJs
| ACouldNotDetermineType
| AItemNotObjectOrString
| ANoStringPath
| AAppendNotBoolean
| ATagPublicPathInvalid
| ATagHashInvalid
| ASourcePathNotString
| AAttributesNotObject
| AAttributeValueInvalid
| AGlobNotString
| AGlobPathNotString
| AGlobNoFiles
| ATagsShape
| AExternalNotObject
| AExternalNoStrings
| AExternalPackageName
| AExternalVariableName
| AExternalOnNonScript
| AShortcutWithUseOrAdd
| AUseNotBoolean
| AAddNotFunction
| AShortcutInvalid
| AOptionsNotObject
| AMainAppendNotBoolean
| AFilesInvalid.

Inductive error : Type :=
| ConfigError (site : assert_site)   (* an AssertionError raised by [assert] *)
| TypeError                          (* thrown by the runtime or a collaborator *)
| SyntaxError.                       (* thrown by [new RegExp] *)

Inductive result (A : Type) : Type :=
| Ok (a : A)
| Err (e : error).
Arguments Ok {A} a.
Arguments Err {A} e.

#[global] Instance result_ret : MRet result := λ A a, Ok a.
#[global] Instance result_fmap : FMap result := λ A B f m,
  match m with
  | Ok a => Ok (f a)
  | Err e => Err e
  end.
#[global] Instance result_bind : MBind result := λ A B k m,
  match m with
  | Ok a => k a
  | Err e => Err e
  end.

(** [assert(cond, message)]. *)
Definition assert (cond : bool) (site : assert_site) : result unit :=
  if cond then Ok tt else Err (ConfigError site).

(** [xs.forEach(f)] where [f] may throw. *)
Fixpoint forEach {A : Type} (f : A → result unit) (xs : list A) : result unit :=
  match xs with
  | [] => Ok tt
  | x :: rest => _ ← f x; forEach f rest
  end.

(** [xs.map(f)] where [f] may throw. *)
Fixpoint mapM {A B : Type} (f : A → result B) (xs : list A) : result (list B) :=
  match xs with
  | [] => Ok []
  | x :: rest => y ← f x; ys ← mapM f rest; Ok (y :: ys)
  end.

Definition is_config_error {A : Type} (r : result A) : Prop :=
  ∃ site, r = Err (ConfigError site).

Definition is_ok {A : Type} (r : result A) : bool :=
  match r with Ok _ => true | Err _ => false end.

(** ** Regular expressions

    [createExtensionsRegex] builds the source text
    [.*(e1|e2|...)$] and hands it to [new RegExp].  The fragment modelled
    here is exactly the sources of that shape whose alternatives consist of
    ordinary characters and the wildcard [.]; every other source is left to
    the engine parameter of the section below. *)

Inductive regex : Type :=
| RFail                        (* matches nothing *)
| REps                         (* the empty pattern *)
| RChar (c : ascii)            (* an ordinary character *)
| RDot                         (* [.]: any character but a line terminator *)
| REnd                         (* [$]: end of input *)
| RCat (r1 r2 : regex)
| RAlt (r1 r2 : regex)
| RStar (r : regex).

Definition isLineTerminator (c : ascii) : bool :=
  (Ascii.eqb c "010" || Ascii.eqb c "013")%char.

(** Can [r] match the empty word when input remains / at the end of input? *)
Fixpoint nullable (atEnd : bool) (r : regex) : bool :=
  match r with
  | RFail => false
  | REps => true
  | RChar _ => false
  | RDot => false
  | REnd => atEnd
  | RCat r1 r2 => nullable atEnd r1 && nullable atEnd r2
  | RAlt r1 r2 => nullable atEnd r1 || nullable atEnd r2
  | RStar _ => true
  end.

(** Brzozowski derivative: what remains to be matched after reading [c]. *)
Fixpoint deriv (c : ascii) (r : regex) : regex :=
  match r with
  | RFail | REps | REnd => RFail
  | RChar c' => if Ascii.eqb c c' then REps else RFail
  | RDot => if isLineTerminator c then RFail else REps
  | RCat r1 r2 =>
      let left := RCat (deriv c r1) r2 in
      if nullable false r1 then RAlt left (deriv c r2) else left
  | RAlt r1 r2 => RAlt (deriv c r1) (deriv c r2)
  | RStar r1 => RCat (deriv c r1) (RStar r1)
  end.

(** Does some prefix of [s] match [r]? *)
Fixpoint matchesPrefix (r : regex) (s : string) : bool :=
  match s with
  | EmptyString => nullable true r
  | String c rest => nullable false r || matchesPrefix (deriv c r) rest
  end.

(** [regexp.test(s)] for a regular expression without flags: a match may
    start at any index. *)
Fixpoint regexTest (r : regex) (s : string) : bool :=
  matchesPrefix r s ||
  match s with
  | EmptyString => false
  | String _ rest => regexTest r rest
  end.

Definition isMetaChar (c : ascii) : bool :=
  existsb (Ascii.eqb c)
    ["\"; "^"; "$"; "*"; "+"; "?"; "("; ")"; "["; "]"; "{"; "}"; "|"]%char.

(** One alternative: ordinary characters and dots. *)
Fixpoint parseAlternative (s : string) : option regex :=
  match s with
  | EmptyString => Some REps
  | String c rest =>
      if Ascii.eqb c "."%char then RCat RDot <$> parseAlternative rest
      else if isMetaChar c then None
      else RCat (RChar c) <$> parseAlternative rest
  end.

(** Split at every [|]. *)
Fixpoint splitBars (s : string) : list string :=
  match s with
  | EmptyString => [""]
  | String c rest =>
      if Ascii.eqb c "|"%char then "" :: splitBars rest
      else match splitBars rest with
           | [] => [String c ""]
           | hd :: tl => String c hd :: tl
           end
  end.

Fixpoint parseAlternatives (alts : list string) : option regex :=
  match alts with
  | [] => Some RFail
  | [a] => parseAlternative a
  | a :: rest =>
      r1 ← parseAlternative a; r2 ← parseAlternatives rest; Some (RAlt r1 r2)
  end.

(** Strip a known prefix. *)
Fixpoint stripPrefix (p s : string) : option string :=
  match p, s with
  | EmptyString, _ => Some s
  | String a p', String b s' => if Ascii.eqb a b then stripPrefix p' s' else None
  | String _ _, EmptyString => None
  end.

(** Strip a known suffix. *)
Definition stripSuffix (p s : string) : option string :=
  let n := (String.length s - String.length p)%nat in
  if String.eqb (substring n (String.length p) s) p && (String.length p <=? String.length s)%nat
  then Some (substring 0 n s) else None.

(** The fragment parser: sources of the shape [.*(alt|...|alt)$]. *)
Definition parseRegex (source : string) : option regex :=
  body ← stripPrefix ".*(" source;
  inner ← stripSuffix ")$" body;
  alts ← parseAlternatives (splitBars inner);
  Some (RCat (RStar RDot) (RCat alts REnd)).


(** *** What a pattern matches

    The relation the matcher above decides. *)

(** [matches r w rest]: [r] matches the word [w] when [rest] is the input
    that follows it. *)
Inductive matches : regex → string → string → Prop :=
| MEps rest : matches REps "" rest
| MChar c rest : matches (RChar c) (String c "") rest
| MDot c rest : isLineTerminator c = false → matches RDot (String c "") rest
| MEnd : matches REnd "" ""
| MCat r1 r2 w1 w2 rest :
    matches r1 w1 (w2 ++ rest) → matches r2 w2 rest →
    matches (RCat r1 r2) (w1 ++ w2) rest
| MAltL r1 r2 w rest : matches r1 w rest → matches (RAlt r1 r2) w rest
| MAltR r1 r2 w rest : matches r2 w rest → matches (RAlt r1 r2) w rest
| MStarNil r rest : matches (RStar r) "" rest
| MStarCons r w1 w2 rest :
    matches r w1 (w2 ++ rest) → matches (RStar r) w2 rest →
    matches (RStar r) (w1 ++ w2) rest.

(** Does the word [w] match the alternative [pattern] character by
    character, a dot of the pattern standing for any character but a line
    terminator? *)
Fixpoint wildMatch (pattern w : string) : bool :=
  match pattern, w with
  | EmptyString, EmptyString => true
  | String p pattern', String c w' =>
      (if Ascii.eqb p "."%char then negb (isLineTerminator c) else Ascii.eqb p c)
      && wildMatch pattern' w'
  | _, _ => false
  end.

(** Some suffix of [s] matches one of the alternatives. *)
Definition endsWithOneOf (alternatives : list string) (s : string) : Prop :=
  ∃ before suffix,
    s = (before ++ suffix)%string ∧
    existsb (λ pattern, wildMatch pattern suffix) alternatives = true.

Definition atEnd (rest : string) : bool :=
  match rest with EmptyString => true | String _ _ => false end.

(** ** Collaborators

    Everything the source obtains from outside the repository. *)

Class Host : Type := {
  (** a configuration callback, called with two arguments; total *)
  user : nat → jsval → jsval → jsval;
  (** string coercion of a value that is not a primitive string *)
  ToString : jsval → string;
  (** [path.join(a, b)] of Node on two strings *)
  path_join : string → string → string;
  (** [slash(p)] on a string *)
  slash : string → string;
  (** [glob.sync(pattern, { cwd })] *)
  glob_sync : string → string → list string;
  (** [minimatch(name, pattern)] *)
  minimatch : string → string → bool;
  (** [new RegExp(source)] for sources outside the modelled fragment:
      [None] is a thrown SyntaxError, otherwise the [test] function *)
  hostRegExp : string → option (string → bool);
  (** [htmlPluginData.plugin.addFileToAssets(path, compilation)]:
      does the returned promise resolve? *)
  addFileToAssets : string → bool
}.

(** ** Records of the plugin *)

(** The [defaultOptions] argument of [getValidatedOptions]. *)
Record defaults : Type := {
  d_append : bool;
  d_useHash : bool;
  d_addHash : fn;
  d_usePublicPath : bool;
  d_addPublicPath : fn;
  d_links : list (gmap string jsval);
  d_scripts : list (gmap string jsval)
}.

(** [DEFAULT_OPTIONS]; its [jsExtensions] and [cssExtensions] are the two
    constants below, which [getExtensions] reads from the global. *)
Definition DEFAULT_OPTIONS : defaults := {|
  d_append := true;
  d_useHash := false;
  d_addHash := FDefaultAddHash;
  d_usePublicPath := true;
  d_addPublicPath := FDefaultAddPublicPath;
  d_links := [];
  d_scripts := []
|}.

Definition DEFAULT_jsExtensions : list string := [".js"].
Definition DEFAULT_cssExtensions : list string := [".css"].

Definition ASSET_TYPE_CSS : string := "css".
Definition ASSET_TYPE_JS : string := "js".

(** The result of [getValidatedMainOptions]. *)
Record mainOptions : Type := {
  m_append : bool;
  m_usePublicPath : bool;
  m_addPublicPath : fn;
  m_useHash : bool;
  m_addHash : fn
}.

(** The result of [getAllValidatedOptions]; [getValidatedOptions] leaves
    [o_files] unset. *)
Record validatedOptions : Type := {
  o_links : list (gmap string jsval);
  o_linksPrepend : list (gmap string jsval);
  o_linksAppend : list (gmap string jsval);
  o_scripts : list (gmap string jsval);
  o_scriptsPrepend : list (gmap string jsval);
  o_scriptsAppend : list (gmap string jsval);
  o_append : bool;
  o_usePublicPath : bool;
  o_addPublicPath : fn;
  o_useHash : bool;
  o_addHash : fn;
  o_files : option (list string)
}.

(** A rendered tag of the templating plugin. *)
Record tagNode : Type := {
  tagName : string;
  attributes : gmap string jsval
}.

(** The document in progress handed to both extension points. *)
Record htmlPluginData : Type := {
  outputName : string;
  assets_publicPath : jsval;
  assets_js : list string;
  assets_css : list string;
  head : option (list tagNode);
  headTags : option (list tagNode);
  body : option (list tagNode);
  bodyTags : option (list tagNode)
}.

(** Which of the two path transforms a call belongs to. *)
Inductive transformKind : Type := PublicPathStep | HashStep.

(** One call of a transform function made by [getTagPath]. *)
Record transformCall : Type := {
  tc_kind : transformKind;
  tc_fn : fn;
  tc_path : jsval;
  tc_value : jsval
}.

(** How a call of [onBeforeHtmlGeneration(htmlPluginData, callback)] ends. *)
Inductive completion : Type :=
| CallbackOk (data : htmlPluginData)   (* callback(null, htmlPluginData) *)
| CallbackError                        (* callback(err): a registration was rejected *)
| Thrown (e : error).                  (* a synchronous throw, callback never called *)

(** What [onBeforeHtmlGeneration] did. *)
Record generationOutcome : Type := {
  g_data : htmlPluginData;             (* the document after the call *)
  g_registered : list string;          (* calls of addFileToAssets, in order *)
  g_calls : list transformCall;        (* calls of path transforms, in order *)
  g_completion : completion
}.

(** ** The plugin *)

Section Model.
Context `{Host}.

(** A value in a string position: strings are taken as they are. *)
Definition str (v : jsval) : string :=
  match v with
  | VStr s => s
  | _ => ToString v
  end.

(** Running a callable value on two arguments. *)
Fixpoint call (f : fn) (a b : jsval) : result jsval :=
  match f with
  | FDefaultAddHash => Ok (VStr (str a ++ "?" ++ str b))
  | FDefaultAddPublicPath =>
      match b, a with
      | VStr publicPath, VStr assetPath => Ok (VStr (path_join publicPath assetPath))
      | _, _ => Err TypeError
      end
  | FShortcut add shortcut => call add a (VStr shortcut)
  | FUser id => Ok (user id a b)
  end.

Definition isValidAttributeValue (v : jsval) : bool :=
  isString v || isBoolean v || isNumber v.

Definition isTypeCss (type : jsval) : bool :=
  match type with VStr s => String.eqb s ASSET_TYPE_CSS | _ => false end.

Definition isTypeJs (type : jsval) : bool :=
  match type with VStr s => String.eqb s ASSET_TYPE_JS | _ => false end.

(** [ASSET_TYPES.indexOf(type) !== -1]. *)
Definition isType (type : jsval) : bool := isTypeCss type || isTypeJs type.

(** [isFunction(v) && isString(v('', ''))], keeping the function. *)
Definition functionReturningString (v : jsval) : result (option fn) :=
  match v with
  | VFun f =>
      r ← call f (VStr "") (VStr "");
      Ok (if isString r then Some f else None)
  | _ => Ok None
  end.

Definition isFunctionReturningString (v : jsval) : result bool :=
  o ← functionReturningString v; Ok (bool_decide (is_Some o)).

Definition isArrayOfString (v : jsval) : bool :=
  match v with
  | VArr items => forallb isString items
  | _ => false
  end.

(** *** Extension classifier *)

Definition regexSource (extensions : list string) : string :=
  ".*(" ++ String.concat "|" extensions ++ ")$".

(** [new RegExp(source)], as its [test] function. *)
Definition newRegExp (source : string) : result (string → bool) :=
  match parseRegex source with
  | Some r => Ok (regexTest r)
  | None =>
      match hostRegExp source with
      | Some test => Ok test
      | None => Err SyntaxError
      end
  end.

Definition createExtensionsRegex (extensions : list string) : result (string → bool) :=
  newRegExp (regexSource extensions).

Definition defaultExtensions (optionExtensionName : string) : list string :=
  if String.eqb optionExtensionName "jsExtensions" then DEFAULT_jsExtensions
  else DEFAULT_cssExtensions.

Definition getExtensions (options : gmap string jsval) (optionExtensionName : string)
  : result (list string) :=
  let configured := get options optionExtensionName in
  if isDefined configured then
    match configured with
    | VStr s => Ok [s]
    | VArr items =>
        mapM (λ extension,
                match extension with
                | VStr s => Ok s
                | _ => Err (ConfigError AExtensionNotString)
                end) items
    | _ => Err (ConfigError AExtensionsNotArray)
    end
  else Ok (defaultExtensions optionExtensionName).

Definition getHasExtensions (options : gmap string jsval) (optionExtensionName : string)
  : result (jsval → bool) :=
  extensions ← getExtensions options optionExtensionName;
  test ← createExtensionsRegex extensions;
  Ok (λ value, test (str value)).

(** The pair (isAssetTypeCss, isAssetTypeJs); the JS matcher is built first. *)
Definition getAssetTypeCheckers (options : gmap string jsval)
  : result ((jsval → bool) * (jsval → bool)) :=
  hasJsExtensions ← getHasExtensions options "jsExtensions";
  hasCssExtensions ← getHasExtensions options "cssExtensions";
  Ok (hasCssExtensions, hasJsExtensions).

(** The body of the [forEach] of [splitLinkScriptTags], on the two arrays
    built so far. *)
Definition splitOne (isAssetTypeCss isAssetTypeJs : jsval → bool)
    (acc : list (gmap string jsval) * list (gmap string jsval))
    (tagObject : gmap string jsval)
  : result (list (gmap string jsval) * list (gmap string jsval)) :=
  let '(linkObjects, scriptObjects) := acc in
  if isDefined (get tagObject "type") then
    let type := get tagObject "type" in
    let others := delete "type" tagObject in
    _ ← assert (isType type) ATypeNotCssOrJs;
    if isTypeCss type then Ok (linkObjects ++ [others], scriptObjects)
    else Ok (linkObjects, scriptObjects ++ [others])
  else
    let path := get tagObject "path" in
    if isAssetTypeCss path then Ok (linkObjects ++ [tagObject], scriptObjects)
    else if isAssetTypeJs path then Ok (linkObjects, scriptObjects ++ [tagObject])
    else Err (ConfigError ACouldNotDetermineType).

Fixpoint splitLoop (isAssetTypeCss isAssetTypeJs : jsval → bool)
    (tagObjects : list (gmap string jsval))
    (acc : list (gmap string jsval) * list (gmap string jsval))
  : result (list (gmap string jsval) * list (gmap string jsval)) :=
  match tagObjects with
  | [] => Ok acc
  | tagObject :: rest =>
      acc' ← splitOne isAssetTypeCss isAssetTypeJs acc tagObject;
      splitLoop isAssetTypeCss isAssetTypeJs rest acc'
  end.

Definition splitLinkScriptTags (tagObjects : list (gmap string jsval))
    (options : gmap string jsval)
  : result (list (gmap string jsval) * list (gmap string jsval)) :=
  '(isAssetTypeCss, isAssetTypeJs) ← getAssetTypeCheckers options;
  splitLoop isAssetTypeCss isAssetTypeJs tagObjects ([], []).

(** *** Tag descriptor normaliser *)

(** The checks of [publicPath] and [hash] on a tag object. *)
Definition checkTagTransform (v : jsval) (site : assert_site) : result unit :=
  if isDefined v then
    if isBoolean v then Ok tt
    else ok ← isFunctionReturningString v; assert ok site
  else Ok tt.

Definition checkAttributes (attributes : jsval) : result unit :=
  if isDefined attributes then
    match attributes with
    | VObj props =>
        forEach (λ entry : string * jsval,
                   assert (isValidAttributeValue entry.2) AAttributeValueInvalid)
                (map_to_list props)
    | _ => Err (ConfigError AAttributesNotObject)
    end
  else Ok tt.

Definition getTagObjects (tag : jsval) : result (list (gmap string jsval)) :=
  match tag with
  | VStr s => Ok [ {[ "path" := VStr s ]} ]
  | VObj tag =>
      _ ← assert (isString (get tag "path")) ANoStringPath;
      _ ← (if isDefined (get tag "append")
           then assert (isBoolean (get tag "append")) AAppendNotBoolean else Ok tt);
      _ ← checkTagTransform (get tag "publicPath") ATagPublicPathInvalid;
      _ ← checkTagTransform (get tag "hash") ATagHashInvalid;
      _ ← (if isDefined (get tag "sourcePath")
           then assert (isString (get tag "sourcePath")) ASourcePathNotString else Ok tt);
      _ ← checkAttributes (get tag "attributes");
      if isDefined (get tag "glob") || isDefined (get tag "globPath") then
        let assetGlob := get tag "glob" in
        let globPath := get tag "globPath" in
        let otherAssetProperties := delete "globPath" (delete "glob" tag) in
        _ ← assert (isString assetGlob) AGlobNotString;
        _ ← assert (isString globPath) AGlobPathNotString;
        let globAssets := glob_sync (str assetGlob) (str globPath) in
        let globAssetPaths :=
          map (λ globAsset, slash (path_join (str (get tag "path")) globAsset)) globAssets in
        _ ← assert (0 <? List.length globAssetPaths)%nat AGlobNoFiles;
        Ok (map (λ globAssetPath, <[ "path" := VStr globAssetPath ]> otherAssetProperties)
                globAssetPaths)
      else Ok [tag]
  | _ => Err (ConfigError AItemNotObjectOrString)
  end.

(** [None] stands for the [undefined] returned when the option is absent. *)
Definition getValidatedTagObjects (options : gmap string jsval) (optionName : string)
  : result (option (list (gmap string jsval))) :=
  let tags := get options optionName in
  if isDefined tags then
    _ ← assert (isString tags || isObject tags || isArray tags) ATagsShape;
    match tags with
    | VArr items =>
        lists ← mapM getTagObjects items; Ok (Some (List.concat lists))
    | _ => tagObjects ← getTagObjects tags; Ok (Some tagObjects)
    end
  else Ok None.

Definition withAppend (append : bool) (tag : gmap string jsval) : gmap string jsval :=
  if isDefined (get tag "append") then tag
  else <[ "append" := VBool append ]> tag.

Definition getAllTagObjects (options : gmap string jsval) (append : bool)
    (optionName : string) : result (option (list (gmap string jsval))) :=
  tagObjects ← getValidatedTagObjects options optionName;
  Ok (match tagObjects with
      | Some tagObjects => Some (map (withAppend append) tagObjects)
      | None => None
      end).

Definition validateExternal (isScript : bool) (tagObject : gmap string jsval)
  : result unit :=
  if isDefined (get tagObject "external") then
    let external := get tagObject "external" in
    if isScript then
      _ ← assert (isObject external) AExternalNotObject;
      let packageName := prop external "packageName" in
      let variableName := prop external "variableName" in
      _ ← assert (isString packageName || isString variableName) AExternalNoStrings;
      _ ← assert (isString packageName) AExternalPackageName;
      assert (isString variableName) AExternalVariableName
    else Err (ConfigError AExternalOnNonScript)
  else Ok tt.

Definition validateTagObjectExternals (tagObjects : list (gmap string jsval))
    (isScript : bool) : result unit :=
  forEach (validateExternal isScript) tagObjects.

(** *** Option aggregator *)

(** The [processedOptions] object: its [keyUse] and [keyAdd] entries. *)
Definition processShortcuts (options : gmap string jsval)
    (keyShortcut keyUse keyAdd : string) (add : fn)
  : result (option bool * option fn) :=
  if isDefined (get options keyUse) || isDefined (get options keyAdd) then
    _ ← assert (negb (isDefined (get options keyShortcut))) AShortcutWithUseOrAdd;
    processedUse ←
      (if isDefined (get options keyUse) then
         match get options keyUse with
         | VBool b => Ok (Some b)
         | _ => Err (ConfigError AUseNotBoolean)
         end
       else Ok None);
    processedAdd ←
      (if isDefined (get options keyAdd) then
         f ← functionReturningString (get options keyAdd);
         match f with
         | Some f => Ok (Some f)
         | None => Err (ConfigError AAddNotFunction)
         end
       else Ok None);
    Ok (processedUse, processedAdd)
  else if isDefined (get options keyShortcut) then
    match get options keyShortcut with
    | VBool shortcut => Ok (Some shortcut, None)
    | VStr shortcut => Ok (Some true, Some (FShortcut add shortcut))
    | shortcut =>
        f ← functionReturningString shortcut;
        match f with
        | Some f => Ok (Some true, Some f)
        | None => Err (ConfigError AShortcutInvalid)
        end
    end
  else Ok (None, None).

Definition getValidatedMainOptions (options : jsval) (defaultOptions : defaults)
  : result mainOptions :=
  match options with
  | VObj options =>
      append ←
        (if isDefined (get options "append") then
           match get options "append" with
           | VBool b => Ok b
           | _ => Err (ConfigError AMainAppendNotBoolean)
           end
         else Ok (d_append defaultOptions));
      publicPathOptions ←
        processShortcuts options "publicPath" "usePublicPath" "addPublicPath"
          (d_addPublicPath defaultOptions);
      hashOptions ←
        processShortcuts options "hash" "useHash" "addHash" (d_addHash defaultOptions);
      Ok {| m_append := append;
            m_usePublicPath := default (d_usePublicPath defaultOptions) publicPathOptions.1;
            m_addPublicPath := default (d_addPublicPath defaultOptions) publicPathOptions.2;
            m_useHash := default (d_useHash defaultOptions) hashOptions.1;
            m_addHash := default (d_addHash defaultOptions) hashOptions.2 |}
  | _ => Err (ConfigError AOptionsNotObject)
  end.

(** An option that is defined always normalises to an array. *)
Definition definedTagObjects (tagObjects : option (list (gmap string jsval)))
  : result (list (gmap string jsval)) :=
  match tagObjects with
  | Some tagObjects => Ok tagObjects
  | None => Err TypeError
  end.

(** The [tags] block of [getValidatedOptions]: the link and script objects
    it contributes. *)
Definition tagsDescriptors (options : gmap string jsval) (append : bool)
  : result (list (gmap string jsval) * list (gmap string jsval)) :=
  if isDefined (get options "tags") then
    tagObjects ← getAllTagObjects options append "tags";
    tagObjects ← definedTagObjects tagObjects;
    '(linkObjects, scriptObjects) ← splitLinkScriptTags tagObjects options;
    _ ← validateTagObjectExternals linkObjects false;
    _ ← validateTagObjectExternals scriptObjects true;
    Ok (linkObjects, scriptObjects)
  else Ok ([], []).

(** The [links] block ([isScript = false]) and the [scripts] block
    ([isScript = true]). *)
Definition surfaceDescriptors (options : gmap string jsval) (append : bool)
    (optionName : string) (isScript : bool) : result (list (gmap string jsval)) :=
  if isDefined (get options optionName) then
    tagObjects ← getAllTagObjects options append optionName;
    tagObjects ← definedTagObjects tagObjects;
    _ ← validateTagObjectExternals tagObjects isScript;
    Ok tagObjects
  else Ok [].

Definition appendOf (tag : gmap string jsval) : bool := truthy (get tag "append").

Definition getValidatedOptions (options : jsval) (defaultOptions : defaults)
  : result validatedOptions :=
  match options with
  | VObj optionsObject =>
      main ← getValidatedMainOptions options defaultOptions;
      let append := m_append main in
      '(tagLinks, tagScripts) ← tagsDescriptors optionsObject append;
      let links := d_links defaultOptions ++ tagLinks in
      let scripts := d_scripts defaultOptions ++ tagScripts in
      linkObjects ← surfaceDescriptors optionsObject append "links" false;
      let links := links ++ linkObjects in
      scriptObjects ← surfaceDescriptors optionsObject append "scripts" true;
      let scripts := scripts ++ scriptObjects in
      Ok {| o_links := links;
            o_linksPrepend := List.filter (λ tag, negb (appendOf tag)) links;
            o_linksAppend := List.filter appendOf links;
            o_scripts := scripts;
            o_scriptsPrepend := List.filter (λ tag, negb (appendOf tag)) scripts;
            o_scriptsAppend := List.filter appendOf scripts;
            o_append := append;
            o_usePublicPath := m_usePublicPath main;
            o_addPublicPath := m_addPublicPath main;
            o_useHash := m_useHash main;
            o_addHash := m_addHash main;
            o_files := None |}
  | _ => Err (ConfigError AOptionsNotObject)
  end.

Definition withFiles (validated : validatedOptions) (files : list string)
  : validatedOptions :=
  {| o_links := o_links validated;
     o_linksPrepend := o_linksPrepend validated;
     o_linksAppend := o_linksAppend validated;
     o_scripts := o_scripts validated;
     o_scriptsPrepend := o_scriptsPrepend validated;
     o_scriptsAppend := o_scriptsAppend validated;
     o_append := o_append validated;
     o_usePublicPath := o_usePublicPath validated;
     o_addPublicPath := o_addPublicPath validated;
     o_useHash := o_useHash validated;
     o_addHash := o_addHash validated;
     o_files := Some files |}.

Definition getAllValidatedOptions (options : jsval) : result validatedOptions :=
  validated ← getValidatedOptions options DEFAULT_OPTIONS;
  let files := prop options "files" in
  if isDefined files then
    _ ← assert (isString files || isArrayOfString files) AFilesInvalid;
    let files :=
      match files with
      | VStr file => [file]
      | VArr items => map str items
      | _ => []
      end in
    Ok (withFiles validated files)
  else Ok validated.

(** *** Path resolver *)

(** A call of a transform, with its record in the trace. *)
Definition transform (kind : transformKind) (f : fn) (path value : jsval)
  : list transformCall * result jsval :=
  ([ {| tc_kind := kind; tc_fn := f; tc_path := path; tc_value := value |} ],
   call f path value).

(** [slash(path)]: a value without a [replace] method throws. *)
Definition slashValue (path : jsval) : result string :=
  match path with
  | VStr s => Ok (slash s)
  | _ => Err TypeError
  end.

(** [getTagPath], with the transform calls it makes, in order. *)
Definition getTagPath (tagObject : gmap string jsval) (options : validatedOptions)
    (webpackPublicPath compilationHash : jsval)
  : list transformCall * result string :=
  let usePublicPath := o_usePublicPath options in
  let addPublicPath := o_addPublicPath options in
  let useHash := o_useHash options in
  let addHash := o_addHash options in
  let publicPath := get tagObject "publicPath" in
  let hash := get tagObject "hash" in
  let path := get tagObject "path" in
  let '(calls1, path1) :=
    if isDefined publicPath then
      match publicPath with
      | VBool true => transform PublicPathStep addPublicPath path webpackPublicPath
      | VFun f => transform PublicPathStep f path webpackPublicPath
      | _ => ([], Ok path)
      end
    else if usePublicPath then transform PublicPathStep addPublicPath path webpackPublicPath
    else ([], Ok path) in
  match path1 with
  | Err e => (calls1, Err e)
  | Ok path =>
      let '(calls2, path2) :=
        if isDefined hash then
          match hash with
          | VBool true => transform HashStep addHash path compilationHash
          | VFun f => transform HashStep f path compilationHash
          | _ => ([], Ok path)
          end
        else if useHash then transform HashStep addHash path compilationHash
        else ([], Ok path) in
      (calls1 ++ calls2, path ← path2; slashValue path)
  end.

(** *** Injection coordinator *)

Definition getShouldSkip (files : option (list string)) (data : htmlPluginData) : bool :=
  match files with
  | Some files => negb (existsb (λ file, minimatch (outputName data) file) files)
  | None => false
  end.

(** The body of [scripts.forEach] in [apply]. *)
Definition registerExternal (externals : gmap string jsval)
    (script : gmap string jsval) : gmap string jsval :=
  match get script "external" with
  | VObj external =>
      setProperty externals (str (get external "packageName")) (get external "variableName")
  | _ => externals
  end.

(** The externals registry after [apply], as the own properties of an
    ordinary object; [None] is an absent registry. *)
Definition applyExternals (options : validatedOptions)
    (hostExternals : option (gmap string jsval)) : gmap string jsval :=
  foldl registerExternal (default ∅ hostExternals) (o_scripts options).

(** The log of one [onBeforeHtmlGeneration]: files handed to
    [addFileToAssets] and transform calls. *)
Definition generationLog : Type := (list string * list transformCall)%type.

(** [getPath]. *)
Definition getPath (options : validatedOptions) (pluginPublicPath compilationHash : jsval)
    (log : generationLog) (tag : gmap string jsval) : generationLog * result string :=
  let registered :=
    match get tag "sourcePath" with
    | VStr sourcePath => log.1 ++ [sourcePath]
    | _ => log.1
    end in
  let '(calls, path) := getTagPath tag options pluginPublicPath compilationHash in
  ((registered, log.2 ++ calls), path).

(** [tags.map(getPath)]; a throw stops the iteration. *)
Fixpoint getPaths (options : validatedOptions) (pluginPublicPath compilationHash : jsval)
    (log : generationLog) (tags : list (gmap string jsval))
  : generationLog * result (list string) :=
  match tags with
  | [] => (log, Ok [])
  | tag :: rest =>
      match getPath options pluginPublicPath compilationHash log tag with
      | (log, Err e) => (log, Err e)
      | (log, Ok path) =>
          match getPaths options pluginPublicPath compilationHash log rest with
          | (log, Err e) => (log, Err e)
          | (log, Ok paths) => (log, Ok (path :: paths))
          end
      end
  end.

Definition withAssets (data : htmlPluginData) (js css : list string) : htmlPluginData :=
  {| outputName := outputName data;
     assets_publicPath := assets_publicPath data;
     assets_js := js;
     assets_css := css;
     head := head data;
     headTags := headTags data;
     body := body data;
     bodyTags := bodyTags data |}.

(** [onBeforeHtmlGeneration(htmlPluginData, callback)], called with a
    callback as [tapAsync] does. *)
Definition onBeforeHtmlGeneration (options : validatedOptions) (compilationHash : jsval)
    (data : htmlPluginData) : generationOutcome :=
  if getShouldSkip (o_files options) data then
    {| g_data := data; g_registered := []; g_calls := []; g_completion := CallbackOk data |}
  else
    let pluginPublicPath := assets_publicPath data in
    let go := getPaths options pluginPublicPath compilationHash in
    let thrown (log : generationLog) (e : error) :=
      {| g_data := data; g_registered := log.1; g_calls := log.2;
         g_completion := Thrown e |} in
    match go ([], []) (o_scriptsPrepend options) with
    | (log, Err e) => thrown log e
    | (log, Ok jsPrependPaths) =>
    match go log (o_scriptsAppend options) with
    | (log, Err e) => thrown log e
    | (log, Ok jsAppendPaths) =>
    match go log (o_linksPrepend options) with
    | (log, Err e) => thrown log e
    | (log, Ok cssPrependPaths) =>
    match go log (o_linksAppend options) with
    | (log, Err e) => thrown log e
    | (log, Ok cssAppendPaths) =>
        let data' :=
          withAssets data
            (jsPrependPaths ++ assets_js data ++ jsAppendPaths)
            (cssPrependPaths ++ assets_css data ++ cssAppendPaths) in
        {| g_data := data';
           g_registered := log.1;
           g_calls := log.2;
           g_completion :=
             if forallb addFileToAssets log.1 then CallbackOk data' else CallbackError |}
    end end end end.

(** [array.slice(start)], for any integer [start]. *)
Definition sliceFrom {A : Type} (start : Z) (l : list A) : list A :=
  let len := Z.of_nat (List.length l) in
  let from := if (start <? 0)%Z then Z.max (len + start) 0 else Z.min start len in
  drop (Z.to_nat from) l.

(** The positions in [nodes] of the tags called [name]: the model of
    [nodes.filter(({ tagName }) => tagName === name)], whose elements are the
    very objects of [nodes]. *)
Definition tagPositions (name : string) (nodes : list tagNode) : list nat :=
  map fst (List.filter (λ entry : nat * tagNode, String.eqb (tagName entry.2) name)
                       (imap pair nodes)).

(** [Object.keys(v)] with the values they index. *)
Definition ownEntries (v : jsval) : list (string * jsval) :=
  match v with
  | VObj props => map_to_list props
  | VArr items => imap (λ i item, (pretty i, item)) items
  | VStr s => imap (λ i c, (pretty i, VStr (String c ""))) (list_ascii_of_string s)
  | _ => []
  end.

(** The body of the [forEach] of [copyAttributes], on the tag at
    [position] of the document's list. *)
Definition copyOne (tagObject : gmap string jsval) (position : nat)
    (nodes : list tagNode) : list tagNode :=
  let declared := get tagObject "attributes" in
  if truthy declared then
    alter (λ tag,
             {| tagName := tagName tag;
                attributes :=
                  foldl (λ tagAttributes entry, setProperty tagAttributes entry.1 entry.2)
                        (attributes tag) (ownEntries declared) |})
          position nodes
  else nodes.

(** [copyAttributes(tags, tagObjects)], [tags] given by their positions;
    [i] is the index reached. *)
Fixpoint copyAttributes (positions : list nat) (i : nat)
    (tagObjects : list (gmap string jsval)) (nodes : list tagNode)
  : result (list tagNode) :=
  match positions with
  | [] => Ok nodes
  | position :: rest =>
      match tagObjects !! i with
      | Some tagObject => copyAttributes rest (S i) tagObjects (copyOne tagObject position nodes)
      | None => Err TypeError
      end
  end.

(** The copy-back on one group of rendered tags. *)
Definition alterGroup (name : string) (prepend append : list (gmap string jsval))
    (nodes : list tagNode) : result (list tagNode) :=
  let pluginTags := tagPositions name nodes in
  let groupPrepend := take (List.length prepend) pluginTags in
  let groupAppend :=
    sliceFrom (Z.of_nat (List.length pluginTags) - Z.of_nat (List.length append)) pluginTags in
  copyAttributes (groupPrepend ++ groupAppend) 0 (prepend ++ append) nodes.

(** [x.head ? x.head : x.headTags]: the list read and the way to store
    the altered list back. *)
Definition pickTags (primary secondary : option (list tagNode))
  : result (list tagNode) :=
  match primary with
  | Some nodes => Ok nodes
  | None =>
      match secondary with
      | Some nodes => Ok nodes
      | None => Err TypeError
      end
  end.

Definition storeTags (primary secondary : option (list tagNode)) (nodes : list tagNode)
  : option (list tagNode) * option (list tagNode) :=
  match primary with
  | Some _ => (Some nodes, secondary)
  | None => (None, Some nodes)
  end.

(** [onAlterAssetTag(htmlPluginData, callback)]: the document passed to
    [callback(null, htmlPluginData)], or a synchronous throw. *)
Definition onAlterAssetTag (options : validatedOptions) (data : htmlPluginData)
  : result htmlPluginData :=
  if getShouldSkip (o_files options) data then Ok data
  else
    pluginHead ← pickTags (head data) (headTags data);
    pluginBody ← pickTags (body data) (bodyTags data);
    pluginHead ← alterGroup "link" (o_linksPrepend options) (o_linksAppend options) pluginHead;
    pluginBody ← alterGroup "script" (o_scriptsPrepend options) (o_scriptsAppend options) pluginBody;
    let heads := storeTags (head data) (headTags data) pluginHead in
    let bodies := storeTags (body data) (bodyTags data) pluginBody in
    Ok {| outputName := outputName data;
          assets_publicPath := assets_publicPath data;
          assets_js := assets_js data;
          assets_css := assets_css data;
          head := heads.1;
          headTags := heads.2;
          body := bodies.1;
          bodyTags := bodies.2 |}.

End Model.

(** ** Path resolution on shared descriptors

    The descriptors of a validated configuration are objects that the
    configuration, its buckets and every call of the hooks share.  Here
    [getTagPath] receives the descriptor by reference, in a heap that a
    function given a reference can write to; the transform callbacks are
    pure, they neither read nor write the heap. *)

Module Stateful.
Section Resolver.
Context `{Host}.

(** Objects by reference. *)
Definition heap : Type := gmap nat (gmap string jsval).

(** A computation on the heap: the heap it leaves, the transform calls it
    made, and its result or the error it threw. *)
Definition run (A : Type) : Type := heap → heap * (list transformCall * result A).

Definition finish {A : Type} (r : result A) : run A := λ store, (store, ([], r)).

Definition andThen {A B : Type} (m : run A) (k : A → run B) : run B :=
  λ store,
    match m store with
    | (store, (calls, Ok a)) =>
        match k a store with
        | (store, (later, b)) => (store, (calls ++ later, b))
        end
    | (store, (calls, Err e)) => (store, (calls, Err e))
    end.

(** [object[k]] read through the reference; a reference to nothing is
    [undefined], whose properties cannot be read. *)
Definition readProperty (object : nat) (k : string) : run jsval :=
  λ store,
    (store, ([], match store !! object with
                 | Some properties => Ok (get properties k)
                 | None => Err TypeError
                 end)).

(** [object[k] = v] written through the reference. *)
Definition writeProperty (object : nat) (k : string) (v : jsval) : run unit :=
  λ store,
    match store !! object with
    | Some properties => (<[ object := setProperty properties k v ]> store, ([], Ok tt))
    | None => (store, ([], Err TypeError))
    end.

Definition callTransform (kind : transformKind) (f : fn) (path value : jsval) : run jsval :=
  λ store, (store, transform kind f path value).

(** [getTagPath(tagObject, options, webpackPublicPath, compilationHash)]:
    [path] is a variable of the call, assigned up to twice. *)
Definition getTagPath (tagObject : nat) (options : validatedOptions)
    (webpackPublicPath compilationHash : jsval) : run string :=
  let usePublicPath := o_usePublicPath options in
  let addPublicPath := o_addPublicPath options in
  let useHash := o_useHash options in
  let addHash := o_addHash options in
  andThen (readProperty tagObject "publicPath") (λ publicPath,
  andThen (readProperty tagObject "hash") (λ hash,
  andThen (readProperty tagObject "path") (λ path,
  andThen
    (if isDefined publicPath then
       match publicPath with
       | VBool true => callTransform PublicPathStep addPublicPath path webpackPublicPath
       | VFun f => callTransform PublicPathStep f path webpackPublicPath
       | _ => finish (Ok path)
       end
     else if usePublicPath
          then callTransform PublicPathStep addPublicPath path webpackPublicPath
          else finish (Ok path)) (λ path,
  andThen
    (if isDefined hash then
       match hash with
       | VBool true => callTransform HashStep addHash path compilationHash
       | VFun f => callTransform HashStep f path compilationHash
       | _ => finish (Ok path)
       end
     else if useHash then callTransform HashStep addHash path compilationHash
          else finish (Ok path)) (λ path,
  finish (slashValue path)))))).

End Resolver.
End Stateful.

(** ** Specification-side definitions

    Used only to state properties of the functions above. *)

Section Specification.
Context `{Host}.

(** Path resolver, as a composition of its steps: the transform a step
    applies, if any. *)
Definition effectiveTransform (declared : jsval) (useDefault : bool) (defaultTransform : fn)
  : option fn :=
  match declared with
  | VUndef => if useDefault then Some defaultTransform else None
  | VBool true => Some defaultTransform
  | VFun f => Some f
  | _ => None
  end.

Definition applyStep (step : option fn) (path value : jsval) : result jsval :=
  match step with
  | Some f => call f path value
  | None => Ok path
  end.

Definition publicPathStepOf (tagObject : gmap string jsval) (options : validatedOptions)
  : option fn :=
  effectiveTransform (get tagObject "publicPath") (o_usePublicPath options)
    (o_addPublicPath options).

Definition hashStepOf (tagObject : gmap string jsval) (options : validatedOptions)
  : option fn :=
  effectiveTransform (get tagObject "hash") (o_useHash options) (o_addHash options).

(** Start from the path, public-path step, hash step, separators. *)
Definition resolveSpec (tagObject : gmap string jsval) (options : validatedOptions)
    (runtimePublicPath runtimeHash : jsval) : result string :=
  afterPublicPath ←
    applyStep (publicPathStepOf tagObject options) (get tagObject "path") runtimePublicPath;
  afterHash ← applyStep (hashStepOf tagObject options) afterPublicPath runtimeHash;
  slashValue afterHash.

(** The optional fields of an object-form tag pass their checks. *)
Definition optionalFieldsValid (tag : gmap string jsval) : Prop :=
  (isDefined (get tag "append") = true → isBoolean (get tag "append") = true) ∧
  checkTagTransform (get tag "publicPath") ATagPublicPathInvalid = Ok tt ∧
  checkTagTransform (get tag "hash") ATagHashInvalid = Ok tt ∧
  (isDefined (get tag "sourcePath") = true → isString (get tag "sourcePath") = true) ∧
  checkAttributes (get tag "attributes") = Ok tt.


(** The [external] of a script descriptor is absent or well formed. *)
Definition externalValid (tagObject : gmap string jsval) : Prop :=
  get tagObject "external" = VUndef ∨
  ∃ external packageName variableName,
    get tagObject "external" = VObj external ∧
    get external "packageName" = VStr packageName ∧
    get external "variableName" = VStr variableName.

(** The variable a descriptor registers under the module [name], if any. *)
Definition declares (name : string) (script : gmap string jsval) : option jsval :=
  match get script "external" with
  | VObj external =>
      if String.eqb (str (get external "packageName")) name
      then Some (get external "variableName") else None
  | _ => None
  end.

(** The variable registered by the last descriptor declaring [name]. *)
Definition lastDeclared (name : string) (scripts : list (gmap string jsval))
  : option jsval :=
  last (omap (declares name) scripts).

(** The kind the [tags] surface gives one descriptor: [true] for CSS. *)
Definition classifiedCss (isAssetTypeCss : jsval → bool) (tagObject : gmap string jsval)
  : bool :=
  if isDefined (get tagObject "type") then isTypeCss (get tagObject "type")
  else isAssetTypeCss (get tagObject "path").

(** What [splitLinkScriptTags] stores for a descriptor. *)
Definition stored (tagObject : gmap string jsval) : gmap string jsval :=
  if isDefined (get tagObject "type") then delete "type" tagObject else tagObject.

(** [prepend] and [appended] are the two buckets of [all]: the descriptors
    with [append: false] and those with [append: true], each in the order
    they have in [all], and together as many as [all]. *)
Definition bucketsOf (all prepend appended : list (gmap string jsval)) : Prop :=
  prepend = List.filter (λ tagObject, negb (appendOf tagObject)) all ∧
  appended = List.filter appendOf all ∧
  Forall (λ tagObject, get tagObject "append" = VBool false) prepend ∧
  Forall (λ tagObject, get tagObject "append" = VBool true) appended ∧
  (List.length prepend + List.length appended = List.length all)%nat ∧
  sublist prepend all ∧
  sublist appended all.

(** A normalised descriptor: a string [path], optional fields that pass
    their checks, and no [glob] or [globPath]. *)
Definition descriptorWellFormed (tagObject : gmap string jsval) : Prop :=
  isString (get tagObject "path") = true ∧
  optionalFieldsValid tagObject ∧
  get tagObject "glob" = VUndef ∧
  get tagObject "globPath" = VUndef.

(** A per-tag transform: absent, a boolean, or a function that returns a
    string when probed with two empty strings. *)
Definition transformValueOk (v : jsval) : Prop :=
  v = VUndef ∨ (∃ b, v = VBool b) ∨
  ∃ f probed, v = VFun f ∧ call f (VStr "") (VStr "") = Ok (VStr probed).

(** An attribute value: a string, a boolean or a finite number. *)
Definition attributeValueOk (v : jsval) : Prop :=
  (∃ s, v = VStr s) ∨ (∃ b, v = VBool b) ∨ (∃ n, v = VNum n).

(** The types of the optional fields of a descriptor. *)
Definition fieldTypesOk (tagObject : gmap string jsval) : Prop :=
  (get tagObject "append" = VUndef ∨ ∃ b, get tagObject "append" = VBool b) ∧
  transformValueOk (get tagObject "publicPath") ∧
  transformValueOk (get tagObject "hash") ∧
  (get tagObject "sourcePath" = VUndef ∨ ∃ s, get tagObject "sourcePath" = VStr s) ∧
  (get tagObject "attributes" = VUndef ∨
   ∃ props, get tagObject "attributes" = VObj props ∧
            ∀ k v, props !! k = Some v → attributeValueOk v).

End Specification.

(** Used to state the further properties below. *)




(** The tags that the value of [tags], [links] or [scripts] holds. *)
Definition declaredTags (v : jsval) : list jsval :=
  match v with
  | VArr items => items
  | _ => [v]
  end.


(** The properties of the options object that the aggregator reads, beside
    the surfaces and the extension lists. *)
Definition mainOptionKeys : list string :=
  ["append"; "publicPath"; "usePublicPath"; "addPublicPath"; "hash"; "useHash"; "addHash"].

(** Two objects read the same under every key of a list. *)
Definition agreeOn (keys : list string) (o o' : gmap string jsval) : Prop :=
  ∀ k, k ∈ keys → get o k = get o' k.

(** The source files of a list of descriptors, in order. *)
Definition sourcePathsOf (tagObjects : list (gmap string jsval)) : list string :=
  omap (λ tagObject,
          match get tagObject "sourcePath" with
          | VStr sourcePath => Some sourcePath
          | _ => None
          end) tagObjects.

(** The four buckets in the order [onBeforeHtmlGeneration] walks them. *)
Definition bucketsInOrder (options : validatedOptions) : list (gmap string jsval) :=
  o_scriptsPrepend options ++ o_scriptsAppend options
  ++ o_linksPrepend options ++ o_linksAppend options.

(** An extension made of ordinary characters and dots. *)
Fixpoint plainExtension (extension : string) : bool :=
  match extension with
  | EmptyString => true
  | String c rest => negb (isMetaChar c) && plainExtension rest
  end.

(** The attributes a descriptor's [attributes] value hands to a rendered
    tag: its own enumerable entries, the later of two equal keys winning. *)
Definition declaredAttributes (declared : jsval) : gmap string jsval :=
  if truthy declared then list_to_map (reverse (ownEntries declared)) else ∅.

(** The declared attributes that an assignment can store among the own
    properties [own] of a rendered tag: all of them, but [__proto__] when
    the tag does not have it as an own property. *)
Definition writableOver (own declared : gmap string jsval) : gmap string jsval :=
  if assignable own "__proto__" then declared else delete "__proto__" declared.

(** A rendered tag after the copy-back from [tagObject]: the declared
    attributes that can be stored, written over the tag's own. *)
Definition mergeTag (tagObject : gmap string jsval) (tag : tagNode) : tagNode :=
  {| tagName := tagName tag;
     attributes :=
       writableOver (attributes tag) (declaredAttributes (get tagObject "attributes"))
       ∪ attributes tag |}.

(** What the copy-back may do to one rendered tag of a list whose plugin
    tags are called [name]. *)
Definition tagKept (name : string) (tag tag' : tagNode) : Prop :=
  tagName tag' = tagName tag ∧
  (tagName tag ≠ name → tag' = tag) ∧
  dom (attributes tag) ⊆ dom (attributes tag').

(** The lists [head]/[headTags] (or [body]/[bodyTags]) before and after
    the copy-back: the list the hook reads is altered in place, the other
    one is not touched. *)
Definition alteredPair (name : string)
    (primary secondary primary' secondary' : option (list tagNode)) : Prop :=
  match primary with
  | Some nodes =>
      secondary' = secondary ∧
      ∃ nodes', primary' = Some nodes' ∧ Forall2 (tagKept name) nodes nodes'
  | None =>
      primary' = None ∧ option_Forall2 (Forall2 (tagKept name)) secondary secondary'
  end.

(** The copy-back when the first [length prepend] and the last
    [length append] tags called [name] do not overlap. *)
Definition copiedBack (name : string) (prepend append : list (gmap string jsval))
    (nodes nodes' : list tagNode) : Prop :=
  let targets := tagPositions name nodes in
  (∀ j tagObject position,
     prepend !! j = Some tagObject → targets !! j = Some position →
     nodes' !! position = mergeTag tagObject <$> nodes !! position) ∧
  (∀ j tagObject position,
     append !! j = Some tagObject →
     targets !! (List.length targets - List.length append + j) = Some position →
     nodes' !! position = mergeTag tagObject <$> nodes !! position) ∧
  (∀ position,
     position ∉ take (List.length prepend) targets →
     position ∉ drop (List.length targets - List.length append) targets →
     nodes' !! position = nodes !! position).

(** The strings of an array. *)
Definition stringItems (items : list jsval) : list string :=
  omap (λ item, match item with VStr s => Some s | _ => None end) items.

(** The patterns a [files] value stands for. *)
Definition filePatterns (files : jsval) : option (list string) :=
  match files with
  | VStr file => Some [file]
  | VArr items => Some (stringItems items)
  | _ => None
  end.

(** ** A concrete host and concrete configurations *)

(** Callback 0 is [(p, b) => b + p], callback 1 is [(p, h) => p + "?" + h],
    callback 2 returns a number; every other callback returns [undefined]. *)
Definition sampleUser (id : nat) (a b : jsval) : jsval :=
  match id, a, b with
  | 0, VStr p, VStr base => VStr (base ++ p)
  | 1, VStr p, VStr h => VStr (p ++ "?" ++ h)
  | 2, _, _ => VNum 0
  | _, _, _ => VUndef
  end.

(** Backslashes become forward slashes. *)
Fixpoint sampleSlash (s : string) : string :=
  match s with
  | EmptyString => EmptyString
  | String c rest =>
      String (if Ascii.eqb c "\"%char then "/"%char else c) (sampleSlash rest)
  end.

(** A directory [/libs] holding [a.js] and [b.js]; patterns are literal
    names; joining puts one separator between two relative segments. *)
Definition sampleHost : Host := {|
  user := sampleUser;
  ToString := λ _, "[object]";
  path_join := λ a b, (a ++ "/" ++ b)%string;
  slash := sampleSlash;
  glob_sync := λ pattern cwd,
    if String.eqb pattern "*.js" && String.eqb cwd "/libs" then ["a.js"; "b.js"] else [];
  minimatch := String.eqb;
  hostRegExp := λ _, None;
  addFileToAssets := λ _, true
|}.

Definition emptyObject : gmap string jsval := ∅.

(** [{ path: p }]. *)
Definition pathOnly (p : string) : gmap string jsval := {[ "path" := VStr p ]}.

(** [{ glob: "*.js", globPath: "/libs" }]. *)
Definition globWithoutPath : gmap string jsval :=
  <[ "glob" := VStr "*.js" ]> {[ "globPath" := VStr "/libs" ]}.

(** [{ path: "vendor", glob: "*.js", globPath: "/libs" }]. *)
Definition vendorGlob : gmap string jsval :=
  <[ "path" := VStr "vendor" ]> globWithoutPath.

(** [{ packageName: "jquery", variableName: "jQuery" }]. *)
Definition jqueryExternal : gmap string jsval :=
  <[ "packageName" := VStr "jquery" ]> {[ "variableName" := VStr "jQuery" ]}.

(** [{ path: "jquery.js", external: {...} }]. *)
Definition jqueryScript : gmap string jsval :=
  <[ "external" := VObj jqueryExternal ]> (pathOnly "jquery.js").


(** [{ path: "a.js", publicPath: true, hash: true }]. *)
Definition hashedScript : gmap string jsval :=
  <[ "publicPath" := VBool true ]> (<[ "hash" := VBool true ]> (pathOnly "a.js")).

(** Resolved options whose transforms are callbacks 0 and 1. *)
Definition callbackOptions : validatedOptions := {|
  o_links := []; o_linksPrepend := []; o_linksAppend := [];
  o_scripts := [hashedScript]; o_scriptsPrepend := []; o_scriptsAppend := [hashedScript];
  o_append := true;
  o_usePublicPath := true; o_addPublicPath := FUser 0;
  o_useHash := false; o_addHash := FUser 1;
  o_files := Some ["index.html"]
|}.

(** [{ publicPath: true, usePublicPath: false }]. *)
Definition conflictingOptions : gmap string jsval :=
  <[ "publicPath" := VBool true ]> {[ "usePublicPath" := VBool false ]}.



(** [{ scripts: [{ path: "jquery.js", external: {...} }] }]. *)
Definition externalScriptOptions : gmap string jsval :=
  {[ "scripts" := VArr [VObj jqueryScript] ]}.

(** [{ path: "zepto.js", external: { packageName: "jquery", variableName: "$" } }]. *)
Definition zeptoScript : gmap string jsval :=
  <[ "external" :=
       VObj (<[ "packageName" := VStr "jquery" ]> {[ "variableName" := VStr "$" ]}) ]>
    (pathOnly "zepto.js").


(** [{ tags: ["a.css", { path: "b.js", append: false },
              { path: "c", type: "css", append: false }],
       links: "d.css", scripts: [{ path: "e.js" }] }]. *)
Definition mixedOptions : gmap string jsval :=
  <[ "tags" := VArr [ VStr "a.css";
                      VObj (<[ "append" := VBool false ]> (pathOnly "b.js"));
                      VObj (<[ "type" := VStr "css" ]>
                              (<[ "append" := VBool false ]> (pathOnly "c"))) ] ]>
    (<[ "links" := VStr "d.css" ]>
       {[ "scripts" := VArr [VObj (pathOnly "e.js")] ]}).

(** Resolved options holding two scripts that declare the same module. *)
Definition twoExternalsOptions : validatedOptions := {|
  o_links := []; o_linksPrepend := []; o_linksAppend := [];
  o_scripts := [jqueryScript; zeptoScript];
  o_scriptsPrepend := []; o_scriptsAppend := [jqueryScript; zeptoScript];
  o_append := true;
  o_usePublicPath := true; o_addPublicPath := FDefaultAddPublicPath;
  o_useHash := false; o_addHash := FDefaultAddHash;
  o_files := None
|}.

(** [{ hash: true, addHash: (p, h) => p + "?" + h }]. *)
Definition conflictingHashOptions : gmap string jsval :=
  <[ "hash" := VBool true ]> {[ "addHash" := VFun (FUser 1) ]}.

(** [{ path: "lib", glob: "*.css", globPath: "/libs" }]: nothing matches. *)
Definition emptyGlob : gmap string jsval :=
  <[ "path" := VStr "lib" ]>
    (<[ "glob" := VStr "*.css" ]> {[ "globPath" := VStr "/libs" ]}).

(** [{ path: "a.js", publicPath: f }] where [f] is callback 2, which
    returns a number. *)
Definition numberPathScript : gmap string jsval :=
  <[ "publicPath" := VFun (FUser 2) ]> (pathOnly "a.js").

(** [{ path: "print.css", attributes: { media: "print" } }] and
    [{ path: "late.css", attributes: { id: "late" } }]. *)
Definition printLink : gmap string jsval :=
  <[ "attributes" := VObj {[ "media" := VStr "print" ]} ]> (pathOnly "print.css").

Definition lateLink : gmap string jsval :=
  <[ "attributes" := VObj {[ "id" := VStr "late" ]} ]> (pathOnly "late.css").

(** Resolved options with one link in each bucket and no transform. *)
Definition linkOptions : validatedOptions := {|
  o_links := [printLink; lateLink];
  o_linksPrepend := [printLink]; o_linksAppend := [lateLink];
  o_scripts := []; o_scriptsPrepend := []; o_scriptsAppend := [];
  o_append := true;
  o_usePublicPath := false; o_addPublicPath := FDefaultAddPublicPath;
  o_useHash := false; o_addHash := FDefaultAddHash;
  o_files := None
|}.

(** A document called [index.html] whose head holds a meta tag and three
    links. *)
Definition indexDocument : htmlPluginData := {|
  outputName := "index.html";
  assets_publicPath := VStr "/cdn/";
  assets_js := ["main.js"];
  assets_css := ["main.css"];
  head := Some [ {| tagName := "meta"; attributes := ∅ |};
                 {| tagName := "link"; attributes := ∅ |};
                 {| tagName := "link"; attributes := {[ "id" := VStr "main" ]} |};
                 {| tagName := "link"; attributes := {[ "id" := VStr "old" ]} |} ];
  headTags := None;
  body := Some [ {| tagName := "script"; attributes := ∅ |} ];
  bodyTags := None
|}.

(** A document called [other.html]. *)
Definition otherDocument : htmlPluginData := {|
  outputName := "other.html";
  assets_publicPath := VStr "/cdn/";
  assets_js := ["main.js"];
  assets_css := ["main.css"];
  head := Some [ {| tagName := "link"; attributes := ∅ |} ];
  headTags := None;
  body := Some [ {| tagName := "script"; attributes := ∅ |} ];
  bodyTags := None
|}.










(** [{ path: "a.js", sourcePath: "src/a.js" }]. *)
Definition sourcedScript : gmap string jsval :=
  <[ "sourcePath" := VStr "src/a.js" ]> (pathOnly "a.js").

(** Resolved options with one appended script that has a source file. *)
Definition sourcedOptions : validatedOptions := {|
  o_links := []; o_linksPrepend := []; o_linksAppend := [];
  o_scripts := [sourcedScript]; o_scriptsPrepend := []; o_scriptsAppend := [sourcedScript];
  o_append := true;
  o_usePublicPath := false; o_addPublicPath := FDefaultAddPublicPath;
  o_useHash := false; o_addHash := FDefaultAddHash;
  o_files := None
|}.

(** Resolved options with one appended script whose [publicPath] callback
    returns a number. *)
Definition throwingOptions : validatedOptions := {|
  o_links := []; o_linksPrepend := []; o_linksAppend := [];
  o_scripts := [numberPathScript];
  o_scriptsPrepend := []; o_scriptsAppend := [numberPathScript];
  o_append := true;
  o_usePublicPath := true; o_addPublicPath := FDefaultAddPublicPath;
  o_useHash := false; o_addHash := FDefaultAddHash;
  o_files := None
|}.

(** [{ path: "c", type: "css" }]. *)
Definition typedTag : gmap string jsval := <[ "type" := VStr "css" ]> (pathOnly "c").

(** [mixedOptions] with [htmlPluginName: "html-webpack-plugin"]. *)
Definition namedOptions : gmap string jsval :=
  <[ "htmlPluginName" := VStr "html-webpack-plugin" ]> mixedOptions.

(** [{ scripts: [{ path: "e.js" }], files: "index.html" }]. *)
Definition indexOnlyOptions : gmap string jsval :=
  <[ "files" := VStr "index.html" ]> {[ "scripts" := VArr [VObj (pathOnly "e.js")] ]}.

(** [{ publicPath: "/static" }] and [{ usePublicPath: false }]. *)
Definition staticOptions : gmap string jsval := {[ "publicPath" := VStr "/static" ]}.

Definition plainPathOptions : gmap string jsval := {[ "usePublicPath" := VBool false ]}.

(** ** Properties of the matcher *)

Section RegexFacts.

Local Arguments String.append !_ _ / : simpl nomatch.

Lemma append_empty_r (s : string) : (s ++ "")%string = s.
Proof. induction s as [|c s IH]; simpl; [reflexivity | by rewrite IH]. Qed.

Lemma append_assoc' (a b c : string) : ((a ++ b) ++ c)%string = (a ++ b ++ c)%string.
Proof. induction a as [|x a IH]; simpl; [reflexivity | by rewrite IH]. Qed.

Lemma append_eq_empty (a b : string) : (a ++ b)%string = "" → a = "" ∧ b = "".
Proof. destruct a; simpl; [auto | discriminate]. Qed.

Lemma nullable_weaken (r : regex) : nullable false r = true → nullable true r = true.
Proof.
  induction r; simpl; try done.
  - intros [H1 H2]%andb_true_iff. rewrite IHr1, IHr2; done.
  - intros [H1 | H2]%orb_true_iff; [rewrite IHr1 | rewrite IHr2]; try done.
    by rewrite orb_true_r.
Qed.

Lemma nullable_matches (r : regex) (rest : string) :
  nullable (atEnd rest) r = true ↔ matches r "" rest.
Proof.
  split.
  - induction r; simpl; try discriminate.
    + intros _. constructor.
    + destruct rest; [intros _; constructor | discriminate].
    + intros [H1 H2]%andb_true_iff.
      change ""%string with ("" ++ "")%string. constructor; auto.
    + intros [H1 | H2]%orb_true_iff; [apply MAltL | apply MAltR]; auto.
    + intros _. constructor.
  - intros Hm. remember ""%string as w eqn:Hw.
    induction Hm; simpl; try done; try discriminate.
    + apply append_eq_empty in Hw as [-> ->]. simpl in *.
      rewrite IHHm2 by done.
      assert (Hr1 : nullable (atEnd rest) r1 = true).
      { specialize (IHHm1 eq_refl). exact IHHm1. }
      by rewrite Hr1.
    + by rewrite IHHm.
    + rewrite IHHm by done. by rewrite orb_true_r.
Qed.

Lemma deriv_sound (c : ascii) (r : regex) (w rest : string) :
  matches (deriv c r) w rest → matches r (String c w) rest.
Proof.
  revert w rest. induction r; intros w rest; simpl; intros Hm.
  - inversion Hm.
  - inversion Hm.
  - destruct (Ascii.eqb_spec c c0) as [-> |]; inversion Hm; subst. constructor.
  - destruct (isLineTerminator c) eqn:E; inversion Hm; subst. by constructor.
  - inversion Hm.
  - assert (Hleft : ∀ w, matches (RCat (deriv c r1) r2) w rest →
                         matches (RCat r1 r2) (String c w) rest).
    { intros w' Hl. inversion Hl; subst.
      change (String c (w1 ++ w2)) with (String c w1 ++ w2)%string.
      constructor; auto. }
    destruct (nullable false r1) eqn:En.
    + inversion Hm; subst; [by apply Hleft |].
      change (String c w) with ("" ++ String c w)%string.
      constructor; [| by apply IHr2].
      apply nullable_matches. exact En.
    + by apply Hleft.
  - inversion Hm; subst; [apply MAltL | apply MAltR]; auto.
  - inversion Hm; subst.
    change (String c (w1 ++ w2)) with (String c w1 ++ w2)%string.
    constructor; auto.
Qed.

Lemma deriv_complete (c : ascii) (r : regex) (w rest : string) :
  matches r (String c w) rest → matches (deriv c r) w rest.
Proof.
  intros Hm. remember (String c w) as cw eqn:Hcw. revert c w Hcw.
  induction Hm; intros c' w' Hcw; try discriminate.
  - injection Hcw as -> <-. simpl. rewrite Ascii.eqb_refl. constructor.
  - injection Hcw as -> <-. simpl. rewrite H. constructor.
  - simpl. destruct w1 as [|c1 w1].
    + simpl in Hcw. subst w2.
      apply nullable_matches in Hm1. simpl in Hm1. rewrite Hm1.
      apply MAltR. by apply IHHm2.
    + simpl in Hcw. injection Hcw as -> <-.
      assert (Hl : matches (RCat (deriv c' r1) r2) (w1 ++ w2) rest).
      { constructor; auto. }
      destruct (nullable false r1); [by apply MAltL | exact Hl].
  - simpl. apply MAltL. auto.
  - simpl. apply MAltR. auto.
  - destruct w1 as [|c1 w1].
    + simpl in Hcw. subst w2. by apply IHHm2.
    + simpl in Hcw. injection Hcw as -> <-. simpl.
      constructor; auto.
Qed.

Lemma matchesPrefix_matches (r : regex) (s : string) :
  matchesPrefix r s = true ↔ ∃ w rest, s = (w ++ rest)%string ∧ matches r w rest.
Proof.
  revert r. induction s as [|c s IH]; intros r; simpl.
  - split.
    + intros Hn. exists ""%string, ""%string. split; [done |].
      by apply nullable_matches.
    + intros (w & rest & Hs & Hm). symmetry in Hs.
      apply append_eq_empty in Hs as [-> ->]. by apply nullable_matches in Hm.
  - rewrite orb_true_iff, IH. split.
    + intros [Hn | (w & rest & -> & Hm)].
      * exists ""%string, (String c s). split; [done |]. by apply nullable_matches.
      * exists (String c w), rest. split; [done |]. by apply deriv_sound.
    + intros (w & rest & Hs & Hm). destruct w as [|c' w].
      * simpl in Hs. subst rest. left. by apply nullable_matches in Hm.
      * simpl in Hs. injection Hs as <- ->. right.
        exists w, rest. split; [done |]. by apply deriv_complete.
Qed.

Lemma regexTest_matches (r : regex) (s : string) :
  regexTest r s = true ↔
  ∃ skipped w rest, s = (skipped ++ w ++ rest)%string ∧ matches r w rest.
Proof.
  induction s as [|c s IH]; simpl.
  - rewrite orb_false_r. change (nullable true r) with (matchesPrefix r "").
    rewrite matchesPrefix_matches. split.
    + intros (w & rest & Hs & Hm). by exists ""%string, w, rest.
    + intros (skipped & w & rest & Hs & Hm). symmetry in Hs.
      apply append_eq_empty in Hs as [-> Hs]. simpl in *. eauto.
  - rewrite orb_true_iff, IH.
    change (nullable false r || matchesPrefix (deriv c r) s)
      with (matchesPrefix r (String c s)).
    rewrite matchesPrefix_matches. split.
    + intros [(w & rest & Hs & Hm) | (skipped & w & rest & -> & Hm)].
      * by exists ""%string, w, rest.
      * by exists (String c skipped), w, rest.
    + intros (skipped & w & rest & Hs & Hm). destruct skipped as [|c' skipped].
      * simpl in Hs. left. by exists w, rest.
      * simpl in Hs. injection Hs as <- ->. right. by exists skipped, w, rest.
Qed.

(** The patterns of [createExtensionsRegex]: some suffix matches the
    alternatives. *)
Lemma regexTest_suffix (alts : regex) (s : string) :
  regexTest (RCat (RStar RDot) (RCat alts REnd)) s = true ↔
  ∃ before suffix, s = (before ++ suffix)%string ∧ matches alts suffix "".
Proof.
  rewrite regexTest_matches. split.
  - intros (skipped & w & rest & -> & Hm).
    inversion Hm as [| | | |? ? w1 w23 ? Hstar Htail| | | |]; subst.
    inversion Htail as [| | | |? ? w2 w3 ? Halts Hend| | | |]; subst.
    inversion Hend; subst. simpl in *.
    exists (skipped ++ w1)%string, w2.
    rewrite !append_empty_r. by rewrite append_assoc'.
  - intros (before & suffix & -> & Hm).
    exists before, suffix, ""%string. split; [by rewrite append_empty_r |].
    change suffix with ("" ++ suffix)%string. constructor; [constructor |].
    rewrite <- (append_empty_r suffix). constructor; [| constructor].
    simpl. exact Hm.
Qed.

Lemma parseAlternative_matches (pattern : string) (r : regex) (w rest : string) :
  parseAlternative pattern = Some r →
  matches r w rest ↔ wildMatch pattern w = true.
Proof.
  revert r w. induction pattern as [|p pattern IH]; intros r w; simpl.
  - intros [= <-]. split.
    + intros Hm. inversion Hm. reflexivity.
    + destruct w; [constructor | discriminate].
  - destruct (Ascii.eqb_spec p ".") as [-> | Hdot].
    + destruct (parseAlternative pattern) as [r'|]; [| discriminate].
      intros [= <-]. split.
      * intros Hm. inversion Hm as [| | | |? ? w1 w2 ? Hdot Hrest| | | |]; subst.
        inversion Hdot as [| |c ? Hc| | | | | |]; subst. simpl.
        rewrite Hc. simpl. by apply (IH r').
      * destruct w as [|c w]; [discriminate |].
        intros [Hc Hw]%andb_true_iff. apply negb_true_iff in Hc.
        change (String c w) with (String c "" ++ w)%string.
        constructor; [by constructor | by apply (IH r')].
    + destruct (isMetaChar p); [discriminate |].
      destruct (parseAlternative pattern) as [r'|]; [| discriminate].
      intros [= <-]. split.
      * intros Hm. inversion Hm as [| | | |? ? w1 w2 ? Hchar Hrest| | | |]; subst.
        inversion Hchar; subst. simpl.
        rewrite Ascii.eqb_refl. simpl. by apply (IH r').
      * destruct w as [|c w]; [discriminate |].
        intros [Hc Hw]%andb_true_iff. apply Ascii.eqb_eq in Hc as <-.
        change (String p w) with (String p "" ++ w)%string.
        constructor; [by constructor | by apply (IH r')].
Qed.

Lemma parseAlternatives_matches (alternatives : list string) (r : regex)
    (w rest : string) :
  parseAlternatives alternatives = Some r →
  matches r w rest ↔ existsb (λ pattern, wildMatch pattern w) alternatives = true.
Proof.
  revert r. induction alternatives as [|pattern alternatives IH]; intros r.
  - intros [= <-]. simpl. split; [intros Hm; inversion Hm | discriminate].
  - destruct alternatives as [|pattern' alternatives].
    + simpl. intros Hr. rewrite orb_false_r. by apply parseAlternative_matches.
    + change (parseAlternatives (pattern :: pattern' :: alternatives))
        with (r1 ← parseAlternative pattern;
              r2 ← parseAlternatives (pattern' :: alternatives); Some (RAlt r1 r2)).
      destruct (parseAlternative pattern) as [r1|] eqn:E1; [| discriminate].
      destruct (parseAlternatives (pattern' :: alternatives)) as [r2|]; [| discriminate].
      intros [= <-].
      change (existsb (λ pattern0, wildMatch pattern0 w)
                      (pattern :: pattern' :: alternatives))
        with (wildMatch pattern w
              || existsb (λ pattern0, wildMatch pattern0 w) (pattern' :: alternatives)).
      rewrite orb_true_iff, <- (IH r2 eq_refl),
        <- (parseAlternative_matches pattern r1 w rest E1).
      split.
      * intros Hm. inversion Hm; subst; auto.
      * intros [Hm | Hm]; [by apply MAltL | by apply MAltR].
Qed.

(** The test of a pattern of the fragment, in words. *)
Lemma regexTest_alternatives (alternatives : list string) (r : regex) (s : string) :
  parseAlternatives alternatives = Some r →
  regexTest (RCat (RStar RDot) (RCat r REnd)) s = true ↔ endsWithOneOf alternatives s.
Proof.
  intros Hr. rewrite regexTest_suffix. unfold endsWithOneOf.
  split; intros (before & suffix & Hs & Hm); exists before, suffix; (split; [exact Hs |]);
    by apply (parseAlternatives_matches alternatives r suffix "" Hr).
Qed.

End RegexFacts.

(** ** Properties *)

Section Properties.
Context `{Host}.

(** *** The outcome monad *)

Lemma bind_Ok {A B : Type} (m : result A) (k : A → result B) (b : B) :
  m ≫= k = Ok b → ∃ a, m = Ok a ∧ k a = Ok b.
Proof. destruct m as [a|e]; simpl; [eauto | discriminate]. Qed.


Lemma assert_Ok (cond : bool) (site : assert_site) :
  assert cond site = Ok tt ↔ cond = true.
Proof. destruct cond; simpl; split; congruence. Qed.

Lemma forEach_Ok {A : Type} (f : A → result unit) (xs : list A) :
  forEach f xs = Ok tt ↔ Forall (λ x, f x = Ok tt) xs.
Proof.
  induction xs as [|x xs IH]; simpl.
  - split; [constructor | reflexivity].
  - split.
    + intros Hb. apply bind_Ok in Hb as ([] & Hx & Hrest).
      constructor; [exact Hx | by apply IH].
    + intros Hall. inversion Hall as [|? ? Hx Hxs]; subst.
      rewrite Hx. simpl. by apply IH.
Qed.


(** *** Callable values *)

(** A call on two strings never throws. *)
Lemma call_strings (f : fn) (a b : string) :
  ∃ v, call f (VStr a) (VStr b) = Ok v.
Proof.
  revert b. induction f as [| | add IH shortcut | id]; intros b; simpl; eauto.
Qed.

Lemma functionReturningString_total (v : jsval) :
  ∃ o, functionReturningString v = Ok o.
Proof.
  destruct v; simpl; eauto.
  destruct (call_strings f "" "") as [r ->]. simpl. eauto.
Qed.

(** *** Extension classifier *)

(** The default patterns lie in the modelled fragment. *)
Lemma default_js_regex :
  parseRegex (regexSource DEFAULT_jsExtensions)
  = Some (RCat (RStar RDot)
            (RCat (RCat RDot (RCat (RChar "j") (RCat (RChar "s") REps))) REnd)).
Proof. reflexivity. Qed.

Lemma default_css_regex :
  parseRegex (regexSource DEFAULT_cssExtensions)
  = Some (RCat (RStar RDot)
            (RCat (RCat RDot (RCat (RChar "c") (RCat (RChar "s") (RCat (RChar "s") REps))))
                  REnd)).
Proof. reflexivity. Qed.

(** With no [jsExtensions] or [cssExtensions] option, the matcher of a kind
    accepts the values one of whose suffixes matches a default extension,
    the dot of the extension standing for any character. *)
Lemma getHasExtensions_default (options : gmap string jsval) (optionExtensionName : string) :
  get options optionExtensionName = VUndef →
  optionExtensionName = "jsExtensions" ∨ optionExtensionName = "cssExtensions" →
  ∃ hasExtensions,
    getHasExtensions options optionExtensionName = Ok hasExtensions ∧
    ∀ value, hasExtensions value = true
             ↔ endsWithOneOf (defaultExtensions optionExtensionName) (str value).
Proof.
  intros Habsent Hname. unfold getHasExtensions, getExtensions. rewrite Habsent. simpl.
  destruct Hname as [-> | ->].
  - unfold createExtensionsRegex, newRegExp.
    replace (defaultExtensions "jsExtensions") with DEFAULT_jsExtensions by reflexivity.
    rewrite default_js_regex. simpl. eexists. split; [reflexivity |].
    intros value. by apply regexTest_alternatives.
  - unfold createExtensionsRegex, newRegExp.
    replace (defaultExtensions "cssExtensions") with DEFAULT_cssExtensions by reflexivity.
    rewrite default_css_regex. simpl. eexists. split; [reflexivity |].
    intros value. by apply regexTest_alternatives.
Qed.

(** What the default classifier does with a tag that has no [type]: CSS
    when a suffix of the path matches [.css], else JS when a suffix matches
    [.js], else the Configuration Error of the classification. *)
Lemma default_classification (options tagObject : gmap string jsval) (path : string) :
  get options "jsExtensions" = VUndef →
  get options "cssExtensions" = VUndef →
  get tagObject "type" = VUndef →
  get tagObject "path" = VStr path →
  (endsWithOneOf DEFAULT_cssExtensions path →
   splitLinkScriptTags [tagObject] options = Ok ([tagObject], [])) ∧
  (¬ endsWithOneOf DEFAULT_cssExtensions path →
   endsWithOneOf DEFAULT_jsExtensions path →
   splitLinkScriptTags [tagObject] options = Ok ([], [tagObject])) ∧
  (¬ endsWithOneOf DEFAULT_cssExtensions path →
   ¬ endsWithOneOf DEFAULT_jsExtensions path →
   splitLinkScriptTags [tagObject] options = Err (ConfigError ACouldNotDetermineType)).
Proof.
  intros Hjs Hcss Htype Hpath.
  destruct (getHasExtensions_default options "jsExtensions" Hjs (or_introl eq_refl))
    as (hasJs & HhasJs & HjsSpec).
  destruct (getHasExtensions_default options "cssExtensions" Hcss (or_intror eq_refl))
    as (hasCss & HhasCss & HcssSpec).
  assert (Hrun : splitLinkScriptTags [tagObject] options
                 = if hasCss (VStr path) then Ok ([tagObject], [])
                   else if hasJs (VStr path) then Ok ([], [tagObject])
                   else Err (ConfigError ACouldNotDetermineType)).
  { unfold splitLinkScriptTags, getAssetTypeCheckers. rewrite HhasJs, HhasCss. simpl.
    unfold splitOne. rewrite Htype, Hpath. simpl.
    destruct (hasCss (VStr path)); [reflexivity |].
    destruct (hasJs (VStr path)); reflexivity. }
  specialize (HjsSpec (VStr path)). specialize (HcssSpec (VStr path)). simpl in *.
  rewrite Hrun. repeat split.
  - intros Hends. apply HcssSpec in Hends. by rewrite Hends.
  - intros Hnot Hends. apply HjsSpec in Hends. rewrite Hends.
    destruct (hasCss (VStr path)); [| reflexivity]. destruct Hnot. by apply HcssSpec.
  - intros HnotCss HnotJs.
    destruct (hasCss (VStr path)); [destruct HnotCss; by apply HcssSpec |].
    destruct (hasJs (VStr path)); [destruct HnotJs; by apply HjsSpec | reflexivity].
Qed.

Lemma wildMatch_dot (pattern w : string) :
  wildMatch (String "." pattern) w = true ↔
  ∃ c w', w = String c w' ∧ isLineTerminator c = false ∧ wildMatch pattern w' = true.
Proof.
  destruct w as [|c w']; simpl.
  - split; [discriminate | intros (? & ? & [=] & _)].
  - rewrite andb_true_iff, negb_true_iff. split.
    + intros [Hc Hw]. by exists c, w'.
    + intros (? & ? & [= <- <-] & Hc & Hw). done.
Qed.

Lemma wildMatch_char (p : ascii) (pattern w : string) :
  Ascii.eqb p "." = false →
  wildMatch (String p pattern) w = true ↔
  ∃ w', w = String p w' ∧ wildMatch pattern w' = true.
Proof.
  intros Hp. destruct w as [|c w']; cbn [wildMatch].
  - split; [discriminate | intros (? & [=] & _)].
  - rewrite Hp, andb_true_iff, Ascii.eqb_eq. split.
    + intros [<- Hw]. by exists w'.
    + intros (? & [= <- <-] & Hw). done.
Qed.

Lemma wildMatch_empty (w : string) : wildMatch "" w = true ↔ w = "".
Proof. destruct w; simpl; split; done. Qed.

(** A path ends with [.js] in the sense of the pattern as soon as it ends
    with any character but a line terminator followed by [js]. *)
Lemma endsWithOneOf_js (path : string) :
  endsWithOneOf DEFAULT_jsExtensions path ↔
  ∃ before c, path = (before ++ String c "js")%string ∧ isLineTerminator c = false.
Proof.
  unfold endsWithOneOf, DEFAULT_jsExtensions. cbn [existsb].
  setoid_rewrite orb_false_r. setoid_rewrite wildMatch_dot.
  setoid_rewrite (wildMatch_char "j" "s" _ eq_refl).
  setoid_rewrite (wildMatch_char "s" "" _ eq_refl).
  setoid_rewrite wildMatch_empty.
  split.
  - intros (before & suffix & -> & c & w1 & -> & Hc & w2 & -> & w3 & -> & ->).
    by exists before, c.
  - intros (before & c & -> & Hc).
    exists before, (String c "js"). split; [reflexivity |].
    exists c, "js". repeat split; [exact Hc |].
    exists "s". split; [reflexivity |]. by exists "".
Qed.

(** C1, at the failing input: with the default extension lists, the tag
    ["a.mjs"] is not rejected.  The dot of [".js"] is a wildcard of the
    pattern [.*(.js)$], so the path is classified as a script, and the whole
    configuration [{ tags: ["a.mjs"] }] validates with that one script. *)
Theorem C1_mjs_classified_as_script :
  splitLinkScriptTags [pathOnly "a.mjs"] emptyObject = Ok ([], [pathOnly "a.mjs"]) ∧
  ∃ validated,
    getValidatedOptions (VObj {[ "tags" := VArr [VStr "a.mjs"] ]}) DEFAULT_OPTIONS
    = Ok validated ∧
    o_links validated = [] ∧
    o_scripts validated = [ <[ "append" := VBool true ]> (pathOnly "a.mjs") ].
Proof.
  split; [reflexivity |].
  eexists. split; [reflexivity |]. split; reflexivity.
Qed.

(** *** Tag descriptor normaliser *)

(** C2, amended: an object-form tag always needs a string [path]; without
    one normalisation fails with the Configuration Error of the [path]
    assertion, whether or not a [glob] and [globPath] pair is present. *)
Theorem C2_object_requires_string_path (tag : gmap string jsval) :
  isString (get tag "path") = false →
  getTagObjects (VObj tag) = Err (ConfigError ANoStringPath).
Proof.
  intros Hpath. unfold getTagObjects. rewrite Hpath. reflexivity.
Qed.

(** The descriptor a glob match gives rise to. *)
Lemma glob_descriptor_fields (tag : gmap string jsval) (resolved : string) :
  let d := <[ "path" := VStr resolved ]> (delete "globPath" (delete "glob" tag)) in
  get d "path" = VStr resolved ∧
  get d "glob" = VUndef ∧
  get d "globPath" = VUndef ∧
  ∀ k, k ≠ "path" → k ≠ "glob" → k ≠ "globPath" → d !! k = tag !! k.
Proof.
  simpl. unfold get. repeat split.
  - by rewrite lookup_insert_eq.
  - rewrite lookup_insert_ne by done. rewrite lookup_delete_ne by done.
    by rewrite lookup_delete_eq.
  - rewrite lookup_insert_ne by done. by rewrite lookup_delete_eq.
  - intros k Hp Hg Hgp.
    rewrite lookup_insert_ne by done. rewrite lookup_delete_ne by done.
    by rewrite lookup_delete_ne.
Qed.

Lemma forEach_outcome {A : Type} (f : A → result unit) (xs : list A) :
  (∀ x, f x = Ok tt ∨ is_config_error (f x)) →
  forEach f xs = Ok tt ∨ is_config_error (forEach f xs).
Proof.
  intros Hf. induction xs as [|x xs IH]; simpl; [by left |].
  destruct (Hf x) as [-> | [site ->]]; simpl; [exact IH | right; by exists site].
Qed.

Lemma checkTagTransform_outcome (v : jsval) (site : assert_site) :
  checkTagTransform v site = Ok tt ∨ checkTagTransform v site = Err (ConfigError site).
Proof.
  unfold checkTagTransform, isFunctionReturningString.
  destruct (isDefined v); [| by left].
  destruct (isBoolean v); [by left |].
  destruct (functionReturningString_total v) as [[f|] ->]; simpl; auto.
Qed.

Lemma checkAttributes_outcome (v : jsval) :
  checkAttributes v = Ok tt ∨ is_config_error (checkAttributes v).
Proof.
  unfold checkAttributes. destruct (isDefined v); [| by left].
  destruct v; try (right; eexists; reflexivity).
  apply forEach_outcome. intros [k value]. simpl.
  destruct (isValidAttributeValue value); simpl; [by left | right; eexists; reflexivity].
Qed.

(** Normalising an object-form tag returns or raises a Configuration
    Error. *)
Lemma getTagObjects_object_outcome (tag : gmap string jsval) :
  (∃ tagObjects, getTagObjects (VObj tag) = Ok tagObjects) ∨
  is_config_error (getTagObjects (VObj tag)).
Proof.
  unfold getTagObjects, is_config_error.
  destruct (isString (get tag "path")); simpl; [| eauto].
  destruct (isDefined (get tag "append")); [destruct (isBoolean (get tag "append")) |];
    simpl; eauto;
    (destruct (checkTagTransform_outcome (get tag "publicPath") ATagPublicPathInvalid)
      as [-> | ->]; simpl; [| eauto]);
    (destruct (checkTagTransform_outcome (get tag "hash") ATagHashInvalid)
      as [-> | ->]; simpl; [| eauto]);
    (destruct (isDefined (get tag "sourcePath"));
       [destruct (isString (get tag "sourcePath")) |]; simpl; eauto);
    (destruct (checkAttributes_outcome (get tag "attributes")) as [-> | [site ->]];
       simpl; [| eauto]);
    (destruct (isDefined (get tag "glob") || isDefined (get tag "globPath")); [| eauto]);
    (destruct (isString (get tag "glob")); simpl; [| eauto]);
    (destruct (isString (get tag "globPath")); simpl; [| eauto]);
    (destruct (0 <? _)%nat; simpl; eauto).
Qed.

(** A successful normalisation of an object-form tag passed every check. *)
Lemma getTagObjects_object_Ok (tag : gmap string jsval)
    (tagObjects : list (gmap string jsval)) :
  getTagObjects (VObj tag) = Ok tagObjects →
  isString (get tag "path") = true ∧ optionalFieldsValid tag.
Proof.
  simpl. intros Hrun.
  apply bind_Ok in Hrun as ([] & Hpath & Hrun).
  apply bind_Ok in Hrun as ([] & Happend & Hrun).
  apply bind_Ok in Hrun as ([] & Hpublic & Hrun).
  apply bind_Ok in Hrun as ([] & Hhash & Hrun).
  apply bind_Ok in Hrun as ([] & Hsource & Hrun).
  apply bind_Ok in Hrun as ([] & Hattributes & _).
  apply assert_Ok in Hpath.
  repeat split; try assumption.
  - intros Hdefined. rewrite Hdefined in Happend. by apply assert_Ok in Happend.
  - intros Hdefined. rewrite Hdefined in Hsource. by apply assert_Ok in Hsource.
Qed.

(** The normalisation of a glob tag whose fields pass their checks. *)
Lemma getTagObjects_glob (tag : gmap string jsval) (base pattern cwd : string) :
  get tag "path" = VStr base →
  get tag "glob" = VStr pattern →
  get tag "globPath" = VStr cwd →
  optionalFieldsValid tag →
  getTagObjects (VObj tag)
  = (_ ← assert (0 <? List.length (glob_sync pattern cwd))%nat AGlobNoFiles;
     Ok (map (λ globAsset,
                <[ "path" := VStr (slash (path_join base globAsset)) ]>
                  (delete "globPath" (delete "glob" tag))) (glob_sync pattern cwd))).
Proof.
  intros Hpath Hglob Hcwd (Happend & Hpublic & Hhash & Hsource & Hattrs).
  unfold getTagObjects. rewrite Hpath. simpl.
  replace (if isDefined (get tag "append")
           then assert (isBoolean (get tag "append")) AAppendNotBoolean else Ok tt)
    with (Ok tt : result unit)
    by (destruct (isDefined (get tag "append")); [by rewrite Happend | done]).
  simpl. rewrite Hpublic, Hhash. simpl.
  replace (if isDefined (get tag "sourcePath")
           then assert (isString (get tag "sourcePath")) ASourcePathNotString else Ok tt)
    with (Ok tt : result unit)
    by (destruct (isDefined (get tag "sourcePath")); [by rewrite Hsource | done]).
  simpl. rewrite Hattrs. simpl.
  rewrite Hglob, Hcwd. simpl. rewrite length_map, map_map. reflexivity.
Qed.

(** C5: a tag with a string [glob] and [globPath] is expanded against
    [globPath].  With no match normalisation fails with a Configuration
    Error (the one of the glob assertion when the other fields are well
    formed).  With matches, and a string [path] and well-formed optional
    fields, it yields one descriptor per match, in match order; whenever it
    yields descriptors they are these.  Each descriptor differs from the tag
    only in having no [glob] and [globPath] and in its [path], the
    slash-normalised join of the declared path and the match. *)
Theorem C5_glob_expansion (tag : gmap string jsval) (pattern cwd : string) :
  get tag "glob" = VStr pattern →
  get tag "globPath" = VStr cwd →
  let found := glob_sync pattern cwd in
  let expansion (base : string) :=
    map (λ globAsset,
           <[ "path" := VStr (slash (path_join base globAsset)) ]>
             (delete "globPath" (delete "glob" tag))) found in
  (found = [] → is_config_error (getTagObjects (VObj tag))) ∧
  (∀ base,
     get tag "path" = VStr base → optionalFieldsValid tag →
     (found = [] → getTagObjects (VObj tag) = Err (ConfigError AGlobNoFiles)) ∧
     (found ≠ [] → getTagObjects (VObj tag) = Ok (expansion base))) ∧
  (∀ descriptors,
     getTagObjects (VObj tag) = Ok descriptors →
     found ≠ [] ∧
     ∃ base, get tag "path" = VStr base ∧ descriptors = expansion base) ∧
  (∀ base,
     List.length (expansion base) = List.length found ∧
     ∀ i globAsset, found !! i = Some globAsset →
       ∃ d, expansion base !! i = Some d ∧
            get d "path" = VStr (slash (path_join base globAsset)) ∧
            get d "glob" = VUndef ∧
            get d "globPath" = VUndef ∧
            ∀ k, k ≠ "path" → k ≠ "glob" → k ≠ "globPath" → d !! k = tag !! k).
Proof.
  intros Hglob Hcwd found expansion.
  assert (Hvalid : ∀ base, get tag "path" = VStr base → optionalFieldsValid tag →
            (found = [] → getTagObjects (VObj tag) = Err (ConfigError AGlobNoFiles)) ∧
            (found ≠ [] → getTagObjects (VObj tag) = Ok (expansion base))).
  { intros base Hpath Hfields.
    rewrite (getTagObjects_glob tag base pattern cwd Hpath Hglob Hcwd Hfields).
    fold found. split.
    - by intros ->.
    - intros Hsome. destruct found; [contradiction | reflexivity]. }
  assert (Hinv : ∀ descriptors, getTagObjects (VObj tag) = Ok descriptors →
            found ≠ [] ∧ ∃ base, get tag "path" = VStr base ∧ descriptors = expansion base).
  { intros descriptors Hrun.
    destruct (getTagObjects_object_Ok _ _ Hrun) as [Hpath Hfields].
    destruct (get tag "path") as [| | | | |base| | |] eqn:Ebase; try discriminate.
    destruct (Hvalid base eq_refl Hfields) as [Hnone Hsome].
    destruct (decide (found = [])) as [Hempty | Hnonempty].
    - rewrite (Hnone Hempty) in Hrun. discriminate.
    - split; [exact Hnonempty |]. exists base. split; [reflexivity |].
      rewrite (Hsome Hnonempty) in Hrun. by injection Hrun as <-. }
  split; [| split; [exact Hvalid | split; [exact Hinv |]]].
  - intros Hempty.
    destruct (getTagObjects_object_outcome tag) as [[descriptors Hrun] | Herr];
      [| exact Herr].
    destruct (Hinv descriptors Hrun) as [Hnonempty _]. contradiction.
  - intros base. split; [apply length_map |].
    intros i globAsset Hi. eexists. split.
    + unfold expansion. rewrite list_lookup_fmap, Hi. reflexivity.
    + apply glob_descriptor_fields.
Qed.

(** *** Path resolver *)

(** The first block of [getTagPath] applies the public-path step. *)
Lemma getTagPath_spec (tagObject : gmap string jsval) (options : validatedOptions)
    (webpackPublicPath compilationHash : jsval) :
  (getTagPath tagObject options webpackPublicPath compilationHash).2
  = resolveSpec tagObject options webpackPublicPath compilationHash.
Proof.
  unfold getTagPath, resolveSpec, publicPathStepOf, hashStepOf, effectiveTransform,
    applyStep, transform.
  destruct (get tagObject "publicPath") as [| |[]| | | | | |];
    destruct (o_usePublicPath options); simpl;
    try (destruct (call _ (get tagObject "path") webpackPublicPath); simpl; [|reflexivity]);
    destruct (get tagObject "hash") as [| |[]| | | | | |];
    destruct (o_useHash options); simpl; reflexivity.
Qed.

(** The calls of [getTagPath]: at most one public-path call, on the declared
    path, then at most one hash call, on the outcome of the public-path
    step. *)
Lemma getTagPath_calls (tagObject : gmap string jsval) (options : validatedOptions)
    (webpackPublicPath compilationHash : jsval) :
  ∃ publicCalls hashCalls,
    (getTagPath tagObject options webpackPublicPath compilationHash).1
    = publicCalls ++ hashCalls ∧
    (publicCalls = [] ∨
     ∃ f, publicPathStepOf tagObject options = Some f ∧
          publicCalls = [ {| tc_kind := PublicPathStep; tc_fn := f;
                             tc_path := get tagObject "path";
                             tc_value := webpackPublicPath |} ]) ∧
    (hashCalls = [] ∨
     ∃ f afterPublicPath,
       hashStepOf tagObject options = Some f ∧
       applyStep (publicPathStepOf tagObject options) (get tagObject "path")
         webpackPublicPath = Ok afterPublicPath ∧
       hashCalls = [ {| tc_kind := HashStep; tc_fn := f;
                        tc_path := afterPublicPath;
                        tc_value := compilationHash |} ]).
Proof.
  exists (match publicPathStepOf tagObject options with
          | Some f => [ {| tc_kind := PublicPathStep; tc_fn := f;
                           tc_path := get tagObject "path";
                           tc_value := webpackPublicPath |} ]
          | None => []
          end),
         (match applyStep (publicPathStepOf tagObject options) (get tagObject "path")
                  webpackPublicPath, hashStepOf tagObject options with
          | Ok afterPublicPath, Some f =>
              [ {| tc_kind := HashStep; tc_fn := f; tc_path := afterPublicPath;
                   tc_value := compilationHash |} ]
          | _, _ => []
          end).
  split; [| split].
  - unfold getTagPath, publicPathStepOf, hashStepOf, effectiveTransform, applyStep,
      transform.
    destruct (get tagObject "publicPath") as [| |[]| | | | | |];
      destruct (o_usePublicPath options); simpl;
      try (destruct (call _ (get tagObject "path") webpackPublicPath); simpl;
           [| reflexivity]);
      destruct (get tagObject "hash") as [| |[]| | | | | |];
      destruct (o_useHash options); reflexivity.
  - destruct (publicPathStepOf tagObject options) as [f|]; [right | left]; eauto.
  - destruct (applyStep _ _ _) as [after|e]; [| by left].
    destruct (hashStepOf tagObject options) as [f|]; [right | left]; eauto.
Qed.

(** C4: the hash step runs on the outcome of the public-path step.  The
    path returned is the composition "public-path step, then hash step, then
    separators"; in the sequence of transform calls no hash call comes before
    a public-path call, the public-path call receives the declared path and
    the hash call receives what the public-path step returned.  With
    [publicPath: true], [addPublicPath = (p, b) => b + p], base ["/cdn/"],
    [hash: true], [addHash = (p, h) => p + "?" + h] and hash ["abc123"], the
    path ["a.js"] resolves to ["/cdn/a.js?abc123"]. *)
Theorem C4_public_path_then_hash :
  (∀ tagObject options webpackPublicPath compilationHash,
     (getTagPath tagObject options webpackPublicPath compilationHash).2
     = resolveSpec tagObject options webpackPublicPath compilationHash ∧
     ∃ publicCalls hashCalls,
       (getTagPath tagObject options webpackPublicPath compilationHash).1
       = publicCalls ++ hashCalls ∧
       Forall (λ c, tc_kind c = PublicPathStep ∧ tc_path c = get tagObject "path")
         publicCalls ∧
       Forall (λ c, tc_kind c = HashStep ∧
                    applyStep (publicPathStepOf tagObject options) (get tagObject "path")
                      webpackPublicPath = Ok (tc_path c))
         hashCalls) ∧
  (∀ (addPublicPath addHash : nat) options,
     (∀ p b, user addPublicPath (VStr p) (VStr b) = VStr (b ++ p)) →
     (∀ p h, user addHash (VStr p) (VStr h) = VStr (p ++ "?" ++ h)) →
     slash "/cdn/a.js?abc123" = "/cdn/a.js?abc123" →
     o_addPublicPath options = FUser addPublicPath →
     o_addHash options = FUser addHash →
     getTagPath hashedScript options (VStr "/cdn/") (VStr "abc123")
     = ([ {| tc_kind := PublicPathStep; tc_fn := FUser addPublicPath;
             tc_path := VStr "a.js"; tc_value := VStr "/cdn/" |};
          {| tc_kind := HashStep; tc_fn := FUser addHash;
             tc_path := VStr "/cdn/a.js"; tc_value := VStr "abc123" |} ],
        Ok "/cdn/a.js?abc123")).
Proof.
  split.
  - intros tagObject options webpackPublicPath compilationHash.
    split; [apply getTagPath_spec |].
    destruct (getTagPath_calls tagObject options webpackPublicPath compilationHash)
      as (publicCalls & hashCalls & Hcalls & Hpublic & Hhash).
    exists publicCalls, hashCalls. split; [exact Hcalls |]. split.
    + destruct Hpublic as [-> | (f & _ & ->)]; repeat constructor.
    + destruct Hhash as [-> | (f & after & _ & Hafter & ->)]; repeat constructor.
      exact Hafter.
  - intros addPublicPath addHash options Hpublic Hhash Hslash Hp Hh.
    unfold getTagPath, transform.
    replace (get hashedScript "publicPath") with (VBool true) by reflexivity.
    replace (get hashedScript "hash") with (VBool true) by reflexivity.
    replace (get hashedScript "path") with (VStr "a.js") by reflexivity.
    rewrite Hp, Hh. simpl. rewrite Hpublic. simpl. rewrite Hhash. simpl.
    cbv [String.append]. rewrite Hslash. reflexivity.
Qed.

(** On a descriptor held in the heap, the resolver by reference leaves the
    heap as it found it and resolves as [getTagPath] does on the descriptor's
    properties. *)
Lemma stateful_getTagPath_spec (store : Stateful.heap) (tagObject : nat)
    (descriptor : gmap string jsval) (options : validatedOptions)
    (webpackPublicPath compilationHash : jsval) :
  store !! tagObject = Some descriptor →
  Stateful.getTagPath tagObject options webpackPublicPath compilationHash store
  = (store, getTagPath descriptor options webpackPublicPath compilationHash).
Proof.
  intros Hdescriptor.
  unfold Stateful.getTagPath, Stateful.andThen, Stateful.readProperty,
    Stateful.callTransform, Stateful.finish, getTagPath, transform.
  rewrite Hdescriptor. cbn [fst snd app].
  destruct (get descriptor "publicPath") as [| |[|]| | | |f| |];
    destruct (o_usePublicPath options); cbn [isDefined app];
    try destruct (call _ (get descriptor "path") webpackPublicPath) as [path|e];
    cbn [app]; try reflexivity;
    destruct (get descriptor "hash") as [| |[|]| | | |g| |];
    destruct (o_useHash options); cbn [isDefined app];
    try destruct (call _ _ compilationHash) as [hashed|e'];
    cbn [app mbind result_bind]; reflexivity.
Qed.

(** Through a reference to nothing the resolver throws, and leaves the
    heap as it found it. *)
Lemma stateful_getTagPath_dangling (store : Stateful.heap) (tagObject : nat)
    (options : validatedOptions) (webpackPublicPath compilationHash : jsval) :
  store !! tagObject = None →
  Stateful.getTagPath tagObject options webpackPublicPath compilationHash store
  = (store, ([], Err TypeError)).
Proof.
  intros Hnone.
  unfold Stateful.getTagPath, Stateful.andThen, Stateful.readProperty.
  by rewrite Hnone.
Qed.

(** C9: resolving one descriptor twice in a row gives the same path twice.
    [getTagPath], given the descriptor by reference in a heap it could write
    to, leaves the heap as it found it: the descriptor and every other
    object are unchanged, so the second resolution starts again from the
    declared path.  It returns the same string, or throws the same error,
    after the same transform calls as the first: at most one per step, the
    public-path call on the declared path and not on an earlier result.
    The string is the one of the composition [resolveSpec]. *)
Theorem C9_resolving_twice (store : Stateful.heap) (tagObject : nat)
    (options : validatedOptions) (webpackPublicPath compilationHash : jsval) :
  let first :=
    Stateful.getTagPath tagObject options webpackPublicPath compilationHash store in
  let second :=
    Stateful.getTagPath tagObject options webpackPublicPath compilationHash first.1 in
  first.1 = store ∧
  second.1 = store ∧
  second.2 = first.2 ∧
  (∀ descriptor,
     store !! tagObject = Some descriptor →
     second.1 !! tagObject = Some descriptor ∧
     first.2 = getTagPath descriptor options webpackPublicPath compilationHash ∧
     second.2.2 = resolveSpec descriptor options webpackPublicPath compilationHash ∧
     (List.length second.2.1 ≤ 2)%nat ∧
     Forall (λ c, tc_kind c = PublicPathStep → tc_path c = get descriptor "path")
            second.2.1).
Proof.
  cbn zeta.
  assert (Hframe : ∀ heap,
            (Stateful.getTagPath tagObject options webpackPublicPath compilationHash heap).1
            = heap).
  { intros heap. destruct (heap !! tagObject) as [descriptor|] eqn:Hlookup.
    - by rewrite (stateful_getTagPath_spec _ _ _ _ _ _ Hlookup).
    - by rewrite (stateful_getTagPath_dangling _ _ _ _ _ Hlookup). }
  rewrite !Hframe. split; [reflexivity | split; [reflexivity | split; [reflexivity |]]].
  intros descriptor Hdescriptor.
  rewrite (stateful_getTagPath_spec _ _ _ _ _ _ Hdescriptor). cbn [fst snd].
  split; [exact Hdescriptor | split; [reflexivity | split; [apply getTagPath_spec |]]].
  destruct (getTagPath_calls descriptor options webpackPublicPath compilationHash)
    as (publicCalls & hashCalls & Hcalls & Hpublic & Hhash).
  rewrite Hcalls. split.
  - rewrite length_app.
    destruct Hpublic as [-> | (f & _ & ->)];
      destruct Hhash as [-> | (g & after & _ & _ & ->)]; simpl; lia.
  - apply Forall_app. split.
    + destruct Hpublic as [-> | (f & _ & ->)]; repeat constructor.
    + destruct Hhash as [-> | (g & after & _ & _ & ->)]; repeat constructor.
      simpl. discriminate.
Qed.

(** *** Option aggregator: the shorthand families *)

(** [processShortcuts] either returns or raises a Configuration Error. *)
Lemma processShortcuts_outcome (options : gmap string jsval)
    (keyShortcut keyUse keyAdd : string) (add : fn) :
  (∃ processed, processShortcuts options keyShortcut keyUse keyAdd add = Ok processed) ∨
  is_config_error (processShortcuts options keyShortcut keyUse keyAdd add).
Proof.
  unfold processShortcuts, is_config_error.
  destruct (isDefined (get options keyUse) || isDefined (get options keyAdd)).
  - destruct (isDefined (get options keyShortcut)); simpl; [eauto |].
    destruct (isDefined (get options keyUse)).
    + destruct (get options keyUse); simpl; eauto.
      destruct (isDefined (get options keyAdd)); simpl; eauto.
      destruct (functionReturningString_total (get options keyAdd)) as [[f|] ->];
        simpl; eauto.
    + simpl. destruct (isDefined (get options keyAdd)); simpl; eauto.
      destruct (functionReturningString_total (get options keyAdd)) as [[f|] ->];
        simpl; eauto.
  - destruct (isDefined (get options keyShortcut)); [| eauto].
    destruct (get options keyShortcut) eqn:E; simpl; eauto.
    destruct (functionReturningString_total (VFun f)) as [[g|] Hg];
      simpl in Hg; rewrite Hg; simpl; eauto.
Qed.

(** A shorthand used with its fine-grained pair is rejected. *)
Lemma processShortcuts_conflict (options : gmap string jsval)
    (keyShortcut keyUse keyAdd : string) (add : fn) :
  isDefined (get options keyShortcut) = true →
  isDefined (get options keyUse) = true ∨ isDefined (get options keyAdd) = true →
  processShortcuts options keyShortcut keyUse keyAdd add
  = Err (ConfigError AShortcutWithUseOrAdd).
Proof.
  intros Hshortcut Hfine. unfold processShortcuts.
  replace (isDefined (get options keyUse) || isDefined (get options keyAdd)) with true
    by (destruct Hfine as [-> | ->]; [reflexivity | by rewrite orb_true_r]).
  by rewrite Hshortcut.
Qed.

(** C6: an options object that defines the shorthand [publicPath] together
    with [usePublicPath] or [addPublicPath] fails validation with a
    Configuration Error, and so does one that defines the shorthand [hash]
    together with [useHash] or [addHash]; this holds for
    [getValidatedMainOptions], [getValidatedOptions] and the constructor's
    [getAllValidatedOptions]. *)
Theorem C6_shorthand_exclusive (options : gmap string jsval)
    (defaultOptions : defaults) :
  (isDefined (get options "publicPath") = true ∧
   (isDefined (get options "usePublicPath") = true ∨
    isDefined (get options "addPublicPath") = true)) ∨
  (isDefined (get options "hash") = true ∧
   (isDefined (get options "useHash") = true ∨
    isDefined (get options "addHash") = true)) →
  is_config_error (getValidatedMainOptions (VObj options) defaultOptions) ∧
  is_config_error (getValidatedOptions (VObj options) defaultOptions) ∧
  is_config_error (getAllValidatedOptions (VObj options)).
Proof.
  intros Hconflict.
  assert (Hmain : ∀ d, is_config_error (getValidatedMainOptions (VObj options) d)).
  { intros d. unfold getValidatedMainOptions, is_config_error.
    destruct (isDefined (get options "append")); simpl.
    - destruct (get options "append"); simpl; eauto;
        destruct Hconflict as [[Hs Hf] | [Hs Hf]].
      + rewrite (processShortcuts_conflict _ _ _ _ _ Hs Hf). simpl. eauto.
      + destruct (processShortcuts_outcome options "publicPath" "usePublicPath"
                    "addPublicPath" (d_addPublicPath d)) as [[p ->] | [site ->]];
          simpl; eauto.
        rewrite (processShortcuts_conflict _ _ _ _ _ Hs Hf). simpl. eauto.
    - destruct Hconflict as [[Hs Hf] | [Hs Hf]].
      + rewrite (processShortcuts_conflict _ _ _ _ _ Hs Hf). simpl. eauto.
      + destruct (processShortcuts_outcome options "publicPath" "usePublicPath"
                    "addPublicPath" (d_addPublicPath d)) as [[p ->] | [site ->]];
          simpl; eauto.
        rewrite (processShortcuts_conflict _ _ _ _ _ Hs Hf). simpl. eauto. }
  assert (Hall : ∀ d, is_config_error (getValidatedOptions (VObj options) d)).
  { intros d. destruct (Hmain d) as [site Hsite].
    exists site. unfold getValidatedOptions. by rewrite Hsite. }
  split; [apply Hmain | split; [apply Hall |]].
  destruct (Hall DEFAULT_OPTIONS) as [site Hsite].
  exists site. unfold getAllValidatedOptions. by rewrite Hsite.
Qed.

(** *** Injection coordinator *)

Lemma getShouldSkip_no_match (files : list string) (data : htmlPluginData) :
  Forall (λ file, minimatch (outputName data) file = false) files →
  getShouldSkip (Some files) data = true.
Proof.
  intros Hnone. unfold getShouldSkip. apply negb_true_iff.
  induction Hnone as [|file files Hfile _ IH]; simpl; [reflexivity |].
  by rewrite Hfile, IH.
Qed.

(** C8: with a [files] allowlist none of whose patterns matches the
    document's output name, [onBeforeHtmlGeneration] hands the document back
    as it received it, with the same [assets.js] and [assets.css], without
    calling [addFileToAssets] and without resolving any path, and
    [onAlterAssetTag] hands the document back with every rendered tag
    unchanged. *)
Theorem C8_skipped_document_unchanged (options : validatedOptions)
    (files : list string) (compilationHash : jsval) (data : htmlPluginData) :
  o_files options = Some files →
  Forall (λ file, minimatch (outputName data) file = false) files →
  onBeforeHtmlGeneration options compilationHash data
  = {| g_data := data; g_registered := []; g_calls := []; g_completion := CallbackOk data |} ∧
  onAlterAssetTag options data = Ok data.
Proof.
  intros Hfiles Hnone.
  unfold onBeforeHtmlGeneration, onAlterAssetTag.
  rewrite Hfiles, (getShouldSkip_no_match _ _ Hnone). split; reflexivity.
Qed.

(** A property write changes at most the property it names, and only when
    the key is assignable. *)
Lemma setProperty_lookup (o : gmap string jsval) (k k' : string) (v : jsval) :
  setProperty o k v !! k'
  = if String.eqb k k' && assignable o k then Some v else o !! k'.
Proof.
  unfold setProperty.
  destruct (String.eqb_spec k k') as [<- | Hne]; destruct (assignable o k); simpl;
    try reflexivity.
  - by rewrite lookup_insert_eq.
  - by rewrite lookup_insert_ne.
Qed.

(** No property write makes [__proto__] an own property, or removes it. *)
Lemma setProperty_assignable (o : gmap string jsval) (k k' : string) (v : jsval) :
  assignable (setProperty o k v) k' = assignable o k'.
Proof.
  unfold assignable.
  destruct (String.eqb_spec k' "__proto__") as [-> | Hne]; simpl; [| reflexivity].
  rewrite setProperty_lookup.
  destruct (String.eqb_spec k "__proto__") as [-> | Hne]; simpl; [| reflexivity].
  unfold assignable. simpl. by destruct (o !! "__proto__").
Qed.

Lemma assignable_other (o : gmap string jsval) (k : string) :
  k ≠ "__proto__" → assignable o k = true.
Proof.
  intros Hne. unfold assignable.
  by destruct (String.eqb_spec k "__proto__") as [-> | _].
Qed.

(** One registration changes at most the entry of its own module. *)
Lemma registerExternal_lookup (externals : gmap string jsval)
    (script : gmap string jsval) (name : string) :
  registerExternal externals script !! name
  = match declares name script with
    | Some variable => if assignable externals name then Some variable else externals !! name
    | None => externals !! name
    end.
Proof.
  unfold registerExternal, declares.
  destruct (get script "external") as [| | | | | | | |external]; try reflexivity.
  rewrite setProperty_lookup.
  destruct (String.eqb_spec (str (get external "packageName")) name) as [-> | Hne];
    reflexivity.
Qed.

Lemma registerExternal_assignable (externals : gmap string jsval)
    (script : gmap string jsval) (name : string) :
  assignable (registerExternal externals script) name = assignable externals name.
Proof.
  unfold registerExternal.
  destruct (get script "external"); try reflexivity. apply setProperty_assignable.
Qed.

Lemma foldl_registerExternal_assignable (scripts : list (gmap string jsval))
    (externals : gmap string jsval) (name : string) :
  assignable (foldl registerExternal externals scripts) name = assignable externals name.
Proof.
  revert externals. induction scripts as [|script scripts IH]; intros externals;
    [reflexivity |].
  simpl. by rewrite IH, registerExternal_assignable.
Qed.

Lemma foldl_registerExternal_lookup (scripts : list (gmap string jsval))
    (externals : gmap string jsval) (name : string) :
  foldl registerExternal externals scripts !! name
  = match lastDeclared name scripts with
    | Some variable => if assignable externals name then Some variable else externals !! name
    | None => externals !! name
    end.
Proof.
  unfold lastDeclared.
  induction scripts as [|script scripts IH] using rev_ind; [reflexivity |].
  rewrite foldl_app. simpl. rewrite registerExternal_lookup.
  rewrite foldl_registerExternal_assignable, omap_app. simpl.
  destruct (declares name script) as [variable|]; simpl.
  - rewrite last_snoc. destruct (assignable externals name); [reflexivity |].
    rewrite IH. by destruct (last (omap (declares name) scripts)).
  - by rewrite app_nil_r.
Qed.




(** *** Option aggregator: externals *)







(** What a successful [getValidatedOptions] went through. *)
Lemma getValidatedOptions_Ok (options : jsval) (defaultOptions : defaults)
    (validated : validatedOptions) :
  getValidatedOptions options defaultOptions = Ok validated →
  ∃ optionsObject main tagLinks tagScripts linkObjects scriptObjects,
    options = VObj optionsObject ∧
    getValidatedMainOptions options defaultOptions = Ok main ∧
    tagsDescriptors optionsObject (m_append main) = Ok (tagLinks, tagScripts) ∧
    surfaceDescriptors optionsObject (m_append main) "links" false = Ok linkObjects ∧
    surfaceDescriptors optionsObject (m_append main) "scripts" true = Ok scriptObjects ∧
    o_append validated = m_append main ∧
    o_links validated = (d_links defaultOptions ++ tagLinks) ++ linkObjects ∧
    o_scripts validated = (d_scripts defaultOptions ++ tagScripts) ++ scriptObjects ∧
    o_linksPrepend validated
    = List.filter (λ tag, negb (appendOf tag)) (o_links validated) ∧
    o_linksAppend validated = List.filter appendOf (o_links validated) ∧
    o_scriptsPrepend validated
    = List.filter (λ tag, negb (appendOf tag)) (o_scripts validated) ∧
    o_scriptsAppend validated = List.filter appendOf (o_scripts validated).
Proof.
  destruct options as [| | | | | | | |optionsObject]; try discriminate.
  unfold getValidatedOptions. intros Hrun.
  apply bind_Ok in Hrun as (main & Hmain & Hrun).
  apply bind_Ok in Hrun as ([tagLinks tagScripts] & Htags & Hrun).
  apply bind_Ok in Hrun as (linkObjects & Hlinks & Hrun).
  apply bind_Ok in Hrun as (scriptObjects & Hscripts & Hrun).
  injection Hrun as <-.
  exists optionsObject, main, tagLinks, tagScripts, linkObjects, scriptObjects.
  repeat split; assumption.
Qed.









(** *** Option aggregator: the four buckets *)

Lemma mapM_Ok {A B : Type} (f : A → result B) (xs : list A) (ys : list B) :
  mapM f xs = Ok ys → Forall2 (λ x y, f x = Ok y) xs ys.
Proof.
  revert ys. induction xs as [|x xs IH]; simpl; intros ys Hrun.
  - injection Hrun as <-. constructor.
  - apply bind_Ok in Hrun as (y & Hy & Hrun).
    apply bind_Ok in Hrun as (rest & Hrest & Hrun).
    injection Hrun as <-. constructor; [exact Hy | by apply IH].
Qed.

(** A normalised descriptor has no [append] or a boolean one. *)
Lemma getTagObjects_append (tag : jsval) (tagObjects : list (gmap string jsval)) :
  getTagObjects tag = Ok tagObjects →
  Forall (λ tagObject, isDefined (get tagObject "append") = true →
                       isBoolean (get tagObject "append") = true) tagObjects.
Proof.
  destruct tag as [| | | | |s| | |tag]; try discriminate; simpl.
  - intros [= <-]. repeat constructor. discriminate.
  - intros Hrun.
    apply bind_Ok in Hrun as ([] & _ & Hrun).
    apply bind_Ok in Hrun as ([] & Happend & Hrun).
    apply bind_Ok in Hrun as ([] & _ & Hrun).
    apply bind_Ok in Hrun as ([] & _ & Hrun).
    apply bind_Ok in Hrun as ([] & _ & Hrun).
    apply bind_Ok in Hrun as ([] & _ & Hrun).
    assert (Htag : isDefined (get tag "append") = true →
                   isBoolean (get tag "append") = true).
    { intros Hdefined. rewrite Hdefined in Happend. by apply assert_Ok in Happend. }
    destruct (isDefined (get tag "glob") || isDefined (get tag "globPath")).
    + apply bind_Ok in Hrun as ([] & _ & Hrun).
      apply bind_Ok in Hrun as ([] & _ & Hrun).
      apply bind_Ok in Hrun as ([] & _ & Hrun).
      injection Hrun as <-. apply Forall_map, Forall_forall. intros resolved _.
      replace (get (<[ "path" := VStr resolved ]> (delete "globPath" (delete "glob" tag)))
                 "append") with (get tag "append"); [exact Htag |].
      unfold get. f_equal. symmetry.
      by apply glob_descriptor_fields.
    + injection Hrun as <-. by repeat constructor.
Qed.

Lemma withAppend_boolean (append : bool) (tagObject : gmap string jsval) :
  (isDefined (get tagObject "append") = true → isBoolean (get tagObject "append") = true) →
  isBoolean (get (withAppend append tagObject) "append") = true.
Proof.
  intros Hoptional. unfold withAppend.
  destruct (isDefined (get tagObject "append")) eqn:E; [by apply Hoptional |].
  unfold get. by rewrite lookup_insert_eq.
Qed.

(** Every descriptor of a surface has a boolean [append]. *)
Lemma getAllTagObjects_append (options : gmap string jsval) (append : bool)
    (optionName : string) (tagObjects : list (gmap string jsval)) :
  getAllTagObjects options append optionName = Ok (Some tagObjects) →
  Forall (λ tagObject, isBoolean (get tagObject "append") = true) tagObjects.
Proof.
  unfold getAllTagObjects, getValidatedTagObjects. intros Hrun.
  apply bind_Ok in Hrun as (normalised & Hnormalised & Hrun).
  destruct normalised as [normalised|]; [| discriminate].
  injection Hrun as <-.
  apply Forall_map. eapply Forall_impl; [| intros ?; apply withAppend_boolean].
  destruct (isDefined (get options optionName)); [| discriminate].
  apply bind_Ok in Hnormalised as ([] & _ & Hnormalised).
  destruct (get options optionName) as [| | | | | | |items|];
    try (apply bind_Ok in Hnormalised as (one & Hone & [= <-]);
         by apply getTagObjects_append in Hone).
  apply bind_Ok in Hnormalised as (lists & Hlists & [= <-]).
  apply mapM_Ok in Hlists. apply Forall_concat.
  induction Hlists as [|item list' items lists Hitem _ IH]; constructor; [| exact IH].
  by apply getTagObjects_append in Hitem.
Qed.

(** [splitLinkScriptTags] keeps the order of its input: the link objects
    are the descriptors classified CSS, the script objects the others. *)
Lemma splitLoop_order (isAssetTypeCss isAssetTypeJs : jsval → bool)
    (tagObjects linkObjects scriptObjects linkObjects' scriptObjects'
       : list (gmap string jsval)) :
  splitLoop isAssetTypeCss isAssetTypeJs tagObjects (linkObjects, scriptObjects)
  = Ok (linkObjects', scriptObjects') →
  linkObjects'
  = linkObjects ++ map stored (List.filter (classifiedCss isAssetTypeCss) tagObjects) ∧
  scriptObjects'
  = scriptObjects
    ++ map stored (List.filter (λ tagObject, negb (classifiedCss isAssetTypeCss tagObject))
                               tagObjects).
Proof.
  revert linkObjects scriptObjects.
  induction tagObjects as [|tagObject tagObjects IH]; intros linkObjects scriptObjects; simpl.
  - intros [= <- <-]. by rewrite !app_nil_r.
  - intros Hrun. apply bind_Ok in Hrun as ([links1 scripts1] & Hone & Hrest).
    apply IH in Hrest as [-> ->]. clear IH.
    assert (Hgoal : ∀ css : bool,
      classifiedCss isAssetTypeCss tagObject = css →
      links1 = (if css then linkObjects ++ [stored tagObject] else linkObjects) →
      scripts1 = (if css then scriptObjects else scriptObjects ++ [stored tagObject]) →
      links1 ++ map stored (List.filter (classifiedCss isAssetTypeCss) tagObjects)
      = linkObjects
        ++ map stored (List.filter (classifiedCss isAssetTypeCss) (tagObject :: tagObjects)) ∧
      scripts1
      ++ map stored (List.filter (λ t, negb (classifiedCss isAssetTypeCss t)) tagObjects)
      = scriptObjects
        ++ map stored (List.filter (λ t, negb (classifiedCss isAssetTypeCss t))
                                   (tagObject :: tagObjects))).
    { intros css Hcss -> ->. simpl. rewrite Hcss.
      destruct css; simpl; by rewrite <- ?app_assoc. }
    unfold splitOne in Hone.
    destruct (isDefined (get tagObject "type")) eqn:Etype.
    + apply bind_Ok in Hone as ([] & _ & Hone).
      destruct (isTypeCss (get tagObject "type")) eqn:Ecss; injection Hone as <- <-.
      * apply (Hgoal true); unfold classifiedCss, stored; by rewrite ?Etype.
      * apply (Hgoal false); unfold classifiedCss, stored; by rewrite ?Etype.
    + destruct (isAssetTypeCss (get tagObject "path")) eqn:Ecss.
      * injection Hone as <- <-.
        apply (Hgoal true); unfold classifiedCss, stored; by rewrite ?Etype.
      * destruct (isAssetTypeJs (get tagObject "path")); [| discriminate].
        injection Hone as <- <-.
        apply (Hgoal false); unfold classifiedCss, stored; by rewrite ?Etype.
Qed.

Lemma stored_append (tagObject : gmap string jsval) :
  get (stored tagObject) "append" = get tagObject "append".
Proof.
  unfold stored. destruct (isDefined (get tagObject "type")); [| reflexivity].
  unfold get. by rewrite lookup_delete_ne.
Qed.

(** The descriptors the [tags] surface contributes, in declared order. *)
Lemma tagsDescriptors_order (options : gmap string jsval) (append : bool)
    (tagLinks tagScripts : list (gmap string jsval)) :
  tagsDescriptors options append = Ok (tagLinks, tagScripts) →
  ∃ declared isAssetTypeCss,
    (isDefined (get options "tags") = true →
     getAllTagObjects options append "tags" = Ok (Some declared) ∧
     ∃ isAssetTypeJs, getAssetTypeCheckers options = Ok (isAssetTypeCss, isAssetTypeJs)) ∧
    (isDefined (get options "tags") = false → declared = []) ∧
    Forall (λ tagObject, isBoolean (get tagObject "append") = true) declared ∧
    tagLinks = map stored (List.filter (classifiedCss isAssetTypeCss) declared) ∧
    tagScripts
    = map stored (List.filter (λ tagObject, negb (classifiedCss isAssetTypeCss tagObject))
                              declared).
Proof.
  unfold tagsDescriptors. destruct (isDefined (get options "tags")).
  - intros Hrun.
    apply bind_Ok in Hrun as (all & Hall & Hrun).
    apply bind_Ok in Hrun as (declared & Hdeclared & Hrun).
    destruct all as [all|]; [| discriminate]. injection Hdeclared as ->.
    apply bind_Ok in Hrun as ([ls ss] & Hsplit & Hrun).
    apply bind_Ok in Hrun as ([] & _ & Hrun).
    apply bind_Ok in Hrun as ([] & _ & Hrun).
    injection Hrun as -> ->.
    unfold splitLinkScriptTags in Hsplit.
    apply bind_Ok in Hsplit as ([isAssetTypeCss isAssetTypeJs] & Hcheckers & Hsplit).
    apply splitLoop_order in Hsplit as [-> ->].
    exists declared, isAssetTypeCss.
    split; [| split; [| split; [| split]]]; try reflexivity; try discriminate.
    + intros _. split; [exact Hall | by exists isAssetTypeJs].
    + by apply getAllTagObjects_append in Hall.
  - intros [= <- <-]. exists [], (λ _, false).
    split; [| split; [| split; [| split]]]; try reflexivity; try discriminate.
    constructor.
Qed.

(** The descriptors the [links] or [scripts] surface contributes. *)
Lemma surfaceDescriptors_append (options : gmap string jsval) (append : bool)
    (optionName : string) (isScript : bool) (tagObjects : list (gmap string jsval)) :
  surfaceDescriptors options append optionName isScript = Ok tagObjects →
  Forall (λ tagObject, isBoolean (get tagObject "append") = true) tagObjects ∧
  (isDefined (get options optionName) = true →
   getAllTagObjects options append optionName = Ok (Some tagObjects)) ∧
  (isDefined (get options optionName) = false → tagObjects = []).
Proof.
  unfold surfaceDescriptors. destruct (isDefined (get options optionName)).
  - intros Hrun.
    apply bind_Ok in Hrun as (all & Hall & Hrun).
    apply bind_Ok in Hrun as (declared & Hdeclared & Hrun).
    destruct all as [all|]; [| discriminate]. injection Hdeclared as ->.
    apply bind_Ok in Hrun as ([] & _ & Hrun). injection Hrun as ->.
    repeat split; [| exact (λ _, Hall) | discriminate].
    by apply getAllTagObjects_append in Hall.
  - intros [= <-]. repeat split; [constructor | discriminate].
Qed.

(** Filtering keeps the relative order. *)
Lemma filter_sublist {A : Type} (p : A → bool) (xs : list A) :
  sublist (List.filter p xs) xs.
Proof.
  induction xs as [|x xs IH]; simpl; [constructor |].
  destruct (p x); by constructor.
Qed.

Lemma filter_partition_length {A : Type} (p : A → bool) (xs : list A) :
  (List.length (List.filter (λ x, negb (p x)) xs) + List.length (List.filter p xs)
   = List.length xs)%nat.
Proof.
  induction xs as [|x xs IH]; simpl; [reflexivity |].
  destruct (p x); simpl; lia.
Qed.

(** The two buckets of a list of descriptors with boolean [append]. *)
Lemma buckets_by_append (tagObjects : list (gmap string jsval)) :
  Forall (λ tagObject, isBoolean (get tagObject "append") = true) tagObjects →
  Forall (λ tagObject, get tagObject "append" = VBool false)
         (List.filter (λ tagObject, negb (appendOf tagObject)) tagObjects) ∧
  Forall (λ tagObject, get tagObject "append" = VBool true)
         (List.filter appendOf tagObjects).
Proof.
  induction 1 as [|tagObject tagObjects Hboolean _ [IHfalse IHtrue]]; simpl.
  - split; constructor.
  - assert (Hcase : (appendOf tagObject = true ∧ get tagObject "append" = VBool true) ∨
                    (appendOf tagObject = false ∧ get tagObject "append" = VBool false)).
    { unfold appendOf.
      destruct (get tagObject "append") as [| |[]| | | | | |]; try discriminate; auto. }
    destruct Hcase as [[-> E] | [-> E]]; simpl; split; try assumption; by constructor.
Qed.

Lemma bucketsOf_filter (tagObjects : list (gmap string jsval)) :
  Forall (λ tagObject, isBoolean (get tagObject "append") = true) tagObjects →
  bucketsOf tagObjects
    (List.filter (λ tagObject, negb (appendOf tagObject)) tagObjects)
    (List.filter appendOf tagObjects).
Proof.
  intros Hboolean. destruct (buckets_by_append _ Hboolean) as [Hfalse Htrue].
  repeat split; try assumption.
  - apply filter_partition_length.
  - apply filter_sublist.
  - apply filter_sublist.
Qed.

(** C3: a configuration that validates has, as its CSS descriptors, those
    the [tags] surface classifies CSS followed by those of [links], each in
    declared order, and as its JS descriptors the remaining ones of [tags]
    followed by those of [scripts].  Every descriptor has a boolean
    [append]; the prepend bucket holds exactly those with [append: false] and
    the append bucket exactly those with [append: true], each in the order of
    the concatenation, and the two bucket lengths add up to the number of
    descriptors. *)
Theorem C3_ordered_buckets (options : jsval) (validated : validatedOptions) :
  getValidatedOptions options DEFAULT_OPTIONS = Ok validated →
  ∃ optionsObject declaredTags declaredLinks declaredScripts isAssetTypeCss,
    options = VObj optionsObject ∧
    (isDefined (get optionsObject "tags") = true →
     getAllTagObjects optionsObject (o_append validated) "tags" = Ok (Some declaredTags) ∧
     ∃ isAssetTypeJs,
       getAssetTypeCheckers optionsObject = Ok (isAssetTypeCss, isAssetTypeJs)) ∧
    (isDefined (get optionsObject "tags") = false → declaredTags = []) ∧
    (isDefined (get optionsObject "links") = true →
     getAllTagObjects optionsObject (o_append validated) "links" = Ok (Some declaredLinks)) ∧
    (isDefined (get optionsObject "links") = false → declaredLinks = []) ∧
    (isDefined (get optionsObject "scripts") = true →
     getAllTagObjects optionsObject (o_append validated) "scripts"
     = Ok (Some declaredScripts)) ∧
    (isDefined (get optionsObject "scripts") = false → declaredScripts = []) ∧
    o_links validated
    = map stored (List.filter (classifiedCss isAssetTypeCss) declaredTags) ++ declaredLinks ∧
    o_scripts validated
    = map stored (List.filter (λ tagObject, negb (classifiedCss isAssetTypeCss tagObject))
                              declaredTags) ++ declaredScripts ∧
    bucketsOf (o_links validated) (o_linksPrepend validated) (o_linksAppend validated) ∧
    bucketsOf (o_scripts validated) (o_scriptsPrepend validated) (o_scriptsAppend validated).
Proof.
  intros Hrun.
  apply getValidatedOptions_Ok in Hrun
    as (o & main & tagLinks & tagScripts & linkObjects & scriptObjects & -> & _ &
        Htags & Hlinks & Hscripts & -> & Hl & Hs & -> & -> & -> & ->).
  simpl in Hl, Hs. rewrite Hl, Hs. clear Hl Hs.
  apply tagsDescriptors_order in Htags
    as (declared & isAssetTypeCss & Hdefined & Habsent & Hboolean & -> & ->).
  apply surfaceDescriptors_append in Hlinks as (HlinksBoolean & HlinksDefined & HlinksAbsent).
  apply surfaceDescriptors_append in Hscripts
    as (HscriptsBoolean & HscriptsDefined & HscriptsAbsent).
  exists o, declared, linkObjects, scriptObjects, isAssetTypeCss.
  repeat (split; [assumption || reflexivity |]).
  assert (Hstored : ∀ p : gmap string jsval → bool,
            Forall (λ tagObject, isBoolean (get tagObject "append") = true)
                   (map stored (List.filter p declared))).
  { intros p. apply Forall_map. apply Forall_forall. intros tagObject Hin.
    rewrite stored_append.
    apply list_elem_of_In, filter_In in Hin as [Hin _].
    rewrite Forall_forall in Hboolean. apply Hboolean. by apply list_elem_of_In. }
  split; apply bucketsOf_filter, Forall_app; split; auto.
Qed.

End Properties.

(** ** Further properties of the code *)

Section Extras.
Context `{Host}.

Lemma get_insert_eq (o : gmap string jsval) (k : string) (v : jsval) :
  get (<[ k := v ]> o) k = v.
Proof. unfold get. by rewrite lookup_insert_eq. Qed.

Lemma get_insert_ne (o : gmap string jsval) (k k' : string) (v : jsval) :
  k ≠ k' → get (<[ k := v ]> o) k' = get o k'.
Proof. intros Hne. unfold get. by rewrite lookup_insert_ne. Qed.

Lemma get_delete_eq (o : gmap string jsval) (k : string) :
  get (delete k o) k = VUndef.
Proof. unfold get. by rewrite lookup_delete_eq. Qed.

Lemma get_delete_ne (o : gmap string jsval) (k k' : string) :
  k ≠ k' → get (delete k o) k' = get o k'.
Proof. intros Hne. unfold get. by rewrite lookup_delete_ne. Qed.

Lemma get_singleton_ne (k k' : string) (v : jsval) :
  k ≠ k' → get ({[ k := v ]} : gmap string jsval) k' = VUndef.
Proof. intros Hne. unfold get. by rewrite lookup_singleton_ne. Qed.

Lemma get_empty (k : string) : get (∅ : gmap string jsval) k = VUndef.
Proof. unfold get. by rewrite lookup_empty. Qed.

(** The checks of the optional fields read five properties only. *)
Lemma optionalFieldsValid_ext (tag tag' : gmap string jsval) :
  get tag' "append" = get tag "append" →
  get tag' "publicPath" = get tag "publicPath" →
  get tag' "hash" = get tag "hash" →
  get tag' "sourcePath" = get tag "sourcePath" →
  get tag' "attributes" = get tag "attributes" →
  optionalFieldsValid tag → optionalFieldsValid tag'.
Proof.
  unfold optionalFieldsValid. intros -> -> -> -> ->. done.
Qed.

(** An object that is well formed normalises to itself. *)
Lemma getTagObjects_wellFormed (tagObject : gmap string jsval) :
  descriptorWellFormed tagObject → getTagObjects (VObj tagObject) = Ok [tagObject].
Proof.
  intros (Hpath & (Happend & Hpublic & Hhash & Hsource & Hattrs) & Hglob & Hcwd).
  unfold getTagObjects. rewrite Hpath. simpl.
  replace (if isDefined (get tagObject "append")
           then assert (isBoolean (get tagObject "append")) AAppendNotBoolean else Ok tt)
    with (Ok tt : result unit)
    by (destruct (isDefined (get tagObject "append")); [by rewrite Happend | done]).
  simpl. rewrite Hpublic, Hhash. simpl.
  replace (if isDefined (get tagObject "sourcePath")
           then assert (isString (get tagObject "sourcePath")) ASourcePathNotString
           else Ok tt)
    with (Ok tt : result unit)
    by (destruct (isDefined (get tagObject "sourcePath")); [by rewrite Hsource | done]).
  simpl. rewrite Hattrs. simpl. rewrite Hglob, Hcwd. reflexivity.
Qed.

(** What normalisation returns: at least one descriptor, all well formed. *)
Lemma getTagObjects_descriptors (tag : jsval) (tagObjects : list (gmap string jsval)) :
  getTagObjects tag = Ok tagObjects →
  tagObjects ≠ [] ∧ Forall descriptorWellFormed tagObjects.
Proof.
  destruct tag as [| | | | |s| | |tag]; try discriminate.
  - intros [= <-]. split; [discriminate |]. constructor; [| constructor].
    split; [reflexivity | split; [| split; reflexivity]].
    repeat split; try reflexivity; discriminate.
  - intros Hrun.
    destruct (getTagObjects_object_Ok _ _ Hrun) as [Hpath Hfields].
    destruct (isDefined (get tag "glob") || isDefined (get tag "globPath")) eqn:Eglob.
    + simpl in Hrun.
      apply bind_Ok in Hrun as ([] & _ & Hrun).
      apply bind_Ok in Hrun as ([] & _ & Hrun).
      apply bind_Ok in Hrun as ([] & _ & Hrun).
      apply bind_Ok in Hrun as ([] & _ & Hrun).
      apply bind_Ok in Hrun as ([] & _ & Hrun).
      apply bind_Ok in Hrun as ([] & _ & Hrun).
      rewrite Eglob in Hrun.
      apply bind_Ok in Hrun as ([] & _ & Hrun).
      apply bind_Ok in Hrun as ([] & _ & Hrun).
      apply bind_Ok in Hrun as ([] & Hfound & Hrun).
      apply assert_Ok in Hfound. injection Hrun as <-.
      split.
      * rewrite length_map in Hfound. intros Hnil.
        apply (f_equal List.length) in Hnil. rewrite !length_map in Hnil.
        simpl in Hnil. rewrite Hnil in Hfound. discriminate.
      * apply Forall_map, Forall_map, Forall_forall. intros globAsset _.
        split; [| split; [| split]].
        -- by rewrite get_insert_eq.
        -- apply (optionalFieldsValid_ext tag); [..| exact Hfields];
             rewrite get_insert_ne by done; rewrite !get_delete_ne by done; reflexivity.
        -- rewrite get_insert_ne by done. rewrite get_delete_ne by done.
           apply get_delete_eq.
        -- rewrite get_insert_ne by done. apply get_delete_eq.
    + apply orb_false_iff in Eglob as [Eg Ec].
      assert (Hwf : descriptorWellFormed tag).
      { split; [| split; [| split]]; try assumption.
        - by destruct (get tag "glob").
        - by destruct (get tag "globPath"). }
      rewrite (getTagObjects_wellFormed _ Hwf) in Hrun. injection Hrun as <-.
      split; [discriminate | constructor; [exact Hwf | constructor]].
Qed.


Lemma checkTagTransform_Ok (v : jsval) (site : assert_site) :
  checkTagTransform v site = Ok tt ↔ transformValueOk v.
Proof.
  unfold checkTagTransform, transformValueOk, isFunctionReturningString,
    functionReturningString.
  destruct v as [| |b| | | |f| |]; simpl;
    try (split; [discriminate |
                 intros [? | [[? ?] | (? & ? & ? & _)]]; discriminate]).
  - split; auto.
  - split; [intros _; right; left; by exists b | done].
  - destruct (call f (VStr "") (VStr "")) as [r|e] eqn:Ecall; simpl.
    + destruct r; simpl;
        try (split; [discriminate |
                     intros [? | [[? ?] | (? & ? & [= <-] & Hc)]]; try discriminate;
                     rewrite Ecall in Hc; discriminate]).
      split; [| done]. intros _. right. right. by exists f, s.
    + split; [discriminate |].
      intros [? | [[? ?] | (? & ? & [= <-] & Hc)]]; try discriminate.
      rewrite Ecall in Hc. discriminate.
Qed.

Lemma isValidAttributeValue_Ok (v : jsval) :
  isValidAttributeValue v = true ↔ attributeValueOk v.
Proof.
  unfold isValidAttributeValue, attributeValueOk.
  destruct v; simpl; split; try discriminate; eauto;
    intros [[? ?] | [[? ?] | [? ?]]]; discriminate.
Qed.

Lemma checkAttributes_Ok (v : jsval) :
  checkAttributes v = Ok tt ↔
  v = VUndef ∨ ∃ props, v = VObj props ∧ ∀ k a, props !! k = Some a → attributeValueOk a.
Proof.
  unfold checkAttributes.
  destruct v as [| | | | | | | |props]; simpl;
    try (split; [discriminate | intros [? | (? & ? & _)]; discriminate]).
  - split; auto.
  - rewrite forEach_Ok. split.
    + intros Hall. right. exists props. split; [reflexivity |].
      intros k a Hk. apply isValidAttributeValue_Ok.
      apply elem_of_map_to_list in Hk.
      rewrite Forall_forall in Hall. specialize (Hall _ Hk).
      by apply assert_Ok in Hall.
    + intros [? | (props' & [= <-] & Hall)]; [discriminate |].
      apply Forall_forall. intros [k a] Hk. apply elem_of_map_to_list in Hk.
      apply assert_Ok, isValidAttributeValue_Ok. by apply (Hall k).
Qed.

(** The checks of the optional fields, as types. *)
Lemma optionalFieldsValid_types (tagObject : gmap string jsval) :
  optionalFieldsValid tagObject ↔ fieldTypesOk tagObject.
Proof.
  unfold optionalFieldsValid, fieldTypesOk.
  rewrite !checkTagTransform_Ok, checkAttributes_Ok.
  assert (Hb : ∀ v, (isDefined v = true → isBoolean v = true)
                    ↔ (v = VUndef ∨ ∃ b, v = VBool b)).
  { intros v. destruct v; simpl; split; eauto; try (intros Hd; by specialize (Hd eq_refl));
      intros [? | [? ?]]; discriminate. }
  assert (Hs : ∀ v, (isDefined v = true → isString v = true)
                    ↔ (v = VUndef ∨ ∃ s, v = VStr s)).
  { intros v. destruct v; simpl; split; eauto; try (intros Hd; by specialize (Hd eq_refl));
      intros [? | [? ?]]; discriminate. }
  rewrite Hb, Hs. reflexivity.
Qed.

(** X1: the string form of a tag is the object form with only a [path]. *)
Theorem string_tag_is_path_object (s : string) :
  getTagObjects (VStr s) = getTagObjects (VObj {[ "path" := VStr s ]}) ∧
  getTagObjects (VStr s) = Ok [ {[ "path" := VStr s ]} ].
Proof.
  split; [| reflexivity].
  rewrite getTagObjects_wellFormed; [reflexivity |].
  split; [reflexivity | split; [| split; reflexivity]].
  repeat split; try reflexivity; discriminate.
Qed.

(** X2: normalisation never returns an empty list, and every descriptor it
    returns has a string [path], no [glob] and no [globPath], an [append]
    that is absent or boolean, a [publicPath] and a [hash] that are absent,
    boolean or a function returning a string when probed, a [sourcePath] that
    is absent or a string, and [attributes] that are absent or an object of
    strings, booleans and finite numbers. *)
Theorem normalised_descriptors_well_formed (tag : jsval)
    (tagObjects : list (gmap string jsval)) :
  getTagObjects tag = Ok tagObjects →
  (0 < List.length tagObjects)%nat ∧
  Forall (λ tagObject,
            (∃ path, get tagObject "path" = VStr path) ∧
            get tagObject "glob" = VUndef ∧
            get tagObject "globPath" = VUndef ∧
            fieldTypesOk tagObject) tagObjects.
Proof.
  intros Hrun. apply getTagObjects_descriptors in Hrun as [Hnonempty Hall]. split.
  - destruct tagObjects; [contradiction | simpl; lia].
  - eapply Forall_impl; [exact Hall |].
    intros tagObject (Hpath & Hfields & Hglob & Hcwd).
    split; [| split; [| split]]; try assumption.
    + destruct (get tagObject "path"); try discriminate. eauto.
    + by apply optionalFieldsValid_types.
Qed.

(** X3: an object-form tag without [glob] and [globPath] is accepted, as the
    one descriptor it is, exactly when it has a string [path] and optional
    fields of the right types; any other such tag yields no descriptors.  A
    tag whose [path] is not a string is refused with the Configuration Error
    of the path assertion, which comes before every other check; and a tag
    that is not accepted and whose [publicPath] and [hash] are not
    functions, so that normalisation calls nothing, is refused with a
    Configuration Error. *)
Theorem object_tag_acceptance (tag : gmap string jsval) :
  get tag "glob" = VUndef →
  get tag "globPath" = VUndef →
  (getTagObjects (VObj tag) = Ok [tag]
   ↔ (∃ path, get tag "path" = VStr path) ∧ fieldTypesOk tag) ∧
  (¬ ((∃ path, get tag "path" = VStr path) ∧ fieldTypesOk tag) →
   is_ok (getTagObjects (VObj tag)) = false) ∧
  (isString (get tag "path") = false →
   getTagObjects (VObj tag) = Err (ConfigError ANoStringPath)) ∧
  (¬ ((∃ path, get tag "path" = VStr path) ∧ fieldTypesOk tag) →
   isFunction (get tag "publicPath") = false →
   isFunction (get tag "hash") = false →
   is_config_error (getTagObjects (VObj tag))).
Proof.
  intros Hglob Hcwd.
  assert (Hiff : getTagObjects (VObj tag) = Ok [tag]
                 ↔ (∃ path, get tag "path" = VStr path) ∧ fieldTypesOk tag).
  { split.
    - intros Hrun. destruct (getTagObjects_object_Ok _ _ Hrun) as [Hpath Hfields]. split.
      + destruct (get tag "path"); try discriminate. eauto.
      + by apply optionalFieldsValid_types.
    - intros [[path Hpath] Hfields]. apply getTagObjects_wellFormed.
      split; [by rewrite Hpath | split; [by apply optionalFieldsValid_types | done]]. }
  assert (Hrefused : ¬ ((∃ path, get tag "path" = VStr path) ∧ fieldTypesOk tag) →
                     is_config_error (getTagObjects (VObj tag))).
  { intros Hnot.
    destruct (getTagObjects_object_outcome tag) as [[tagObjects Hrun] | Herr];
      [| exact Herr].
    destruct Hnot. destruct (getTagObjects_object_Ok _ _ Hrun) as [Hpath Hfields]. split.
    - destruct (get tag "path"); try discriminate. eauto.
    - by apply optionalFieldsValid_types. }
  split; [exact Hiff | split; [| split]].
  - intros Hnot. destruct (Hrefused Hnot) as [site ->]. reflexivity.
  - intros Hpath. cbn [getTagObjects isDefined isString isObject orb assert].
    simpl. by rewrite Hpath.
  - intros Hnot _ _. by apply Hrefused.
Qed.

(** X4: normalisation is idempotent: a descriptor it returned, given back as
    a tag, normalises to itself alone. *)
Theorem normalisation_idempotent (tag : jsval) (tagObjects : list (gmap string jsval)) :
  getTagObjects tag = Ok tagObjects →
  Forall (λ tagObject, getTagObjects (VObj tagObject) = Ok [tagObject]) tagObjects ∧
  mapM getTagObjects (map VObj tagObjects) = Ok (map (λ tagObject, [tagObject]) tagObjects).
Proof.
  intros Hrun. apply getTagObjects_descriptors in Hrun as [_ Hall].
  assert (Hself : Forall (λ tagObject, getTagObjects (VObj tagObject) = Ok [tagObject])
                         tagObjects).
  { eapply Forall_impl; [exact Hall |]. intros tagObject. apply getTagObjects_wellFormed. }
  split; [exact Hself |].
  induction Hself as [|tagObject tagObjects Hone _ IH]; [reflexivity |].
  inversion Hall; subst. cbn [map mapM]. rewrite Hone. simpl.
  rewrite IH by assumption. reflexivity.
Qed.

(** *** Option surfaces *)



(** X6: the [append] of a descriptor.  [getAllTagObjects] changes nothing but
    [append]: a descriptor declared with a boolean [append] is kept as it is,
    one declared without gets the default of the surface. *)
Theorem append_default_inherited (options : gmap string jsval) (append : bool)
    (optionName : string) (tagObjects : list (gmap string jsval)) :
  getAllTagObjects options append optionName = Ok (Some tagObjects) →
  ∃ declared,
    getValidatedTagObjects options optionName = Ok (Some declared) ∧
    List.length tagObjects = List.length declared ∧
    ∀ i tag, declared !! i = Some tag →
      ∃ tagObject,
        tagObjects !! i = Some tagObject ∧
        (∀ b, get tag "append" = VBool b → tagObject = tag) ∧
        (get tag "append" = VUndef → get tagObject "append" = VBool append) ∧
        (∀ k, k ≠ "append" → tagObject !! k = tag !! k).
Proof.
  unfold getAllTagObjects. intros Hrun.
  apply bind_Ok in Hrun as ([declared|] & Hdeclared & Hrun); [| discriminate].
  injection Hrun as <-. exists declared. split; [exact Hdeclared |].
  split; [apply length_map |].
  intros i tag Hi. exists (withAppend append tag). split.
  - by rewrite list_lookup_fmap, Hi.
  - unfold withAppend. repeat split.
    + intros b Hb. by rewrite Hb.
    + intros Hu. rewrite Hu. simpl. apply get_insert_eq.
    + intros k Hk. destruct (isDefined (get tag "append")); [reflexivity |].
      by rewrite lookup_insert_ne.
Qed.

(** *** Splitting the [tags] surface *)

Lemma filter_partition_Permutation {A : Type} (p : A → bool) (xs : list A) :
  List.filter p xs ++ List.filter (λ x, negb (p x)) xs ≡ₚ xs.
Proof.
  induction xs as [|x xs IH]; simpl; [reflexivity |].
  destruct (p x); simpl.
  - by constructor.
  - rewrite <- Permutation_middle. by constructor.
Qed.

Lemma stored_type (tagObject : gmap string jsval) :
  get (stored tagObject) "type" = VUndef.
Proof.
  unfold stored. destruct (isDefined (get tagObject "type")) eqn:E.
  - apply get_delete_eq.
  - by destruct (get tagObject "type").
Qed.

Lemma stored_other (tagObject : gmap string jsval) (k : string) :
  k ≠ "type" → stored tagObject !! k = tagObject !! k.
Proof.
  intros Hk. unfold stored. destruct (isDefined (get tagObject "type")); [| reflexivity].
  by rewrite lookup_delete_ne.
Qed.

Lemma splitLinkScriptTags_order (tagObjects linkObjects scriptObjects
                                 : list (gmap string jsval))
    (options : gmap string jsval) :
  splitLinkScriptTags tagObjects options = Ok (linkObjects, scriptObjects) →
  ∃ isAssetTypeCss isAssetTypeJs,
    getAssetTypeCheckers options = Ok (isAssetTypeCss, isAssetTypeJs) ∧
    linkObjects = map stored (List.filter (classifiedCss isAssetTypeCss) tagObjects) ∧
    scriptObjects
    = map stored (List.filter (λ t, negb (classifiedCss isAssetTypeCss t)) tagObjects).
Proof.
  unfold splitLinkScriptTags. intros Hrun.
  apply bind_Ok in Hrun as ([isAssetTypeCss isAssetTypeJs] & Hcheckers & Hsplit).
  apply splitLoop_order in Hsplit as [-> ->]. by exists isAssetTypeCss, isAssetTypeJs.
Qed.

(** X7: [splitLinkScriptTags] sorts every tag into exactly one of its two
    lists: together the lists are a rearrangement of the tags without their
    [type], each list keeps the order of the tags, and no descriptor that
    comes out has a [type] left. *)
Theorem split_is_a_partition (tagObjects linkObjects scriptObjects
                              : list (gmap string jsval))
    (options : gmap string jsval) :
  splitLinkScriptTags tagObjects options = Ok (linkObjects, scriptObjects) →
  linkObjects ++ scriptObjects ≡ₚ map stored tagObjects ∧
  (List.length linkObjects + List.length scriptObjects = List.length tagObjects)%nat ∧
  sublist linkObjects (map stored tagObjects) ∧
  sublist scriptObjects (map stored tagObjects) ∧
  Forall (λ tagObject, get tagObject "type" = VUndef) (linkObjects ++ scriptObjects) ∧
  (∀ tagObject k, k ≠ "type" → stored tagObject !! k = tagObject !! k).
Proof.
  intros Hrun.
  apply splitLinkScriptTags_order in Hrun as (css & js & _ & -> & ->).
  assert (Hperm : map stored (List.filter (classifiedCss css) tagObjects)
                  ++ map stored (List.filter (λ t, negb (classifiedCss css t)) tagObjects)
                  ≡ₚ map stored tagObjects).
  { rewrite <- map_app. apply Permutation_map, filter_partition_Permutation. }
  split; [exact Hperm | split; [| split; [| split; [| split]]]].
  - apply Permutation_length in Hperm. by rewrite length_app, !length_map in *.
  - apply (fmap_sublist stored), filter_sublist.
  - apply (fmap_sublist stored), filter_sublist.
  - rewrite <- map_app. apply Forall_map, Forall_forall. intros t _. apply stored_type.
  - apply stored_other.
Qed.




(** *** Configured extension lists *)

Section Patterns.

Local Arguments String.append !_ _ / : simpl nomatch.

Lemma isMetaChar_bar (c : ascii) : isMetaChar c = false → Ascii.eqb c "|" = false.
Proof.
  unfold isMetaChar. cbn [existsb]. intros Hc.
  repeat (apply orb_false_iff in Hc as [? Hc]).
  match goal with Hbar : Ascii.eqb c "|" = false |- _ => exact Hbar end.
Qed.

Lemma parseAlternative_plain (extension : string) :
  plainExtension extension = true → ∃ r, parseAlternative extension = Some r.
Proof.
  induction extension as [|c rest IH]; cbn [plainExtension parseAlternative]; [eauto |].
  intros [Hc Hrest]%andb_true_iff. apply negb_true_iff in Hc.
  destruct (IH Hrest) as [r ->]. rewrite Hc.
  destruct (Ascii.eqb c "."); simpl; eauto.
Qed.

Lemma splitBars_plain (extension : string) :
  plainExtension extension = true → splitBars extension = [extension].
Proof.
  induction extension as [|c rest IH]; cbn [plainExtension splitBars]; [reflexivity |].
  intros [Hc Hrest]%andb_true_iff. apply negb_true_iff, isMetaChar_bar in Hc.
  by rewrite Hc, (IH Hrest).
Qed.

Lemma splitBars_bar (extension rest : string) :
  plainExtension extension = true →
  splitBars (extension ++ String "|" rest) = extension :: splitBars rest.
Proof.
  induction extension as [|c extension IH]; cbn [plainExtension]; intros Hplain.
  - reflexivity.
  - apply andb_true_iff in Hplain as [Hc Hplain].
    apply negb_true_iff, isMetaChar_bar in Hc.
    simpl. by rewrite Hc, (IH Hplain).
Qed.

Lemma splitBars_concat (extensions : list string) :
  extensions ≠ [] →
  Forall (λ extension, plainExtension extension = true) extensions →
  splitBars (String.concat "|" extensions) = extensions.
Proof.
  intros Hnonempty Hall. induction Hall as [|extension extensions Hplain Hall IH];
    [contradiction |].
  destruct extensions as [|next extensions].
  - simpl. by apply splitBars_plain.
  - change (String.concat "|" (extension :: next :: extensions))
      with (extension ++ String "|" (String.concat "|" (next :: extensions)))%string.
    rewrite (splitBars_bar _ _ Hplain), IH by done. reflexivity.
Qed.

Lemma parseAlternatives_plain (extensions : list string) :
  Forall (λ extension, plainExtension extension = true) extensions →
  ∃ r, parseAlternatives extensions = Some r.
Proof.
  induction 1 as [|extension extensions Hplain _ [r Hr]]; [simpl; eauto |].
  destruct (parseAlternative_plain _ Hplain) as [r1 Hr1].
  destruct extensions as [|next extensions]; [simpl; eauto |].
  change (parseAlternatives (extension :: next :: extensions))
    with (r1 ← parseAlternative extension;
          r2 ← parseAlternatives (next :: extensions); Some (RAlt r1 r2)).
  rewrite Hr1, Hr. simpl. eauto.
Qed.

Lemma length_append (a b : string) :
  String.length (a ++ b) = (String.length a + String.length b)%nat.
Proof. induction a as [|c a IH]; simpl; [reflexivity | by rewrite IH]. Qed.

Lemma substring_append_l (a b : string) : substring 0 (String.length a) (a ++ b) = a.
Proof.
  induction a as [|c a IH]; simpl.
  - by destruct b.
  - by rewrite IH.
Qed.

Lemma substring_append_r (a b : string) :
  substring (String.length a) (String.length b) (a ++ b) = b.
Proof.
  induction a as [|c a IH]; simpl; [| exact IH].
  induction b as [|c b IH]; simpl; [reflexivity | by rewrite IH].
Qed.

Lemma stripSuffix_append (inner suffix : string) :
  stripSuffix suffix (inner ++ suffix) = Some inner.
Proof.
  unfold stripSuffix. rewrite length_append.
  replace (String.length inner + String.length suffix - String.length suffix)%nat
    with (String.length inner) by lia.
  rewrite substring_append_r, substring_append_l, String.eqb_refl.
  replace (String.length suffix <=? String.length inner + String.length suffix)%nat
    with true by (symmetry; apply Nat.leb_le; lia).
  reflexivity.
Qed.

(** The pattern built from a list of plain extensions lies in the modelled
    fragment. *)
Lemma parseRegex_plain (extensions : list string) :
  Forall (λ extension, plainExtension extension = true) extensions →
  ∃ r,
    parseAlternatives (if extensions is [] then [""] else extensions) = Some r ∧
    parseRegex (regexSource extensions) = Some (RCat (RStar RDot) (RCat r REnd)).
Proof.
  intros Hall. unfold parseRegex, regexSource.
  change (stripPrefix ".*(" (".*(" ++ String.concat "|" extensions ++ ")$"))
    with (Some (String.concat "|" extensions ++ ")$")%string).
  cbn [mbind option_bind]. rewrite stripSuffix_append. cbn [mbind option_bind].
  destruct extensions as [|extension extensions].
  - exists REps. split; reflexivity.
  - rewrite splitBars_concat by done.
    destruct (parseAlternatives_plain _ Hall) as [r Hr]. exists r.
    split; [exact Hr |]. rewrite Hr. reflexivity.
Qed.

End Patterns.

(** X9: extension lists made of ordinary characters and dots.  The matcher
    built from such a list accepts exactly the strings one of whose suffixes
    matches an extension character by character, a dot standing for any
    character but a line terminator and every other character for itself
    (so the match is case sensitive); the matcher built from the empty list
    accepts every string. *)
Theorem plain_extensions_match_suffixes (extensions : list string) :
  Forall (λ extension, plainExtension extension = true) extensions →
  ∃ test,
    createExtensionsRegex extensions = Ok test ∧
    (extensions = [] → ∀ s, test s = true) ∧
    (extensions ≠ [] → ∀ s, test s = true ↔ endsWithOneOf extensions s).
Proof.
  intros Hall. destruct (parseRegex_plain _ Hall) as (r & Hr & Hparse).
  unfold createExtensionsRegex, newRegExp. rewrite Hparse.
  eexists. split; [reflexivity |]. split.
  - intros -> s. apply (regexTest_alternatives [""] r s Hr).
    exists s, "". split.
    + symmetry. apply append_empty_r.
    + reflexivity.
  - intros Hnonempty s. destruct extensions; [contradiction |].
    by apply regexTest_alternatives.
Qed.

(** *** What validation can raise *)





















(** *** What validation reads *)

Ltac agree H k := rewrite (H k) by (unfold mainOptionKeys; set_solver).

Lemma getValidatedMainOptions_agree (o o' : gmap string jsval) (defaultOptions : defaults) :
  agreeOn mainOptionKeys o o' →
  getValidatedMainOptions (VObj o) defaultOptions
  = getValidatedMainOptions (VObj o') defaultOptions.
Proof.
  intros Hmain. unfold getValidatedMainOptions, processShortcuts.
  agree Hmain "append". agree Hmain "publicPath". agree Hmain "usePublicPath".
  agree Hmain "addPublicPath". agree Hmain "hash". agree Hmain "useHash".
  agree Hmain "addHash". reflexivity.
Qed.

(** X11: validation reads twelve properties of the options object and
    nothing else: two objects that read the same under [append], the two
    shorthand families, [tags], [links], [scripts], [jsExtensions] and
    [cssExtensions] validate to the same outcome, whatever else they hold
    (a property set to [undefined] reads like an absent one).  When [tags] is
    absent the two extension lists are not read either. *)
Theorem validation_reads_known_keys (o o' : gmap string jsval) (defaultOptions : defaults) :
  agreeOn (mainOptionKeys ++ ["links"; "scripts"]) o o' →
  (agreeOn ["tags"; "jsExtensions"; "cssExtensions"] o o' →
   getValidatedOptions (VObj o) defaultOptions
   = getValidatedOptions (VObj o') defaultOptions) ∧
  (get o "tags" = VUndef → get o' "tags" = VUndef →
   getValidatedOptions (VObj o) defaultOptions
   = getValidatedOptions (VObj o') defaultOptions).
Proof.
  intros Hmain.
  assert (Hsame : getValidatedMainOptions (VObj o) defaultOptions
                  = getValidatedMainOptions (VObj o') defaultOptions).
  { unfold getValidatedMainOptions, processShortcuts.
    agree Hmain "append". agree Hmain "publicPath". agree Hmain "usePublicPath".
    agree Hmain "addPublicPath". agree Hmain "hash". agree Hmain "useHash".
    agree Hmain "addHash". reflexivity. }
  assert (Hsurface : ∀ a name isScript, name = "links" ∨ name = "scripts" →
            surfaceDescriptors o a name isScript = surfaceDescriptors o' a name isScript).
  { intros a name isScript Hname.
    unfold surfaceDescriptors, getAllTagObjects, getValidatedTagObjects.
    destruct Hname as [-> | ->]; [agree Hmain "links" | agree Hmain "scripts"];
      reflexivity. }
  assert (Hrest : ∀ tagged,
            (∀ a, tagsDescriptors o a = tagged a) → (∀ a, tagsDescriptors o' a = tagged a) →
            getValidatedOptions (VObj o) defaultOptions
            = getValidatedOptions (VObj o') defaultOptions).
  { intros tagged Ho Ho'. unfold getValidatedOptions. rewrite Hsame.
    destruct (getValidatedMainOptions (VObj o') defaultOptions) as [main|e]; simpl;
      [| reflexivity].
    rewrite Ho, Ho'. destruct (tagged (m_append main)) as [[tagLinks tagScripts]|e]; simpl;
      [| reflexivity].
    rewrite !Hsurface by auto. reflexivity. }
  split.
  - intros Htags. apply (Hrest (tagsDescriptors o')); [| done].
    intros a.
    unfold tagsDescriptors, getAllTagObjects, getValidatedTagObjects,
      splitLinkScriptTags, getAssetTypeCheckers, getHasExtensions, getExtensions.
    rewrite (Htags "tags") by set_solver.
    rewrite (Htags "jsExtensions") by set_solver.
    rewrite (Htags "cssExtensions") by set_solver.
    reflexivity.
  - intros Ho Ho'. apply (Hrest (λ _, Ok ([], []))); intros a; unfold tagsDescriptors.
    + by rewrite Ho.
    + by rewrite Ho'.
Qed.

(** *** The resolved policies *)

(** The policies of a validated configuration come from the two shorthand
    families. *)
Lemma getValidatedOptions_policies (o : gmap string jsval) (defaultOptions : defaults)
    (validated : validatedOptions) :
  getValidatedOptions (VObj o) defaultOptions = Ok validated →
  ∃ publicPathOptions hashOptions,
    processShortcuts o "publicPath" "usePublicPath" "addPublicPath"
      (d_addPublicPath defaultOptions) = Ok publicPathOptions ∧
    processShortcuts o "hash" "useHash" "addHash" (d_addHash defaultOptions)
    = Ok hashOptions ∧
    o_usePublicPath validated
    = default (d_usePublicPath defaultOptions) publicPathOptions.1 ∧
    o_addPublicPath validated
    = default (d_addPublicPath defaultOptions) publicPathOptions.2 ∧
    o_useHash validated = default (d_useHash defaultOptions) hashOptions.1 ∧
    o_addHash validated = default (d_addHash defaultOptions) hashOptions.2 ∧
    (get o "append" = VUndef → o_append validated = d_append defaultOptions) ∧
    (∀ b, get o "append" = VBool b → o_append validated = b).
Proof.
  unfold getValidatedOptions. intros Hrun.
  apply bind_Ok in Hrun as (main & Hmain & Hrun).
  apply bind_Ok in Hrun as ([tagLinks tagScripts] & _ & Hrun).
  apply bind_Ok in Hrun as (linkObjects & _ & Hrun).
  apply bind_Ok in Hrun as (scriptObjects & _ & Hrun).
  injection Hrun as <-. simpl.
  unfold getValidatedMainOptions in Hmain.
  apply bind_Ok in Hmain as (append & Happend & Hmain).
  apply bind_Ok in Hmain as (publicPathOptions & Hpublic & Hmain).
  apply bind_Ok in Hmain as (hashOptions & Hhash & Hmain).
  injection Hmain as <-. simpl.
  exists publicPathOptions, hashOptions. repeat split; try assumption.
  - intros Hu. rewrite Hu in Happend. by injection Happend as <-.
  - intros b Hb. rewrite Hb in Happend. by injection Happend as <-.
Qed.

Lemma getAllValidatedOptions_Ok (options : jsval) (validated : validatedOptions) :
  getAllValidatedOptions options = Ok validated →
  ∃ inner,
    getValidatedOptions options DEFAULT_OPTIONS = Ok inner ∧
    o_links validated = o_links inner ∧
    o_linksPrepend validated = o_linksPrepend inner ∧
    o_linksAppend validated = o_linksAppend inner ∧
    o_scripts validated = o_scripts inner ∧
    o_scriptsPrepend validated = o_scriptsPrepend inner ∧
    o_scriptsAppend validated = o_scriptsAppend inner ∧
    o_append validated = o_append inner ∧
    o_usePublicPath validated = o_usePublicPath inner ∧
    o_addPublicPath validated = o_addPublicPath inner ∧
    o_useHash validated = o_useHash inner ∧
    o_addHash validated = o_addHash inner.
Proof.
  unfold getAllValidatedOptions. intros Hrun.
  apply bind_Ok in Hrun as (inner & Hinner & Hrun). exists inner.
  split; [exact Hinner |].
  destruct (isDefined (prop options "files")).
  - apply bind_Ok in Hrun as ([] & _ & Hrun). injection Hrun as <-.
    repeat split.
  - injection Hrun as <-. repeat split.
Qed.

(** What the shorthand of a family resolves to when the fine-grained pair
    is absent. *)
Lemma processShortcuts_shortcut (o : gmap string jsval)
    (keyShortcut keyUse keyAdd : string) (add : fn) :
  get o keyUse = VUndef → get o keyAdd = VUndef →
  (get o keyShortcut = VUndef →
   processShortcuts o keyShortcut keyUse keyAdd add = Ok (None, None)) ∧
  (∀ b, get o keyShortcut = VBool b →
        processShortcuts o keyShortcut keyUse keyAdd add = Ok (Some b, None)) ∧
  (∀ s, get o keyShortcut = VStr s →
        processShortcuts o keyShortcut keyUse keyAdd add
        = Ok (Some true, Some (FShortcut add s))) ∧
  (∀ f probed, get o keyShortcut = VFun f →
        call f (VStr "") (VStr "") = Ok (VStr probed) →
        processShortcuts o keyShortcut keyUse keyAdd add = Ok (Some true, Some f)).
Proof.
  intros Huse Hadd. unfold processShortcuts. rewrite Huse, Hadd. simpl.
  repeat split.
  - by intros ->.
  - by intros b ->.
  - by intros s ->.
  - intros f probed -> Hprobe. simpl. by rewrite Hprobe.
Qed.

(** What the fine-grained pair of a family resolves to. *)
Lemma processShortcuts_pair (o : gmap string jsval)
    (keyShortcut keyUse keyAdd : string) (add : fn) (b : bool) :
  get o keyShortcut = VUndef → get o keyUse = VBool b → get o keyAdd = VUndef →
  processShortcuts o keyShortcut keyUse keyAdd add = Ok (Some b, None).
Proof.
  intros Hshortcut Huse Hadd. unfold processShortcuts.
  by rewrite Huse, Hadd, Hshortcut.
Qed.

(** The resolved policies of a constructor call whose options set none of
    the six properties of the two families, or some of them. *)
Lemma resolved_policies (o : gmap string jsval) (validated : validatedOptions) :
  getAllValidatedOptions (VObj o) = Ok validated →
  ∃ publicPathOptions hashOptions,
    processShortcuts o "publicPath" "usePublicPath" "addPublicPath" FDefaultAddPublicPath
    = Ok publicPathOptions ∧
    processShortcuts o "hash" "useHash" "addHash" FDefaultAddHash = Ok hashOptions ∧
    o_usePublicPath validated = default true publicPathOptions.1 ∧
    o_addPublicPath validated = default FDefaultAddPublicPath publicPathOptions.2 ∧
    o_useHash validated = default false hashOptions.1 ∧
    o_addHash validated = default FDefaultAddHash hashOptions.2.
Proof.
  intros Hrun.
  apply getAllValidatedOptions_Ok in Hrun
    as (inner & Hinner & _ & _ & _ & _ & _ & _ & _ & -> & -> & -> & ->).
  apply getValidatedOptions_policies in Hinner
    as (pub & hsh & Hpub & Hhsh & -> & -> & -> & -> & _).
  by exists pub, hsh.
Qed.

(** [getTagPath] on a descriptor without overrides. *)
Lemma getTagPath_plain (tagObject : gmap string jsval) (options : validatedOptions)
    (webpackPublicPath compilationHash : jsval) :
  get tagObject "publicPath" = VUndef →
  get tagObject "hash" = VUndef →
  (getTagPath tagObject options webpackPublicPath compilationHash).2
  = (afterPublicPath ←
       (if o_usePublicPath options
        then call (o_addPublicPath options) (get tagObject "path") webpackPublicPath
        else Ok (get tagObject "path"));
     afterHash ←
       (if o_useHash options
        then call (o_addHash options) afterPublicPath compilationHash
        else Ok afterPublicPath);
     slashValue afterHash).
Proof.
  intros Hpublic Hhash. rewrite getTagPath_spec.
  unfold resolveSpec, publicPathStepOf, hashStepOf, effectiveTransform, applyStep.
  rewrite Hpublic, Hhash.
  destruct (o_usePublicPath options), (o_useHash options); reflexivity.
Qed.

(** X12: the default policy.  When the options set none of [publicPath],
    [usePublicPath], [addPublicPath], [hash], [useHash] and [addHash], a
    descriptor without overrides resolves to the slash-normalised
    [path.join] of the runtime public path and its path, the hash is not
    used, and a runtime public path that is not a string makes the
    resolution throw a TypeError. *)
Theorem default_policy_resolution (o : gmap string jsval) (validated : validatedOptions)
    (tagObject : gmap string jsval) (path : string) :
  getAllValidatedOptions (VObj o) = Ok validated →
  Forall (λ k, get o k = VUndef)
    ["publicPath"; "usePublicPath"; "addPublicPath"; "hash"; "useHash"; "addHash"] →
  get tagObject "path" = VStr path →
  get tagObject "publicPath" = VUndef →
  get tagObject "hash" = VUndef →
  (∀ base compilationHash,
     getTagPath tagObject validated (VStr base) compilationHash
     = ([ {| tc_kind := PublicPathStep; tc_fn := FDefaultAddPublicPath;
             tc_path := VStr path; tc_value := VStr base |} ],
        Ok (slash (path_join base path)))) ∧
  (∀ webpackPublicPath compilationHash,
     isString webpackPublicPath = false →
     (getTagPath tagObject validated webpackPublicPath compilationHash).2 = Err TypeError).
Proof.
  intros Hrun Hkeys Hpath Hpublic Hhash.
  apply resolved_policies in Hrun
    as (pub & hsh & Hpub & Hhsh & HusePublic & HaddPublic & HuseHash & HaddHash).
  repeat (apply Forall_cons in Hkeys as [? Hkeys]).
  destruct (processShortcuts_shortcut o "publicPath" "usePublicPath" "addPublicPath"
              FDefaultAddPublicPath) as (Hnone & _); [done | done |].
  rewrite Hnone in Hpub by done. injection Hpub as <-.
  destruct (processShortcuts_shortcut o "hash" "useHash" "addHash" FDefaultAddHash)
    as (Hnone' & _); [done | done |].
  rewrite Hnone' in Hhsh by done. injection Hhsh as <-.
  simpl in *. split.
  - intros base compilationHash. unfold getTagPath, transform.
    rewrite Hpublic, Hhash, Hpath, HusePublic, HaddPublic, HuseHash. reflexivity.
  - intros webpackPublicPath compilationHash Hnot.
    rewrite getTagPath_plain by done.
    rewrite HusePublic, HaddPublic, Hpath. simpl.
    destruct webpackPublicPath; try discriminate; reflexivity.
Qed.

(** X13: string shorthands fix the value.  With [publicPath] a string (and no
    [usePublicPath] or [addPublicPath]) a descriptor without overrides
    resolves against that string whatever the runtime public path is, even
    when it is not a string; with [hash] a string (and no [useHash] or
    [addHash]) the suffix is that string whatever the compilation hash is. *)
Theorem string_shorthands_fix_the_value (o : gmap string jsval)
    (validated : validatedOptions) (tagObject : gmap string jsval) (path : string) :
  getAllValidatedOptions (VObj o) = Ok validated →
  get tagObject "path" = VStr path →
  get tagObject "publicPath" = VUndef →
  get tagObject "hash" = VUndef →
  (∀ prefix,
     get o "publicPath" = VStr prefix →
     get o "usePublicPath" = VUndef → get o "addPublicPath" = VUndef →
     get o "hash" = VUndef → get o "useHash" = VUndef → get o "addHash" = VUndef →
     ∀ webpackPublicPath compilationHash,
       (getTagPath tagObject validated webpackPublicPath compilationHash).2
       = Ok (slash (path_join prefix path))) ∧
  (∀ version,
     get o "hash" = VStr version →
     get o "useHash" = VUndef → get o "addHash" = VUndef →
     get o "publicPath" = VBool false →
     get o "usePublicPath" = VUndef → get o "addPublicPath" = VUndef →
     ∀ webpackPublicPath compilationHash,
       (getTagPath tagObject validated webpackPublicPath compilationHash).2
       = Ok (slash (path ++ "?" ++ version))) ∧
  (∀ prefix version,
     get o "publicPath" = VStr prefix →
     get o "usePublicPath" = VUndef → get o "addPublicPath" = VUndef →
     get o "hash" = VStr version →
     get o "useHash" = VUndef → get o "addHash" = VUndef →
     ∀ webpackPublicPath compilationHash,
       (getTagPath tagObject validated webpackPublicPath compilationHash).2
       = Ok (slash (path_join prefix path ++ "?" ++ version))).
Proof.
  intros Hrun Hpath Hpublic Hhash.
  apply resolved_policies in Hrun
    as (pub & hsh & Hpub & Hhsh & HusePublic & HaddPublic & HuseHash & HaddHash).
  split; [| split].
  - intros prefix Hp Hup Hap Hh Huh Hah webpackPublicPath compilationHash.
    destruct (processShortcuts_shortcut o "publicPath" "usePublicPath" "addPublicPath"
                FDefaultAddPublicPath Hup Hap) as (_ & _ & Hstring & _).
    rewrite (Hstring prefix Hp) in Hpub. injection Hpub as <-.
    destruct (processShortcuts_shortcut o "hash" "useHash" "addHash" FDefaultAddHash
                Huh Hah) as (Hnone & _).
    rewrite (Hnone Hh) in Hhsh. injection Hhsh as <-. simpl in *.
    rewrite getTagPath_plain by done.
    rewrite HusePublic, HaddPublic, HuseHash, Hpath. reflexivity.
  - intros version Hh Huh Hah Hp Hup Hap webpackPublicPath compilationHash.
    destruct (processShortcuts_shortcut o "publicPath" "usePublicPath" "addPublicPath"
                FDefaultAddPublicPath Hup Hap) as (_ & Hbool & _).
    rewrite (Hbool false Hp) in Hpub. injection Hpub as <-.
    destruct (processShortcuts_shortcut o "hash" "useHash" "addHash" FDefaultAddHash
                Huh Hah) as (_ & _ & Hstring & _).
    rewrite (Hstring version Hh) in Hhsh. injection Hhsh as <-. simpl in *.
    rewrite getTagPath_plain by done.
    rewrite HusePublic, HuseHash, HaddHash, Hpath. reflexivity.
  - intros prefix version Hp Hup Hap Hh Huh Hah webpackPublicPath compilationHash.
    destruct (processShortcuts_shortcut o "publicPath" "usePublicPath" "addPublicPath"
                FDefaultAddPublicPath Hup Hap) as (_ & _ & Hstring & _).
    rewrite (Hstring prefix Hp) in Hpub. injection Hpub as <-.
    destruct (processShortcuts_shortcut o "hash" "useHash" "addHash" FDefaultAddHash
                Huh Hah) as (_ & _ & Hstring' & _).
    rewrite (Hstring' version Hh) in Hhsh. injection Hhsh as <-. simpl in *.
    rewrite getTagPath_plain by done.
    rewrite HusePublic, HaddPublic, HuseHash, HaddHash, Hpath. reflexivity.
Qed.

(** X14: switching a step off.  With [usePublicPath: false] (and no hash
    option) a descriptor without overrides resolves to its slash-normalised
    path, without any transform call, whatever the runtime public path and
    hash are; a descriptor that declares [publicPath: true] is still
    resolved against the runtime public path, and one that declares
    [publicPath: false] is not, whatever the options say. *)
Theorem use_flag_and_overrides (o : gmap string jsval) (validated : validatedOptions)
    (tagObject : gmap string jsval) (path : string) :
  getAllValidatedOptions (VObj o) = Ok validated →
  get o "usePublicPath" = VBool false →
  Forall (λ k, get o k = VUndef)
    ["publicPath"; "addPublicPath"; "hash"; "useHash"; "addHash"] →
  get tagObject "path" = VStr path →
  get tagObject "hash" = VUndef →
  (get tagObject "publicPath" = VUndef →
   ∀ webpackPublicPath compilationHash,
     getTagPath tagObject validated webpackPublicPath compilationHash
     = ([], Ok (slash path))) ∧
  (get tagObject "publicPath" = VBool true →
   ∀ base compilationHash,
     (getTagPath tagObject validated (VStr base) compilationHash).2
     = Ok (slash (path_join base path))) ∧
  (∀ anyOptions : validatedOptions,
     get tagObject "publicPath" = VBool false →
     o_useHash anyOptions = false →
     ∀ webpackPublicPath compilationHash,
       getTagPath tagObject anyOptions webpackPublicPath compilationHash
       = ([], Ok (slash path))).
Proof.
  intros Hrun Huse Hkeys Hpath Hhash.
  apply resolved_policies in Hrun
    as (pub & hsh & Hpub & Hhsh & HusePublic & HaddPublic & HuseHash & HaddHash).
  repeat (apply Forall_cons in Hkeys as [? Hkeys]).
  rewrite (processShortcuts_pair o "publicPath" "usePublicPath" "addPublicPath"
             FDefaultAddPublicPath false) in Hpub by done.
  injection Hpub as <-.
  destruct (processShortcuts_shortcut o "hash" "useHash" "addHash" FDefaultAddHash)
    as (Hnone & _); [done | done |].
  rewrite Hnone in Hhsh by done. injection Hhsh as <-. simpl in *.
  split; [| split].
  - intros Hpublic webpackPublicPath compilationHash. unfold getTagPath.
    rewrite Hpublic, Hhash, Hpath, HusePublic, HuseHash. reflexivity.
  - intros Hpublic base compilationHash. unfold getTagPath, transform.
    rewrite Hpublic, Hhash, Hpath, HaddPublic, HuseHash. reflexivity.
  - intros anyOptions Hpublic Hany webpackPublicPath compilationHash. unfold getTagPath.
    rewrite Hpublic, Hhash, Hpath, Hany. reflexivity.
Qed.

(** Validation is the same for two objects with the same main options that
    agree on the surfaces and the extension lists. *)
Lemma getValidatedOptions_congruence (o o' : gmap string jsval) (defaultOptions : defaults) :
  getValidatedMainOptions (VObj o) defaultOptions
  = getValidatedMainOptions (VObj o') defaultOptions →
  agreeOn ["tags"; "links"; "scripts"; "jsExtensions"; "cssExtensions"] o o' →
  getValidatedOptions (VObj o) defaultOptions
  = getValidatedOptions (VObj o') defaultOptions.
Proof.
  intros Hsame Hagree.
  unfold getValidatedOptions, tagsDescriptors, surfaceDescriptors, getAllTagObjects,
    getValidatedTagObjects, splitLinkScriptTags, getAssetTypeCheckers, getHasExtensions,
    getExtensions.
  rewrite Hsame.
  rewrite (Hagree "tags") by set_solver. rewrite (Hagree "links") by set_solver.
  rewrite (Hagree "scripts") by set_solver.
  rewrite (Hagree "jsExtensions") by set_solver.
  rewrite (Hagree "cssExtensions") by set_solver.
  reflexivity.
Qed.

(** X15: a boolean shorthand is the use flag.  Options with [publicPath: b]
    validate exactly like the same options with [usePublicPath: b] in its
    place, and options with [hash: b] exactly like the same options with
    [useHash: b] in its place. *)
Theorem boolean_shorthand_is_use_flag (o : gmap string jsval) (defaultOptions : defaults)
    (b : bool) :
  (get o "publicPath" = VBool b →
   get o "usePublicPath" = VUndef → get o "addPublicPath" = VUndef →
   getValidatedOptions (VObj o) defaultOptions
   = getValidatedOptions
       (VObj (<[ "usePublicPath" := VBool b ]> (delete "publicPath" o))) defaultOptions) ∧
  (get o "hash" = VBool b →
   get o "useHash" = VUndef → get o "addHash" = VUndef →
   getValidatedOptions (VObj o) defaultOptions
   = getValidatedOptions
       (VObj (<[ "useHash" := VBool b ]> (delete "hash" o))) defaultOptions).
Proof.
  assert (Hgen : ∀ keyShortcut keyUse keyAdd,
            keyShortcut ≠ keyUse → keyShortcut ≠ keyAdd → keyUse ≠ keyAdd →
            get o keyShortcut = VBool b → get o keyUse = VUndef → get o keyAdd = VUndef →
            ∀ add, processShortcuts o keyShortcut keyUse keyAdd add
                   = processShortcuts (<[ keyUse := VBool b ]> (delete keyShortcut o))
                       keyShortcut keyUse keyAdd add).
  { intros ks ku ka H1 H2 H3 Hs Hu Ha add.
    destruct (processShortcuts_shortcut o ks ku ka add Hu Ha) as (_ & Hbool & _).
    rewrite (Hbool b Hs). symmetry. apply processShortcuts_pair.
    - rewrite get_insert_ne by done. apply get_delete_eq.
    - apply get_insert_eq.
    - rewrite get_insert_ne by done. by rewrite get_delete_ne. }
  assert (Hother : ∀ keyShortcut keyUse (ks ku ka : string) add,
            keyUse ≠ ks → keyUse ≠ ku → keyUse ≠ ka →
            keyShortcut ≠ ks → keyShortcut ≠ ku → keyShortcut ≠ ka →
            processShortcuts (<[ keyUse := VBool b ]> (delete keyShortcut o)) ks ku ka add
            = processShortcuts o ks ku ka add).
  { intros keyShortcut keyUse ks ku ka add ? ? ? ? ? ?. unfold processShortcuts.
    rewrite !get_insert_ne by done. rewrite !get_delete_ne by done. reflexivity. }
  split; intros Hs Hu Ha; apply getValidatedOptions_congruence.
  - unfold getValidatedMainOptions.
    rewrite get_insert_ne by done. rewrite get_delete_ne by done.
    rewrite <- (Hgen "publicPath" "usePublicPath" "addPublicPath") by done.
    rewrite (Hother "publicPath" "usePublicPath" "hash" "useHash" "addHash") by done.
    reflexivity.
  - intros k Hk.
    repeat (apply elem_of_cons in Hk as [-> | Hk];
            [rewrite get_insert_ne by done; by rewrite get_delete_ne |]).
    by apply elem_of_nil in Hk.
  - unfold getValidatedMainOptions.
    rewrite get_insert_ne by done. rewrite get_delete_ne by done.
    rewrite <- (Hgen "hash" "useHash" "addHash") by done.
    rewrite (Hother "hash" "useHash" "publicPath" "usePublicPath" "addPublicPath") by done.
    reflexivity.
  - intros k Hk.
    repeat (apply elem_of_cons in Hk as [-> | Hk];
            [rewrite get_insert_ne by done; by rewrite get_delete_ne |]).
    by apply elem_of_nil in Hk.
Qed.

(** *** Before generation *)

(** What one [map(getPath)] does. *)
Lemma getPaths_spec (options : validatedOptions) (pluginPublicPath compilationHash : jsval)
    (tagObjects : list (gmap string jsval)) (log : generationLog) :
  let run := getPaths options pluginPublicPath compilationHash log tagObjects in
  (∀ paths, run.2 = Ok paths →
     Forall2 (λ tagObject path,
                (getTagPath tagObject options pluginPublicPath compilationHash).2 = Ok path)
             tagObjects paths ∧
     run.1.1 = log.1 ++ sourcePathsOf tagObjects) ∧
  (∀ e, run.2 = Err e →
     Exists (λ tagObject,
               (getTagPath tagObject options pluginPublicPath compilationHash).2 = Err e)
            tagObjects).
Proof.
  revert log. induction tagObjects as [|tagObject tagObjects IH]; intros log; cbn zeta.
  - simpl. split.
    + intros paths [= <-]. split; [constructor | by rewrite app_nil_r].
    + discriminate.
  - cbn [getPaths]. unfold getPath.
    destruct (getTagPath tagObject options pluginPublicPath compilationHash)
      as [calls [path|e]] eqn:Eone.
    + set (log1 := (match get tagObject "sourcePath" with
                    | VStr sourcePath => log.1 ++ [sourcePath]
                    | _ => log.1
                    end, log.2 ++ calls)).
      specialize (IH log1). cbn zeta in IH. destruct IH as [IHok IHerr].
      destruct (getPaths options pluginPublicPath compilationHash log1 tagObjects)
        as [log2 [paths|e]] eqn:Erest.
      * split; [| discriminate]. intros paths' [= <-].
        destruct (IHok paths eq_refl) as [Hall Hregistered]. split.
        -- constructor; [by rewrite Eone | exact Hall].
        -- simpl in *. rewrite Hregistered. unfold sourcePathsOf. cbn [omap].
           unfold log1. simpl.
           destruct (get tagObject "sourcePath"); simpl; rewrite ?app_nil_r;
             try reflexivity.
           by rewrite <- app_assoc.
      * split; [discriminate |]. intros e' [= <-]. apply Exists_cons_tl. by apply IHerr.
    + split; [discriminate |]. intros e' [= <-]. apply Exists_cons_hd. by rewrite Eone.
Qed.

Lemma sourcePathsOf_app (xs ys : list (gmap string jsval)) :
  sourcePathsOf (xs ++ ys) = sourcePathsOf xs ++ sourcePathsOf ys.
Proof. apply omap_app. Qed.

(** The two ways a call that is not skipped ends. *)
Lemma onBeforeHtmlGeneration_run (options : validatedOptions) (compilationHash : jsval)
    (data : htmlPluginData) :
  getShouldSkip (o_files options) data = false →
  let outcome := onBeforeHtmlGeneration options compilationHash data in
  let resolved tagObject :=
    (getTagPath tagObject options (assets_publicPath data) compilationHash).2 in
  (∃ e, g_completion outcome = Thrown e ∧ g_data outcome = data ∧
        Exists (λ tagObject, resolved tagObject = Err e) (bucketsInOrder options)) ∨
  (∃ jsPrepend jsAppend cssPrepend cssAppend,
     Forall2 (λ t p, resolved t = Ok p) (o_scriptsPrepend options) jsPrepend ∧
     Forall2 (λ t p, resolved t = Ok p) (o_scriptsAppend options) jsAppend ∧
     Forall2 (λ t p, resolved t = Ok p) (o_linksPrepend options) cssPrepend ∧
     Forall2 (λ t p, resolved t = Ok p) (o_linksAppend options) cssAppend ∧
     g_data outcome
     = withAssets data (jsPrepend ++ assets_js data ++ jsAppend)
         (cssPrepend ++ assets_css data ++ cssAppend) ∧
     g_registered outcome = sourcePathsOf (bucketsInOrder options) ∧
     g_completion outcome
     = if forallb addFileToAssets (g_registered outcome)
       then CallbackOk (g_data outcome) else CallbackError).
Proof.
  intros Hskip. cbn zeta. unfold onBeforeHtmlGeneration, bucketsInOrder. rewrite Hskip.
  pose proof (getPaths_spec options (assets_publicPath data) compilationHash
                (o_scriptsPrepend options) ([], [])) as [Hok1 Herr1].
  destruct (getPaths options (assets_publicPath data) compilationHash ([], [])
              (o_scriptsPrepend options)) as [log1 [jsPrepend|e]].
  2:{ left. exists e. split; [reflexivity | split; [reflexivity |]].
      apply Exists_app. left. by apply Herr1. }
  destruct (Hok1 jsPrepend eq_refl) as [Hall1 Hreg1]. clear Hok1 Herr1.
  pose proof (getPaths_spec options (assets_publicPath data) compilationHash
                (o_scriptsAppend options) log1) as [Hok2 Herr2].
  destruct (getPaths options (assets_publicPath data) compilationHash log1
              (o_scriptsAppend options)) as [log2 [jsAppend|e]].
  2:{ left. exists e. split; [reflexivity | split; [reflexivity |]].
      apply Exists_app. right. apply Exists_app. left. by apply Herr2. }
  destruct (Hok2 jsAppend eq_refl) as [Hall2 Hreg2]. clear Hok2 Herr2.
  pose proof (getPaths_spec options (assets_publicPath data) compilationHash
                (o_linksPrepend options) log2) as [Hok3 Herr3].
  destruct (getPaths options (assets_publicPath data) compilationHash log2
              (o_linksPrepend options)) as [log3 [cssPrepend|e]].
  2:{ left. exists e. split; [reflexivity | split; [reflexivity |]].
      apply Exists_app. right. apply Exists_app. right. apply Exists_app. left.
      by apply Herr3. }
  destruct (Hok3 cssPrepend eq_refl) as [Hall3 Hreg3]. clear Hok3 Herr3.
  pose proof (getPaths_spec options (assets_publicPath data) compilationHash
                (o_linksAppend options) log3) as [Hok4 Herr4].
  destruct (getPaths options (assets_publicPath data) compilationHash log3
              (o_linksAppend options)) as [log4 [cssAppend|e]].
  2:{ left. exists e. split; [reflexivity | split; [reflexivity |]].
      apply Exists_app. right. apply Exists_app. right. apply Exists_app. right.
      by apply Herr4. }
  destruct (Hok4 cssAppend eq_refl) as [Hall4 Hreg4]. clear Hok4 Herr4.
  right. exists jsPrepend, jsAppend, cssPrepend, cssAppend.
  repeat (split; [assumption || reflexivity |]).
  split; [| reflexivity]. simpl in *.
  rewrite Hreg4, Hreg3, Hreg2, Hreg1, !sourcePathsOf_app. simpl.
  by rewrite <- !app_assoc.
Qed.

Lemma resolved_not_thrown {A : Type} (resolved : A → result string) (xs : list A)
    (e : error) :
  Forall (λ x, ∃ p, resolved x = Ok p) xs → ¬ Exists (λ x, resolved x = Err e) xs.
Proof.
  intros Hall Hex. apply Exists_exists in Hex as (x & Hin & Herr).
  rewrite Forall_forall in Hall. destruct (Hall x Hin) as [p Hp]. congruence.
Qed.

(** X16: what injection does to a document.  When the document is not
    skipped and every descriptor resolves, the new [assets.js] is the resolved
    paths of the js-prepend bucket, then the document's own scripts, then the
    resolved paths of the js-append bucket, each in bucket order, and
    [assets.css] likewise; nothing else of the document changes. *)
Theorem injection_splices_assets (options : validatedOptions) (compilationHash : jsval)
    (data : htmlPluginData) :
  getShouldSkip (o_files options) data = false →
  Forall (λ tagObject,
            ∃ p, (getTagPath tagObject options (assets_publicPath data)
                    compilationHash).2 = Ok p) (bucketsInOrder options) →
  let after := g_data (onBeforeHtmlGeneration options compilationHash data) in
  let resolved tagObject :=
    (getTagPath tagObject options (assets_publicPath data) compilationHash).2 in
  ∃ jsPrepend jsAppend cssPrepend cssAppend,
    assets_js after = jsPrepend ++ assets_js data ++ jsAppend ∧
    assets_css after = cssPrepend ++ assets_css data ++ cssAppend ∧
    Forall2 (λ t p, resolved t = Ok p) (o_scriptsPrepend options) jsPrepend ∧
    Forall2 (λ t p, resolved t = Ok p) (o_scriptsAppend options) jsAppend ∧
    Forall2 (λ t p, resolved t = Ok p) (o_linksPrepend options) cssPrepend ∧
    Forall2 (λ t p, resolved t = Ok p) (o_linksAppend options) cssAppend ∧
    List.length (assets_js after)
    = (List.length (o_scriptsPrepend options) + List.length (assets_js data)
       + List.length (o_scriptsAppend options))%nat ∧
    List.length (assets_css after)
    = (List.length (o_linksPrepend options) + List.length (assets_css data)
       + List.length (o_linksAppend options))%nat ∧
    outputName after = outputName data ∧
    assets_publicPath after = assets_publicPath data ∧
    head after = head data ∧ headTags after = headTags data ∧
    body after = body data ∧ bodyTags after = bodyTags data.
Proof.
  intros Hskip Hall. cbn zeta.
  destruct (onBeforeHtmlGeneration_run options compilationHash data Hskip)
    as [(e & _ & _ & Hthrown) |
        (jsPrepend & jsAppend & cssPrepend & cssAppend & H1 & H2 & H3 & H4 & Hdata & _)].
  { by destruct (resolved_not_thrown _ _ e Hall). }
  exists jsPrepend, jsAppend, cssPrepend, cssAppend. rewrite Hdata. simpl.
  apply Forall2_length in H1 as Hl1. apply Forall2_length in H2 as Hl2.
  apply Forall2_length in H3 as Hl3. apply Forall2_length in H4 as Hl4.
  repeat (split; [assumption || reflexivity |]).
  split; [rewrite !length_app; lia |].
  split; [rewrite !length_app; lia |].
  repeat split.
Qed.

(** X17: source files.  When the document is not skipped and every
    descriptor resolves, [addFileToAssets] is called once for each descriptor
    that has a string [sourcePath], in the order js-prepend, js-append,
    css-prepend, css-append; the callback reports success exactly when every
    one of these registrations resolves, and an error as soon as one is
    rejected. *)
Theorem source_files_registered (options : validatedOptions) (compilationHash : jsval)
    (data : htmlPluginData) :
  getShouldSkip (o_files options) data = false →
  Forall (λ tagObject,
            ∃ p, (getTagPath tagObject options (assets_publicPath data)
                    compilationHash).2 = Ok p) (bucketsInOrder options) →
  let outcome := onBeforeHtmlGeneration options compilationHash data in
  g_registered outcome = sourcePathsOf (bucketsInOrder options) ∧
  (Forall (λ file, addFileToAssets file = true) (g_registered outcome) →
   g_completion outcome = CallbackOk (g_data outcome)) ∧
  (Exists (λ file, addFileToAssets file = false) (g_registered outcome) →
   g_completion outcome = CallbackError).
Proof.
  intros Hskip Hall. cbn zeta.
  destruct (onBeforeHtmlGeneration_run options compilationHash data Hskip)
    as [(e & _ & _ & Hthrown) | (? & ? & ? & ? & _ & _ & _ & _ & _ & Hreg & Hdone)].
  { by destruct (resolved_not_thrown _ _ e Hall). }
  split; [exact Hreg |]. rewrite Hdone. split.
  - intros Hgood.
    replace (forallb addFileToAssets _) with true; [reflexivity |].
    symmetry. apply forallb_forall. intros file Hin.
    rewrite Forall_forall in Hgood. apply Hgood. by apply list_elem_of_In.
  - intros Hbad. destruct (forallb addFileToAssets _) eqn:E; [| reflexivity].
    rewrite forallb_forall in E.
    apply Exists_exists in Hbad as (file & Hin & Hfile).
    apply list_elem_of_In in Hin. rewrite (E file Hin) in Hfile. discriminate.
Qed.

(** X18: a resolution that throws.  A call that is not skipped throws exactly
    when the resolution of some descriptor throws; the document is then left
    as it was, its asset lists included, and the callback is not called. *)
Theorem throwing_resolution_leaves_document (options : validatedOptions)
    (compilationHash : jsval) (data : htmlPluginData) :
  getShouldSkip (o_files options) data = false →
  let outcome := onBeforeHtmlGeneration options compilationHash data in
  let resolved tagObject :=
    (getTagPath tagObject options (assets_publicPath data) compilationHash).2 in
  ((∃ e, g_completion outcome = Thrown e)
   ↔ Exists (λ tagObject, ∃ e, resolved tagObject = Err e) (bucketsInOrder options)) ∧
  (∀ e, g_completion outcome = Thrown e →
        g_data outcome = data ∧
        Exists (λ tagObject, resolved tagObject = Err e) (bucketsInOrder options)).
Proof.
  intros Hskip. cbn zeta.
  destruct (onBeforeHtmlGeneration_run options compilationHash data Hskip)
    as [(e & Hthrown & Hdata & Hex) |
        (jsPrepend & jsAppend & cssPrepend & cssAppend & H1 & H2 & H3 & H4 & _ & _ & Hdone)].
  - split.
    + split; [| by exists e]. intros _.
      eapply Exists_impl; [exact Hex |]. intros t Ht. by exists e.
    + intros e' He'. rewrite Hthrown in He'. injection He' as <-. by split.
  - assert (Hnever : ∀ e, g_completion (onBeforeHtmlGeneration options compilationHash data)
                          ≠ Thrown e).
    { intros e. rewrite Hdone. by destruct (forallb _ _). }
    split.
    + split; [intros [e He]; by destruct (Hnever e) |].
      intros Hex. exfalso. unfold bucketsInOrder in Hex.
      assert (Hno : ∀ ts ps,
                Forall2 (λ t p, (getTagPath t options (assets_publicPath data)
                                   compilationHash).2 = Ok p) ts ps →
                ¬ Exists (λ t, ∃ e, (getTagPath t options (assets_publicPath data)
                                       compilationHash).2 = Err e) ts).
      { intros ts ps Hall. induction Hall as [|t p ts ps Ht _ IH]; intros Hbad;
          inversion Hbad as [? ? [e He] | ? ? Hrest]; subst; [congruence | by apply IH]. }
      apply Exists_app in Hex as [Hex | Hex]; [exact (Hno _ _ H1 Hex) |].
      apply Exists_app in Hex as [Hex | Hex]; [exact (Hno _ _ H2 Hex) |].
      apply Exists_app in Hex as [Hex | Hex]; [exact (Hno _ _ H3 Hex) |].
      exact (Hno _ _ H4 Hex).
    + intros e He. by destruct (Hnever e).
Qed.

End Extras.

Section Alter.
Context `{Host}.

Lemma writableOver_lookup (own declared : gmap string jsval) (k : string) :
  writableOver own declared !! k = if assignable own k then declared !! k else None.
Proof.
  unfold writableOver, assignable.
  destruct (String.eqb_spec k "__proto__") as [-> | Hne]; simpl.
  - destruct (own !! "__proto__"); [reflexivity | apply lookup_delete_eq].
  - destruct (own !! "__proto__"); [reflexivity |]. by rewrite lookup_delete_ne.
Qed.

(** The attributes of a tag after the writes of the copy-back, key by key. *)
Lemma foldl_setProperty_lookup (entries : list (string * jsval))
    (base : gmap string jsval) (k : string) :
  foldl (λ tagAttributes entry, setProperty tagAttributes entry.1 entry.2) base entries !! k
  = (writableOver base (list_to_map (reverse entries)) ∪ base) !! k.
Proof.
  induction entries as [|[key value] entries IH] using rev_ind.
  - simpl. rewrite lookup_union, writableOver_lookup, lookup_empty.
    destruct (assignable base k); by destruct (base !! k).
  - rewrite foldl_app, reverse_app. simpl. rewrite setProperty_lookup, IH.
    assert (Hsame : assignable
                      (foldl (λ tagAttributes entry,
                                setProperty tagAttributes entry.1 entry.2) base entries) key
                    = assignable base key).
    { clear. induction entries as [|entry entries IH] using rev_ind; [reflexivity |].
      rewrite foldl_app. simpl. by rewrite setProperty_assignable. }
    rewrite Hsame, !lookup_union, !writableOver_lookup.
    destruct (String.eqb_spec key k) as [-> | Hne]; simpl.
    + rewrite lookup_insert_eq. destruct (assignable base k); by destruct (base !! k).
    + by rewrite lookup_insert_ne.
Qed.

Lemma foldl_setProperty (entries : list (string * jsval)) (base : gmap string jsval) :
  foldl (λ tagAttributes entry, setProperty tagAttributes entry.1 entry.2) base entries
  = writableOver base (list_to_map (reverse entries)) ∪ base.
Proof. apply map_eq. intros k. apply foldl_setProperty_lookup. Qed.

Lemma declaredAttributes_object (declared : gmap string jsval) :
  declaredAttributes (VObj declared) = declared.
Proof.
  unfold declaredAttributes. simpl.
  rewrite <-(list_to_map_to_list declared) at 2.
  apply list_to_map_proper.
  - rewrite fmap_reverse, reverse_Permutation. apply NoDup_fst_map_to_list.
  - apply reverse_Permutation.
Qed.

Lemma mergeTag_absent (tagObject : gmap string jsval) (tag : tagNode) :
  truthy (get tagObject "attributes") = false → mergeTag tagObject tag = tag.
Proof.
  intros Hfalsy. unfold mergeTag, declaredAttributes. rewrite Hfalsy.
  assert (Hnone : writableOver (attributes tag) ∅ = ∅).
  { unfold writableOver. destruct (assignable _ _); [reflexivity | apply delete_empty]. }
  rewrite Hnone, (left_id_L ∅ (∪)). by destruct tag.
Qed.

Lemma copyOne_alter (tagObject : gmap string jsval) (position : nat)
    (nodes : list tagNode) :
  copyOne tagObject position nodes = alter (mergeTag tagObject) position nodes.
Proof.
  unfold copyOne. destruct (truthy (get tagObject "attributes")) eqn:Htruthy.
  - apply list_alter_ext; [| reflexivity..]. intros tag _.
    unfold mergeTag, declaredAttributes. rewrite Htruthy.
    by rewrite foldl_setProperty.
  - symmetry. apply list_alter_id. intros tag. by apply mergeTag_absent.
Qed.

Lemma tagPositions_spec (name : string) (nodes : list tagNode) (position : nat) :
  position ∈ tagPositions name nodes
  ↔ ∃ tag, nodes !! position = Some tag ∧ tagName tag = name.
Proof.
  unfold tagPositions. rewrite list_elem_of_fmap. split.
  - intros ([i tag] & -> & Hin). apply list_elem_of_In, filter_In in Hin as [Hin Hname].
    apply list_elem_of_In, elem_of_lookup_imap in Hin as (i' & tag' & Heq & Hlookup).
    injection Heq as -> ->. exists tag'. split; [exact Hlookup |].
    by apply String.eqb_eq.
  - intros (tag & Hlookup & Hname). exists (position, tag). split; [reflexivity |].
    apply list_elem_of_In, filter_In. split.
    + apply list_elem_of_In, elem_of_lookup_imap. by exists position, tag.
    + by apply String.eqb_eq.
Qed.

Lemma filter_fst_sublist {A B : Type} (p : A * B → bool) (l : list (A * B)) :
  map fst (List.filter p l) `sublist_of` map fst l.
Proof.
  induction l as [|x l IH]; simpl; [constructor |].
  destruct (p x); simpl; by constructor.
Qed.

Lemma tagPositions_NoDup (name : string) (nodes : list tagNode) :
  NoDup (tagPositions name nodes).
Proof.
  unfold tagPositions. eapply sublist_NoDup; [| apply filter_fst_sublist].
  change (map fst (imap pair nodes)) with (fst <$> imap pair nodes).
  rewrite fmap_imap.
  rewrite (imap_ext _ (λ i _, i)) by reflexivity.
  rewrite imap_seq_0. rewrite list_fmap_id. apply NoDup_seq.
Qed.

Lemma sliceFrom_drop {A : Type} (l : list A) (count : nat) :
  (count ≤ List.length l)%nat →
  sliceFrom (Z.of_nat (List.length l) - Z.of_nat count) l = drop (List.length l - count) l.
Proof.
  intros Hle. unfold sliceFrom.
  destruct (Z.ltb_spec (Z.of_nat (List.length l) - Z.of_nat count) 0); [lia |].
  f_equal. lia.
Qed.

Lemma sliceFrom_sublist {A : Type} (start : Z) (l : list A) :
  sliceFrom start l `sublist_of` l.
Proof. unfold sliceFrom. apply sublist_drop. Qed.

Lemma sliceFrom_length {A : Type} (l : list A) (count : nat) :
  (List.length (sliceFrom (Z.of_nat (List.length l) - Z.of_nat count) l) ≤ count)%nat.
Proof.
  unfold sliceFrom. rewrite length_drop.
  destruct (Z.ltb_spec (Z.of_nat (List.length l) - Z.of_nat count) 0); lia.
Qed.

Lemma tagKept_refl (name : string) (tag : tagNode) : tagKept name tag tag.
Proof. by repeat split. Qed.

Lemma tagKept_trans (name : string) (tag tag' tag'' : tagNode) :
  tagKept name tag tag' → tagKept name tag' tag'' → tagKept name tag tag''.
Proof.
  intros (Hname & Hother & Hdom) (Hname' & Hother' & Hdom').
  split; [congruence |]. split.
  - intros Hne. rewrite <-(Hother Hne). apply Hother'. congruence.
  - set_solver.
Qed.

Lemma tagKept_merge (name : string) (tagObject : gmap string jsval) (tag : tagNode) :
  tagName tag = name → tagKept name tag (mergeTag tagObject tag).
Proof.
  intros Hname. split; [reflexivity |]. split; [congruence |].
  simpl. rewrite dom_union. set_solver.
Qed.

Lemma Forall2_tagKept_refl (name : string) (nodes : list tagNode) :
  Forall2 (tagKept name) nodes nodes.
Proof. apply Forall_Forall2_diag, Forall_forall. intros; apply tagKept_refl. Qed.

Lemma alter_tagKept (name : string) (tagObject : gmap string jsval) (position : nat)
    (nodes : list tagNode) :
  (∀ tag, nodes !! position = Some tag → tagName tag = name) →
  Forall2 (tagKept name) nodes (alter (mergeTag tagObject) position nodes).
Proof.
  intros Hposition. apply Forall2_same_length_lookup. split; [by rewrite length_alter |].
  intros i tag tag' Hlookup Haltered.
  destruct (decide (position = i)) as [-> | Hne].
  - rewrite list_lookup_alter, Hlookup in Haltered. simpl in Haltered.
    rewrite decide_True in Haltered by done.
    injection Haltered as <-. apply tagKept_merge. by apply Hposition.
  - rewrite list_lookup_alter_ne in Haltered by done.
    rewrite Hlookup in Haltered. injection Haltered as <-. apply tagKept_refl.
Qed.

Lemma copyAttributes_kept (name : string) (tagObjects : list (gmap string jsval))
    (positions : list nat) :
  ∀ (i : nat) (nodes nodes' : list tagNode),
    Forall (λ position, ∀ tag, nodes !! position = Some tag → tagName tag = name)
           positions →
    copyAttributes positions i tagObjects nodes = Ok nodes' →
    Forall2 (tagKept name) nodes nodes'.
Proof.
  induction positions as [|position positions IH]; intros i nodes nodes' Hvalid Hrun.
  - injection Hrun as <-. apply Forall2_tagKept_refl.
  - simpl in Hrun. destruct (tagObjects !! i) as [tagObject|]; [| discriminate].
    rewrite copyOne_alter in Hrun.
    apply Forall_cons in Hvalid as [Hposition Hvalid].
    pose proof (alter_tagKept name tagObject position nodes Hposition) as Hstep.
    apply IH in Hrun.
    + apply Forall2_same_length_lookup. split.
      * by rewrite <-(Forall2_length _ _ _ Hrun), length_alter.
      * intros k tag tag'' Hk Hk''.
        destruct (alter (mergeTag tagObject) position nodes !! k) as [tag'|] eqn:Hk'.
        -- eapply tagKept_trans.
           ++ exact (Forall2_lookup_lr _ _ _ _ _ _ Hstep Hk Hk').
           ++ exact (Forall2_lookup_lr _ _ _ _ _ _ Hrun Hk' Hk'').
        -- apply lookup_ge_None in Hk'. rewrite length_alter in Hk'.
           apply lookup_lt_Some in Hk. lia.
    + eapply Forall_impl; [exact Hvalid |]. intros p Hp tag' Hlookup.
      destruct (nodes !! p) as [tag|] eqn:Hnode.
      * destruct (Forall2_lookup_lr _ _ _ _ _ _ Hstep Hnode Hlookup) as (Hname & _).
        rewrite Hname. by apply Hp.
      * apply lookup_ge_None in Hnode. apply lookup_lt_Some in Hlookup.
        rewrite length_alter in Hlookup. lia.
Qed.

Lemma copyAttributes_total (tagObjects : list (gmap string jsval)) (positions : list nat) :
  ∀ (i : nat) (nodes : list tagNode),
    (i + List.length positions ≤ List.length tagObjects)%nat →
    ∃ nodes', copyAttributes positions i tagObjects nodes = Ok nodes'.
Proof.
  induction positions as [|position positions IH]; intros i nodes Hlength.
  - by exists nodes.
  - simpl in *. destruct (lookup_lt_is_Some_2 tagObjects i) as [tagObject ->]; [lia |].
    apply IH. lia.
Qed.

Lemma alterGroup_total (name : string) (prepend append : list (gmap string jsval))
    (nodes : list tagNode) :
  ∃ nodes', alterGroup name prepend append nodes = Ok nodes'.
Proof.
  unfold alterGroup. apply copyAttributes_total.
  rewrite !length_app, length_take.
  pose proof (sliceFrom_length (tagPositions name nodes) (List.length append)). lia.
Qed.

Lemma alterGroup_kept (name : string) (prepend append : list (gmap string jsval))
    (nodes nodes' : list tagNode) :
  alterGroup name prepend append nodes = Ok nodes' →
  Forall2 (tagKept name) nodes nodes'.
Proof.
  unfold alterGroup. apply copyAttributes_kept.
  apply Forall_forall. intros position Hin tag Hlookup.
  assert (Htarget : position ∈ tagPositions name nodes).
  { apply elem_of_app in Hin as [Hin | Hin].
    - eapply elem_of_sublist; [exact Hin | apply sublist_take].
    - eapply elem_of_sublist; [exact Hin | apply sliceFrom_sublist]. }
  apply tagPositions_spec in Htarget as (tag' & Hlookup' & Hname). congruence.
Qed.

Lemma copyAttributes_NoDup (tagObjects : list (gmap string jsval)) (positions : list nat) :
  ∀ (i : nat) (nodes nodes' : list tagNode),
    NoDup positions →
    copyAttributes positions i tagObjects nodes = Ok nodes' →
    (∀ j position, positions !! j = Some position →
       ∃ tagObject, tagObjects !! (i + j) = Some tagObject ∧
                    nodes' !! position = mergeTag tagObject <$> nodes !! position) ∧
    (∀ position, position ∉ positions → nodes' !! position = nodes !! position).
Proof.
  induction positions as [|position positions IH]; intros i nodes nodes' Hdistinct Hrun.
  - injection Hrun as <-. split; [intros j position Hj; discriminate | done].
  - simpl in Hrun. destruct (tagObjects !! i) as [tagObject|] eqn:Hi; [| discriminate].
    rewrite copyOne_alter in Hrun.
    apply NoDup_cons in Hdistinct as [Hfresh Hdistinct].
    destruct (IH _ _ _ Hdistinct Hrun) as [Htargets Hothers]. split.
    + intros [|j] p Hj.
      * injection Hj as <-. exists tagObject. rewrite Nat.add_0_r. split; [exact Hi |].
        rewrite (Hothers _ Hfresh). rewrite list_lookup_alter.
        by rewrite decide_True.
      * simpl in Hj. destruct (Htargets j p Hj) as (tagObject' & Hlookup & Hnode).
        exists tagObject'. replace (i + S j) with (S i + j) by lia.
        split; [exact Hlookup |]. rewrite Hnode.
        rewrite list_lookup_alter_ne; [reflexivity |].
        intros ->. apply Hfresh. by eapply list_elem_of_lookup_2.
    + intros p Hp. apply not_elem_of_cons in Hp as [Hne Hp].
      rewrite (Hothers p Hp). by rewrite list_lookup_alter_ne.
Qed.

Lemma alterGroup_copiedBack (name : string) (prepend append : list (gmap string jsval))
    (nodes nodes' : list tagNode) :
  alterGroup name prepend append nodes = Ok nodes' →
  (List.length prepend + List.length append
   ≤ List.length (tagPositions name nodes))%nat →
  copiedBack name prepend append nodes nodes'.
Proof.
  unfold alterGroup, copiedBack. cbn zeta.
  set (targets := tagPositions name nodes). intros Hrun Hroom.
  rewrite sliceFrom_drop in Hrun by lia.
  assert (Hdistinct : NoDup (take (List.length prepend) targets
                             ++ drop (List.length targets - List.length append) targets)).
  { pose proof (tagPositions_NoDup name nodes) as Hall. fold targets in Hall.
    rewrite <-(take_drop (List.length targets - List.length append) targets) in Hall at 1.
    apply NoDup_app in Hall as (Htake & Hdisjoint & Hdrop).
    apply NoDup_app. split; [| split; [| exact Hdrop]].
    - eapply sublist_NoDup; [apply tagPositions_NoDup | apply sublist_take].
    - intros p Hp. apply Hdisjoint.
      apply elem_of_take in Hp as (j & Hj & Hlt).
      apply elem_of_take. exists j. split; [exact Hj | lia]. }
  destruct (copyAttributes_NoDup _ _ _ _ _ Hdistinct Hrun) as [Htargets Hothers].
  assert (Htake : List.length (take (List.length prepend) targets) = List.length prepend).
  { rewrite length_take. lia. }
  split; [| split].
  - intros j tagObject position Hj Hposition.
    destruct (Htargets j position) as (tagObject' & Hlookup & Hnode).
    { rewrite lookup_app_l by (rewrite Htake; by eapply lookup_lt_Some).
      rewrite lookup_take_lt by (by eapply lookup_lt_Some). exact Hposition. }
    simpl in Hlookup. rewrite lookup_app_l in Hlookup by (by eapply lookup_lt_Some).
    congruence.
  - intros j tagObject position Hj Hposition.
    destruct (Htargets (List.length prepend + j) position) as (tagObject' & Hlookup & Hnode).
    { rewrite lookup_app_r by (rewrite Htake; lia). rewrite Htake.
      replace (List.length prepend + j - List.length prepend) with j by lia.
      rewrite lookup_drop. exact Hposition. }
    simpl in Hlookup. rewrite lookup_app_r in Hlookup by lia.
    replace (List.length prepend + j - List.length prepend) with j in Hlookup by lia.
    congruence.
  - intros position Hfirst Hlast. apply Hothers.
    intros Hin. apply elem_of_app in Hin as [Hin | Hin]; contradiction.
Qed.

Lemma onAlterAssetTag_run (options : validatedOptions) (data : htmlPluginData)
    (pluginHead pluginBody : list tagNode) :
  getShouldSkip (o_files options) data = false →
  pickTags (head data) (headTags data) = Ok pluginHead →
  pickTags (body data) (bodyTags data) = Ok pluginBody →
  ∃ pluginHead' pluginBody',
    alterGroup "link" (o_linksPrepend options) (o_linksAppend options) pluginHead
    = Ok pluginHead' ∧
    alterGroup "script" (o_scriptsPrepend options) (o_scriptsAppend options) pluginBody
    = Ok pluginBody' ∧
    onAlterAssetTag options data
    = Ok {| outputName := outputName data;
            assets_publicPath := assets_publicPath data;
            assets_js := assets_js data;
            assets_css := assets_css data;
            head := (storeTags (head data) (headTags data) pluginHead').1;
            headTags := (storeTags (head data) (headTags data) pluginHead').2;
            body := (storeTags (body data) (bodyTags data) pluginBody').1;
            bodyTags := (storeTags (body data) (bodyTags data) pluginBody').2 |}.
Proof.
  intros Hskip Hhead Hbody.
  destruct (alterGroup_total "link" (o_linksPrepend options) (o_linksAppend options)
              pluginHead) as [pluginHead' Hlinks].
  destruct (alterGroup_total "script" (o_scriptsPrepend options) (o_scriptsAppend options)
              pluginBody) as [pluginBody' Hscripts].
  exists pluginHead', pluginBody'. split; [exact Hlinks |]. split; [exact Hscripts |].
  unfold onAlterAssetTag. rewrite Hskip, Hhead, Hbody. simpl.
  rewrite Hlinks. simpl. rewrite Hscripts. reflexivity.
Qed.

Lemma pickTags_Err (primary secondary : option (list tagNode)) (e : error) :
  pickTags primary secondary = Err e ↔ e = TypeError ∧ primary = None ∧ secondary = None.
Proof.
  unfold pickTags. destruct primary, secondary; split;
    try discriminate; try (intros (_ & ? & ?); discriminate).
  - intros [= <-]. done.
  - intros (-> & _). done.
Qed.

Lemma storeTags_alteredPair (name : string) (primary secondary : option (list tagNode))
    (nodes nodes' : list tagNode) :
  pickTags primary secondary = Ok nodes →
  Forall2 (tagKept name) nodes nodes' →
  alteredPair name primary secondary
              (storeTags primary secondary nodes').1 (storeTags primary secondary nodes').2.
Proof.
  unfold pickTags, storeTags, alteredPair. intros Hpick Hkept.
  destruct primary as [primary|].
  - injection Hpick as ->. simpl. split; [reflexivity |]. by exists nodes'.
  - destruct secondary as [secondary|]; [| discriminate]. injection Hpick as ->.
    simpl. split; [reflexivity |]. by constructor.
Qed.

Lemma storeTags_pickTags (primary secondary : option (list tagNode))
    (nodes nodes' : list tagNode) :
  pickTags primary secondary = Ok nodes →
  pickTags (storeTags primary secondary nodes').1 (storeTags primary secondary nodes').2
  = Ok nodes'.
Proof.
  unfold pickTags, storeTags. intros Hpick.
  destruct primary; [reflexivity |]. by destruct secondary.
Qed.

(** X19: the copy-back is total on the lists it is given.  A call of
    [onAlterAssetTag] throws exactly when the document is not skipped and
    has neither [head] nor [headTags], or neither [body] nor [bodyTags]; the
    throw is a TypeError.  In particular [tagObjects[i]] is never read past
    the descriptors, however few tags the document has. *)
Theorem alter_hook_outcome (options : validatedOptions) (data : htmlPluginData) :
  (∀ e, onAlterAssetTag options data = Err e
        ↔ e = TypeError ∧
          getShouldSkip (o_files options) data = false ∧
          ((head data = None ∧ headTags data = None) ∨
           (body data = None ∧ bodyTags data = None))) ∧
  (∀ name prepend append nodes, is_ok (alterGroup name prepend append nodes) = true).
Proof.
  split.
  - intros e. destruct (getShouldSkip (o_files options) data) eqn:Hskip.
    { unfold onAlterAssetTag. rewrite Hskip. split; [discriminate |].
      intros (_ & ? & _). discriminate. }
    destruct (pickTags (head data) (headTags data)) as [pluginHead|e1] eqn:Hhead.
    + destruct (pickTags (body data) (bodyTags data)) as [pluginBody|e2] eqn:Hbody.
      * destruct (onAlterAssetTag_run options data pluginHead pluginBody Hskip Hhead Hbody)
          as (? & ? & _ & _ & ->).
        split; [discriminate |]. intros (_ & _ & [[Hnone Hnone'] | [Hnone Hnone']]).
        -- rewrite Hnone, Hnone' in Hhead. discriminate.
        -- rewrite Hnone, Hnone' in Hbody. discriminate.
      * apply pickTags_Err in Hbody as (-> & Hnone & Hnone').
        unfold onAlterAssetTag. rewrite Hskip, Hhead, Hnone, Hnone'. simpl. split.
        -- intros [= <-]. auto.
        -- by intros (-> & _).
    + apply pickTags_Err in Hhead as (-> & Hnone & Hnone').
      unfold onAlterAssetTag. rewrite Hskip, Hnone, Hnone'. simpl. split.
      * intros [= <-]. auto.
      * by intros (-> & _).
  - intros name prepend append nodes.
    by destruct (alterGroup_total name prepend append nodes) as [nodes' ->].
Qed.

(** X20: the frame of the copy-back.  Whenever [onAlterAssetTag] hands a
    document on, its output name and asset lists are the ones it received;
    of each pair [head]/[headTags] and [body]/[bodyTags] only the list the
    hook reads is altered; that list keeps its length and every tag its
    name; a head tag that is no [link] and a body tag that is no [script]
    is left as it was; and no attribute of any tag is removed. *)
Theorem alter_hook_frame (options : validatedOptions) (data data' : htmlPluginData) :
  onAlterAssetTag options data = Ok data' →
  outputName data' = outputName data ∧
  assets_publicPath data' = assets_publicPath data ∧
  assets_js data' = assets_js data ∧
  assets_css data' = assets_css data ∧
  alteredPair "link" (head data) (headTags data) (head data') (headTags data') ∧
  alteredPair "script" (body data) (bodyTags data) (body data') (bodyTags data').
Proof.
  intros Hrun. destruct (getShouldSkip (o_files options) data) eqn:Hskip.
  { unfold onAlterAssetTag in Hrun. rewrite Hskip in Hrun. injection Hrun as <-.
    repeat (split; [reflexivity |]).
    assert (Hsame : ∀ name primary secondary,
               alteredPair name primary secondary primary secondary).
    { intros name [nodes|] secondary; simpl.
      - split; [reflexivity |]. exists nodes. split; [reflexivity |].
        apply Forall2_tagKept_refl.
      - split; [reflexivity |]. destruct secondary; constructor.
        apply Forall2_tagKept_refl. }
    split; apply Hsame. }
  destruct (pickTags (head data) (headTags data)) as [pluginHead|e1] eqn:Hhead;
    [| unfold onAlterAssetTag in Hrun; rewrite Hskip, Hhead in Hrun; discriminate].
  destruct (pickTags (body data) (bodyTags data)) as [pluginBody|e2] eqn:Hbody;
    [| unfold onAlterAssetTag in Hrun; rewrite Hskip, Hhead, Hbody in Hrun; discriminate].
  destruct (onAlterAssetTag_run options data pluginHead pluginBody Hskip Hhead Hbody)
    as (pluginHead' & pluginBody' & Hlinks & Hscripts & Hdone).
  rewrite Hdone in Hrun. injection Hrun as <-. cbn [outputName assets_publicPath
    assets_js assets_css head headTags body bodyTags].
  repeat (split; [reflexivity |]). split.
  - apply (storeTags_alteredPair "link" _ _ pluginHead); [exact Hhead |].
    by eapply alterGroup_kept.
  - apply (storeTags_alteredPair "script" _ _ pluginBody); [exact Hbody |].
    by eapply alterGroup_kept.
Qed.

(** X21: which tag receives which attributes.  When the document's [link]
    tags are at least as many as the link descriptors, the j-th [link] of
    the head list receives the attributes of the j-th prepended descriptor,
    the j-th of the last [length linksAppend] ones those of the j-th
    appended descriptor, and every other tag is left as it was; likewise
    for [script] tags of the body list.  The attributes received are
    written over the tag's own, key by key: under every key but [__proto__]
    the tag ends with the declared value when there is one and with its own
    otherwise; a declared [__proto__] is stored only on a tag that has it as
    an own property, and otherwise leaves no entry; a descriptor without
    [attributes] changes nothing. *)
Theorem copy_back_correspondence (options : validatedOptions) (data data' : htmlPluginData)
    (pluginHead pluginBody : list tagNode) :
  onAlterAssetTag options data = Ok data' →
  getShouldSkip (o_files options) data = false →
  pickTags (head data) (headTags data) = Ok pluginHead →
  pickTags (body data) (bodyTags data) = Ok pluginBody →
  (∃ pluginHead' pluginBody',
     pickTags (head data') (headTags data') = Ok pluginHead' ∧
     pickTags (body data') (bodyTags data') = Ok pluginBody' ∧
     ((List.length (o_linksPrepend options) + List.length (o_linksAppend options)
       ≤ List.length (tagPositions "link" pluginHead))%nat →
      copiedBack "link" (o_linksPrepend options) (o_linksAppend options)
                 pluginHead pluginHead') ∧
     ((List.length (o_scriptsPrepend options) + List.length (o_scriptsAppend options)
       ≤ List.length (tagPositions "script" pluginBody))%nat →
      copiedBack "script" (o_scriptsPrepend options) (o_scriptsAppend options)
                 pluginBody pluginBody')) ∧
  (∀ tagObject declared tag,
     get tagObject "attributes" = VObj declared →
     attributes (mergeTag tagObject tag)
     = writableOver (attributes tag) declared ∪ attributes tag ∧
     (∀ k, k ≠ "__proto__" →
           attributes (mergeTag tagObject tag) !! k
           = match declared !! k with
             | Some value => Some value
             | None => attributes tag !! k
             end) ∧
     (attributes tag !! "__proto__" = None →
      attributes (mergeTag tagObject tag) !! "__proto__" = None)) ∧
  (∀ tagObject tag, get tagObject "attributes" = VUndef → mergeTag tagObject tag = tag).
Proof.
  intros Hrun Hskip Hhead Hbody. split; [| split].
  - destruct (onAlterAssetTag_run options data pluginHead pluginBody Hskip Hhead Hbody)
      as (pluginHead' & pluginBody' & Hlinks & Hscripts & Hdone).
    rewrite Hdone in Hrun. injection Hrun as <-.
    exists pluginHead', pluginBody'.
    cbn [head headTags body bodyTags].
    split; [by eapply storeTags_pickTags |].
    split; [by eapply storeTags_pickTags |].
    split; intros Hroom; by apply alterGroup_copiedBack.
  - intros tagObject declared tag Hdeclared. unfold mergeTag. simpl.
    rewrite Hdeclared, declaredAttributes_object. split; [reflexivity | split].
    + intros k Hk. rewrite lookup_union, writableOver_lookup, assignable_other by done.
      destruct (declared !! k); by destruct (attributes tag !! k).
    + intros Hown. rewrite lookup_union, writableOver_lookup, Hown.
      unfold assignable. rewrite Hown. reflexivity.
  - intros tagObject tag Hundef. apply mergeTag_absent. by rewrite Hundef.
Qed.

End Alter.

Section Registry.
Context `{Host}.

Lemma lastDeclared_Some (name : string) (scripts : list (gmap string jsval))
    (variable : jsval) :
  lastDeclared name scripts = Some variable →
  ∃ script, script ∈ scripts ∧ declares name script = Some variable.
Proof.
  unfold lastDeclared. intros Hlast.
  apply last_Some in Hlast as [earlier Hlast].
  assert (Hin : variable ∈ omap (declares name) scripts) by (rewrite Hlast; set_solver).
  by apply list_elem_of_omap in Hin.
Qed.

Lemma lastDeclared_is_Some (name : string) (scripts : list (gmap string jsval)) :
  is_Some (lastDeclared name scripts)
  ↔ Exists (λ script, is_Some (declares name script)) scripts.
Proof.
  split.
  - intros [variable Hlast].
    apply lastDeclared_Some in Hlast as (script & Hin & Hdeclares).
    apply Exists_exists. exists script. by rewrite Hdeclares.
  - intros Hex. apply Exists_exists in Hex as (script & Hin & [variable Hdeclares]).
    unfold lastDeclared.
    assert (Hsome : variable ∈ omap (declares name) scripts).
    { apply list_elem_of_omap. by exists script. }
    destruct (omap (declares name) scripts) as [|v vs] using rev_ind.
    + by apply elem_of_nil in Hsome.
    + rewrite last_snoc. by eexists.
Qed.

Lemma stringItems_strings (items : list jsval) :
  forallb isString items = true → map str items = stringItems items.
Proof.
  unfold stringItems. induction items as [|item items IH]; [reflexivity |].
  simpl. intros Hall. apply andb_true_iff in Hall as [Hitem Hall].
  destruct item; try discriminate. simpl. by rewrite IH.
Qed.

Lemma getShouldSkip_Some (files : list string) (data : htmlPluginData) :
  getShouldSkip (Some files) data = true
  ↔ Forall (λ file, minimatch (outputName data) file = false) files.
Proof.
  unfold getShouldSkip. rewrite negb_true_iff.
  induction files as [|file files IH]; simpl.
  - split; [constructor | reflexivity].
  - rewrite orb_false_iff, IH, Forall_cons. reflexivity.
Qed.

(** X22: the externals registry only grows.  After [apply], the registry
    holds a module name exactly when the host's registry held it or the name
    is not [__proto__] and some script descriptor declares it, so no entry
    of the host is ever removed, and a declared [__proto__] adds none; and
    applying the plugin to a registry it has already been applied to leaves
    the registry as it is. *)
Theorem externals_registry_grows (options : validatedOptions)
    (hostExternals : option (gmap string jsval)) :
  let registry := applyExternals options hostExternals in
  (∀ name, is_Some (registry !! name)
           ↔ is_Some (default ∅ hostExternals !! name) ∨
             (name ≠ "__proto__" ∧
              Exists (λ script, is_Some (declares name script)) (o_scripts options))) ∧
  applyExternals options (Some registry) = registry.
Proof.
  cbn zeta. unfold applyExternals. split.
  - intros name. rewrite foldl_registerExternal_lookup, <-lastDeclared_is_Some.
    unfold assignable.
    destruct (String.eqb_spec name "__proto__") as [-> | Hname]; simpl.
    + destruct (lastDeclared "__proto__" (o_scripts options)) as [variable|];
        [| split; [by left | by intros [Hhost | [? _]]]].
      destruct (default ∅ hostExternals !! "__proto__") as [own|] eqn:Hown.
      * split; [intros _; left; by eexists | by eexists].
      * split; [by intros [? ?] | by intros [[? ?] | [? _]]].
    + destruct (lastDeclared name (o_scripts options)) as [variable|].
      * split; [intros _; right; split; [done | by eexists] | by eexists].
      * split; [by left |]. intros [Hhost | [_ [? ?]]]; [exact Hhost | discriminate].
  - apply map_eq. intros name. simpl. rewrite !foldl_registerExternal_lookup.
    rewrite foldl_registerExternal_assignable.
    destruct (lastDeclared name (o_scripts options)); [| reflexivity].
    by destruct (assignable (default ∅ hostExternals) name).
Qed.

(** X23: what the registry can hold.  When every script descriptor's
    [external] is absent or well formed, as validation leaves them, each
    entry of the registry after [apply] is an entry the host's registry
    already had, or maps a declared module name to a string. *)
Theorem registered_variables_are_strings (options : validatedOptions)
    (hostExternals : option (gmap string jsval)) (name : string) (variable : jsval) :
  Forall externalValid (o_scripts options) →
  applyExternals options hostExternals !! name = Some variable →
  default ∅ hostExternals !! name = Some variable ∨
  ∃ script external variableName,
    script ∈ o_scripts options ∧
    get script "external" = VObj external ∧
    get external "packageName" = VStr name ∧
    variable = VStr variableName.
Proof.
  intros Hvalid. unfold applyExternals. rewrite foldl_registerExternal_lookup.
  destruct (lastDeclared name (o_scripts options)) as [declared|] eqn:Hlast; [| by left].
  destruct (assignable (default ∅ hostExternals) name); [| by left].
  intros [= <-]. right.
  apply lastDeclared_Some in Hlast as (script & Hin & Hdeclares).
  rewrite Forall_forall in Hvalid.
  destruct (Hvalid script Hin) as [Habsent | (external & packageName & variableName &
                                              Hexternal & Hpackage & Hvariable)].
  - unfold declares in Hdeclares. rewrite Habsent in Hdeclares. discriminate.
  - unfold declares in Hdeclares. rewrite Hexternal, Hpackage in Hdeclares.
    simpl in Hdeclares.
    destruct (String.eqb_spec packageName name) as [Hsame | Hne]; [| discriminate].
    injection Hdeclares as <-. exists script, external, variableName.
    by rewrite Hvariable, <-Hsame.
Qed.

(** X24: the [files] allowlist.  Once the rest of the configuration is
    valid, [files] is accepted exactly when it is absent, a string or an
    array of strings, and is otherwise refused with the Configuration Error
    of its assertion; a string stands for the array holding it.  Under an
    accepted configuration a document is skipped exactly when [files] is
    given and none of its patterns matches the document's output name; so
    no document is skipped without [files], and every document is skipped
    with the empty array. *)
Theorem files_allowlist (options : gmap string jsval) (inner : validatedOptions) :
  getValidatedOptions (VObj options) DEFAULT_OPTIONS = Ok inner →
  let files := get options "files" in
  (is_ok (getAllValidatedOptions (VObj options)) = true
   ↔ files = VUndef ∨ isString files = true ∨ isArrayOfString files = true) ∧
  (is_ok (getAllValidatedOptions (VObj options)) = false →
   getAllValidatedOptions (VObj options) = Err (ConfigError AFilesInvalid)) ∧
  (∀ file, files = VStr file →
     getAllValidatedOptions (VObj options)
     = getAllValidatedOptions (VObj (<[ "files" := VArr [VStr file] ]> options))) ∧
  (∀ validated data,
     getAllValidatedOptions (VObj options) = Ok validated →
     getShouldSkip (o_files validated) data = true
     ↔ ∃ patterns,
         filePatterns files = Some patterns ∧
         Forall (λ pattern, minimatch (outputName data) pattern = false) patterns).
Proof.
  intros Hinner. cbn zeta.
  assert (Hnone : o_files inner = None).
  { pose proof Hinner as Hrun. unfold getValidatedOptions in Hrun.
    apply bind_Ok in Hrun as (main & _ & Hrun).
    apply bind_Ok in Hrun as ([tagLinks tagScripts] & _ & Hrun).
    apply bind_Ok in Hrun as (linkObjects & _ & Hrun).
    apply bind_Ok in Hrun as (scriptObjects & _ & Hrun).
    by injection Hrun as <-. }
  assert (Hrun : getAllValidatedOptions (VObj options)
                 = match get options "files" with
                   | VUndef => Ok inner
                   | VStr file => Ok (withFiles inner [file])
                   | VArr items =>
                       if forallb isString items
                       then Ok (withFiles inner (stringItems items))
                       else Err (ConfigError AFilesInvalid)
                   | _ => Err (ConfigError AFilesInvalid)
                   end).
  { unfold getAllValidatedOptions. rewrite Hinner. simpl.
    destruct (get options "files") as [| | | | | | |items|]; try reflexivity.
    simpl. destruct (forallb isString items) eqn:Hitems; [| reflexivity].
    simpl. by rewrite stringItems_strings. }
  split; [| split; [| split]].
  - rewrite Hrun. destruct (get options "files") as [| | | | | | |items|]; simpl;
      try (split; [discriminate | intros [? | [? | ?]]; discriminate]);
      try (split; [auto | reflexivity]).
    destruct (forallb isString items); simpl.
    + split; [auto | reflexivity].
    + split; [discriminate | intros [? | [? | ?]]; discriminate].
  - rewrite Hrun. destruct (get options "files") as [| | | | | | |items|]; simpl;
      try reflexivity; try discriminate.
    by destruct (forallb isString items).
  - intros file Hfile. rewrite Hrun, Hfile.
    assert (Hsame : getValidatedOptions (VObj (<[ "files" := VArr [VStr file] ]> options))
                      DEFAULT_OPTIONS
                    = getValidatedOptions (VObj options) DEFAULT_OPTIONS).
    { apply getValidatedOptions_congruence.
      - apply getValidatedMainOptions_agree. intros k Hk. apply get_insert_ne.
        intros <-. unfold mainOptionKeys in Hk.
        repeat (apply elem_of_cons in Hk as [Hk | Hk]; [discriminate |]).
        by apply elem_of_nil in Hk.
      - intros k Hk. apply get_insert_ne. intros <-.
        repeat (apply elem_of_cons in Hk as [Hk | Hk]; [discriminate |]).
        by apply elem_of_nil in Hk. }
    unfold getAllValidatedOptions. rewrite Hsame, Hinner. simpl.
    rewrite get_insert_eq. reflexivity.
  - intros validated data Hvalidated. rewrite Hrun in Hvalidated.
    destruct (get options "files") as [| | | | | | |items|]; simpl;
      try discriminate.
    + injection Hvalidated as <-. rewrite Hnone. simpl.
      split; [discriminate | intros (? & ? & _); discriminate].
    + injection Hvalidated as <-. simpl o_files. rewrite getShouldSkip_Some.
      split; [intros Hall; by eexists | intros (? & [= <-] & Hall); exact Hall].
    + destruct (forallb isString items); [| discriminate].
      injection Hvalidated as <-. simpl o_files. rewrite getShouldSkip_Some.
      split; [intros Hall; by eexists | intros (? & [= <-] & Hall); exact Hall].
Qed.

End Registry.

Section Extensions.
Context `{Host}.




End Extensions.

(** ** The claims at concrete inputs *)

(** C2 as stated fails: the tag [{ glob: "*.js", globPath: "/libs" }] carries
    a string [glob] and [globPath] whose expansion finds two files, and its
    normalisation fails on the [path] assertion. *)
Lemma C2_glob_pair_without_path_fails :
  get globWithoutPath "glob" = VStr "*.js" ∧
  get globWithoutPath "globPath" = VStr "/libs" ∧
  @glob_sync sampleHost "*.js" "/libs" = ["a.js"; "b.js"] ∧
  @getTagObjects sampleHost (VObj globWithoutPath) = Err (ConfigError ANoStringPath) ∧
  ¬ (∀ tag : gmap string jsval,
       isString (get tag "glob") = true →
       isString (get tag "globPath") = true →
       is_ok (@getTagObjects sampleHost (VObj tag)) = true).
Proof.
  repeat split. intros Hclaim.
  specialize (Hclaim globWithoutPath eq_refl eq_refl). discriminate Hclaim.
Qed.

Lemma C2_witness :
  isString (get globWithoutPath "path") = false ∧
  @getTagObjects sampleHost (VObj globWithoutPath) = Err (ConfigError ANoStringPath).
Proof.
  split; [reflexivity |].
  apply (@C2_object_requires_string_path sampleHost globWithoutPath). reflexivity.
Defined.

Lemma C3_witness :
  ∃ validated,
    @getValidatedOptions sampleHost (VObj mixedOptions) DEFAULT_OPTIONS = Ok validated ∧
    map (λ tagObject, get tagObject "path") (o_links validated)
    = [VStr "a.css"; VStr "c"; VStr "d.css"] ∧
    map (λ tagObject, get tagObject "path") (o_linksPrepend validated) = [VStr "c"] ∧
    @bucketsOf (o_links validated) (o_linksPrepend validated) (o_linksAppend validated) ∧
    @bucketsOf (o_scripts validated) (o_scriptsPrepend validated)
      (o_scriptsAppend validated).
Proof.
  eexists. split; [reflexivity |]. split; [reflexivity |]. split; [reflexivity |].
  destruct (@C3_ordered_buckets sampleHost (VObj mixedOptions) _ eq_refl)
    as (o & tags & links & scripts & isCss & _ & _ & _ & _ & _ & _ & _ & _ & _ &
        Hlinks & Hscripts).
  split; [exact Hlinks | exact Hscripts].
Defined.

Lemma C4_witness :
  @getTagPath sampleHost hashedScript callbackOptions (VStr "/cdn/") (VStr "abc123")
  = ([ {| tc_kind := PublicPathStep; tc_fn := FUser 0;
          tc_path := VStr "a.js"; tc_value := VStr "/cdn/" |};
       {| tc_kind := HashStep; tc_fn := FUser 1;
          tc_path := VStr "/cdn/a.js"; tc_value := VStr "abc123" |} ],
     Ok "/cdn/a.js?abc123").
Proof.
  apply (proj2 (@C4_public_path_then_hash sampleHost) 0 1 callbackOptions);
    try reflexivity; intros; reflexivity.
Defined.

Lemma C5_witness :
  (∃ first second,
     @getTagObjects sampleHost (VObj vendorGlob) = Ok [first; second] ∧
     get first "path" = VStr "vendor/a.js" ∧
     get second "path" = VStr "vendor/b.js" ∧
     get first "glob" = VUndef ∧
     get first "globPath" = VUndef) ∧
  is_config_error (@getTagObjects sampleHost (VObj emptyGlob)).
Proof.
  split.
  - assert (Hvalid : @optionalFieldsValid sampleHost vendorGlob).
    { repeat split; try reflexivity; intros Hdefined; vm_compute in Hdefined;
        discriminate Hdefined. }
    destruct (@C5_glob_expansion sampleHost vendorGlob "*.js" "/libs" eq_refl eq_refl)
      as (_ & Hexpand & _).
    destruct (Hexpand "vendor" eq_refl Hvalid) as [_ Hsome].
    rewrite (Hsome ltac:(discriminate)). eexists _, _. split; [reflexivity |].
    repeat split.
  - destruct (@C5_glob_expansion sampleHost emptyGlob "*.css" "/libs" eq_refl eq_refl)
      as (Hnone & _).
    apply Hnone. reflexivity.
Defined.

Lemma C6_witness :
  is_config_error (@getAllValidatedOptions sampleHost (VObj conflictingOptions)) ∧
  is_config_error (@getAllValidatedOptions sampleHost (VObj conflictingHashOptions)).
Proof.
  split.
  - apply (@C6_shorthand_exclusive sampleHost conflictingOptions DEFAULT_OPTIONS).
    left. split; [reflexivity | left; reflexivity].
  - apply (@C6_shorthand_exclusive sampleHost conflictingHashOptions DEFAULT_OPTIONS).
    right. split; [reflexivity | right; reflexivity].
Defined.



Lemma C8_witness :
  @onBeforeHtmlGeneration sampleHost callbackOptions (VStr "abc123") otherDocument
  = {| g_data := otherDocument; g_registered := []; g_calls := [];
       g_completion := CallbackOk otherDocument |} ∧
  @onAlterAssetTag sampleHost callbackOptions otherDocument = Ok otherDocument.
Proof.
  apply (@C8_skipped_document_unchanged sampleHost callbackOptions ["index.html"]).
  - reflexivity.
  - repeat constructor.
Defined.

Lemma C9_witness :
  let store : Stateful.heap := {[ 0%nat := hashedScript; 1%nat := numberPathScript ]} in
  let first :=
    @Stateful.getTagPath sampleHost 0 callbackOptions (VStr "/cdn/") (VStr "abc123") store in
  let second :=
    @Stateful.getTagPath sampleHost 0 callbackOptions (VStr "/cdn/") (VStr "abc123") first.1 in
  let failing :=
    @Stateful.getTagPath sampleHost 1 callbackOptions (VStr "/cdn/") (VStr "abc123") store in
  first.2.2 = Ok "/cdn/a.js?abc123" ∧
  second.2.2 = Ok "/cdn/a.js?abc123" ∧
  second.1 = store ∧
  second.1 !! 0%nat = Some hashedScript ∧
  failing.2.2 = Err TypeError ∧
  failing.1 = store.
Proof.
  cbn zeta.
  pose proof (@C9_resolving_twice sampleHost
                {[ 0%nat := hashedScript; 1%nat := numberPathScript ]} 0 callbackOptions
                (VStr "/cdn/") (VStr "abc123")) as Htwice.
  pose proof (@C9_resolving_twice sampleHost
                {[ 0%nat := hashedScript; 1%nat := numberPathScript ]} 1 callbackOptions
                (VStr "/cdn/") (VStr "abc123")) as Hfailing.
  cbn zeta in Htwice, Hfailing.
  destruct Htwice as (_ & Hstore & Hsame & Hdescriptor).
  destruct (Hdescriptor hashedScript eq_refl) as (Hkept & _ & Hresolved & _).
  destruct Hfailing as (Hframe & _ & _ & Hnumber).
  destruct (Hnumber numberPathScript eq_refl) as (_ & Hfirst & _).
  split; [by rewrite <- Hsame, Hresolved |].
  split; [by rewrite Hresolved |].
  split; [exact Hstore |]. split; [exact Hkept |].
  split; [by rewrite Hfirst | exact Hframe].
Defined.



(** ** The hooks at concrete documents *)

(** A document that is not skipped gets the resolved paths around its own
    assets. *)
Example injection_example :
  let outcome :=
    @onBeforeHtmlGeneration sampleHost callbackOptions (VStr "abc123") indexDocument in
  assets_js (g_data outcome) = ["main.js"; "/cdn/a.js?abc123"] ∧
  assets_css (g_data outcome) = ["main.css"] ∧
  g_registered outcome = [] ∧
  g_completion outcome = CallbackOk (g_data outcome).
Proof. vm_compute. repeat split. Qed.

(** Were the resolved path stored back into the descriptor, a second
    resolution would start from it and the transforms would pile up; the
    heap of [Stateful] tells the two behaviours apart. *)
Example stored_path_would_accumulate :
  let store : Stateful.heap := {[ 0%nat := hashedScript ]} in
  let resolveAndStore :=
    Stateful.andThen
      (@Stateful.getTagPath sampleHost 0 callbackOptions (VStr "/cdn/") (VStr "abc123"))
      (λ path, Stateful.andThen (Stateful.writeProperty 0 "path" (VStr path))
                                (λ _, Stateful.finish (Ok path))) in
  (resolveAndStore store).2.2 = Ok "/cdn/a.js?abc123" ∧
  (resolveAndStore (resolveAndStore store).1).2.2 = Ok "/cdn//cdn/a.js?abc123?abc123".
Proof. vm_compute. split; reflexivity. Qed.

(** The declared attributes go to the first and the last link of the head;
    keys already there are overwritten. *)
Example copy_back_example :
  head <$> @onAlterAssetTag sampleHost linkOptions indexDocument
  = Ok (Some [ {| tagName := "meta"; attributes := ∅ |};
               {| tagName := "link"; attributes := {[ "media" := VStr "print" ]} |};
               {| tagName := "link"; attributes := {[ "id" := VStr "main" ]} |};
               {| tagName := "link"; attributes := {[ "id" := VStr "late" ]} |} ]).
Proof. vm_compute. reflexivity. Qed.

(** ** The further properties at concrete inputs *)

Section Witnesses.
#[local] Existing Instance sampleHost.

Lemma normalised_descriptors_well_formed_witness :
  ∃ tagObjects,
    getTagObjects (VObj vendorGlob) = Ok tagObjects ∧
    (0 < List.length tagObjects)%nat ∧
    Forall (λ tagObject,
              (∃ path, get tagObject "path" = VStr path) ∧
              get tagObject "glob" = VUndef ∧
              get tagObject "globPath" = VUndef ∧
              fieldTypesOk tagObject) tagObjects.
Proof.
  eexists. split; [reflexivity |].
  apply (@normalised_descriptors_well_formed sampleHost (VObj vendorGlob)). reflexivity.
Defined.

Lemma object_tag_acceptance_witness :
  get printLink "glob" = VUndef ∧
  get printLink "globPath" = VUndef ∧
  getTagObjects (VObj printLink) = Ok [printLink] ∧
  fieldTypesOk printLink ∧
  getTagObjects (VObj emptyObject) = Err (ConfigError ANoStringPath).
Proof.
  split; [reflexivity |]. split; [reflexivity |]. split; [reflexivity |]. split.
  - apply (proj1 (proj1 (@object_tag_acceptance sampleHost printLink eq_refl eq_refl))
             eq_refl).
  - destruct (@object_tag_acceptance sampleHost emptyObject eq_refl eq_refl)
      as (_ & _ & Hpath & _).
    apply Hpath. reflexivity.
Defined.

Lemma normalisation_idempotent_witness :
  ∃ tagObjects,
    getTagObjects (VObj vendorGlob) = Ok tagObjects ∧
    mapM getTagObjects (map VObj tagObjects)
    = Ok (map (λ tagObject, [tagObject]) tagObjects).
Proof.
  eexists. split; [reflexivity |].
  apply (@normalisation_idempotent sampleHost (VObj vendorGlob)). reflexivity.
Defined.

Lemma append_default_inherited_witness :
  ∃ tagObjects declared,
    getAllTagObjects mixedOptions true "tags" = Ok (Some tagObjects) ∧
    getValidatedTagObjects mixedOptions "tags" = Ok (Some declared) ∧
    List.length tagObjects = List.length declared ∧
    map (λ tagObject, get tagObject "append") declared
    = [VUndef; VBool false; VBool false] ∧
    map (λ tagObject, get tagObject "append") tagObjects
    = [VBool true; VBool false; VBool false].
Proof.
  eexists.
  destruct (@append_default_inherited sampleHost mixedOptions true "tags" _ eq_refl)
    as (declared & Hdeclared & Hlength & _).
  exists declared. split; [reflexivity |]. split; [exact Hdeclared |].
  split; [exact Hlength |].
  injection Hdeclared as <-. split; reflexivity.
Defined.

Lemma split_is_a_partition_witness :
  ∃ linkObjects scriptObjects,
    splitLinkScriptTags [pathOnly "a.css"; typedTag; pathOnly "b.js"] emptyObject
    = Ok (linkObjects, scriptObjects) ∧
    linkObjects ++ scriptObjects
    ≡ₚ map stored [pathOnly "a.css"; typedTag; pathOnly "b.js"] ∧
    (List.length linkObjects + List.length scriptObjects = 3)%nat ∧
    Forall (λ tagObject, get tagObject "type" = VUndef) (linkObjects ++ scriptObjects).
Proof.
  eexists _, _. split; [reflexivity |].
  destruct (@split_is_a_partition sampleHost [pathOnly "a.css"; typedTag; pathOnly "b.js"]
              _ _ emptyObject eq_refl) as (Hperm & Hlength & _ & _ & Htype & _).
  split; [exact Hperm |]. split; [exact Hlength | exact Htype].
Defined.


Lemma plain_extensions_match_suffixes_witness :
  forallb plainExtension [".js"; ".mjs"] = true ∧
  ∃ test,
    createExtensionsRegex [".js"; ".mjs"] = Ok test ∧
    ∀ s, test s = true ↔ endsWithOneOf [".js"; ".mjs"] s.
Proof.
  split; [reflexivity |].
  destruct (@plain_extensions_match_suffixes sampleHost [".js"; ".mjs"])
    as (test & Htest & _ & Hsuffix).
  - repeat constructor.
  - exists test. split; [exact Htest |]. apply Hsuffix. discriminate.
Defined.


Lemma validation_reads_known_keys_witness :
  get namedOptions "htmlPluginName" ≠ get mixedOptions "htmlPluginName" ∧
  getValidatedOptions (VObj namedOptions) DEFAULT_OPTIONS
  = getValidatedOptions (VObj mixedOptions) DEFAULT_OPTIONS.
Proof.
  split; [discriminate |].
  assert (Hagree : ∀ keys, Forall (λ k, k ≠ "htmlPluginName") keys →
                           agreeOn keys namedOptions mixedOptions).
  { intros keys Hkeys k Hk. rewrite Forall_forall in Hkeys.
    apply get_insert_ne. intros <-. by apply (Hkeys _ Hk). }
  refine (proj1 (@validation_reads_known_keys sampleHost namedOptions mixedOptions DEFAULT_OPTIONS
                   (Hagree _ _)) (Hagree _ _));
    unfold mainOptionKeys; repeat constructor; discriminate.
Defined.

Lemma default_policy_resolution_witness :
  ∃ validated,
    getAllValidatedOptions (VObj externalScriptOptions) = Ok validated ∧
    getTagPath (pathOnly "a.js") validated (VStr "/cdn") VUndef
    = ([ {| tc_kind := PublicPathStep; tc_fn := FDefaultAddPublicPath;
            tc_path := VStr "a.js"; tc_value := VStr "/cdn" |} ],
       Ok "/cdn/a.js") ∧
    (getTagPath (pathOnly "a.js") validated VUndef VUndef).2 = Err TypeError.
Proof.
  eexists. split; [reflexivity |].
  destruct (@default_policy_resolution sampleHost externalScriptOptions _ (pathOnly "a.js") "a.js"
              eq_refl) as [Hstring Hother]; try reflexivity.
  - repeat constructor.
  - split; [apply (Hstring "/cdn" VUndef) | apply (Hother VUndef VUndef eq_refl)].
Defined.

Lemma string_shorthands_fix_the_value_witness :
  ∃ validated,
    getAllValidatedOptions (VObj staticOptions) = Ok validated ∧
    ∀ webpackPublicPath compilationHash,
      (getTagPath (pathOnly "a.js") validated webpackPublicPath compilationHash).2
      = Ok "/static/a.js".
Proof.
  eexists. split; [reflexivity |].
  destruct (@string_shorthands_fix_the_value sampleHost staticOptions _ (pathOnly "a.js") "a.js"
              eq_refl eq_refl eq_refl eq_refl) as (Hprefix & _).
  apply (Hprefix "/static"); reflexivity.
Defined.

Lemma use_flag_and_overrides_witness :
  ∃ validated,
    getAllValidatedOptions (VObj plainPathOptions) = Ok validated ∧
    ∀ webpackPublicPath compilationHash,
      getTagPath (pathOnly "a.js") validated webpackPublicPath compilationHash
      = ([], Ok "a.js").
Proof.
  eexists. split; [reflexivity |].
  destruct (@use_flag_and_overrides sampleHost plainPathOptions _ (pathOnly "a.js") "a.js"
              eq_refl eq_refl ltac:(repeat constructor) eq_refl eq_refl) as (Hplain & _).
  apply Hplain. reflexivity.
Defined.

Lemma injection_splices_assets_witness :
  getShouldSkip (o_files callbackOptions) indexDocument = false ∧
  ∃ jsPrepend jsAppend,
    assets_js (g_data (onBeforeHtmlGeneration callbackOptions (VStr "abc123") indexDocument))
    = jsPrepend ++ ["main.js"] ++ jsAppend ∧
    Forall2 (λ tagObject path,
               (getTagPath tagObject callbackOptions (VStr "/cdn/") (VStr "abc123")).2
               = Ok path) [hashedScript] jsAppend.
Proof.
  split; [reflexivity |].
  destruct (@injection_splices_assets sampleHost callbackOptions (VStr "abc123") indexDocument
              eq_refl)
    as (jsPrepend & jsAppend & cssPrepend & cssAppend & Hjs & _ & _ & Happend & _).
  - constructor; [| constructor]. eexists. reflexivity.
  - exists jsPrepend, jsAppend. split; [exact Hjs | exact Happend].
Defined.

Lemma source_files_registered_witness :
  getShouldSkip (o_files sourcedOptions) indexDocument = false ∧
  let outcome := onBeforeHtmlGeneration sourcedOptions VUndef indexDocument in
  g_registered outcome = ["src/a.js"] ∧
  g_completion outcome = CallbackOk (g_data outcome).
Proof.
  split; [reflexivity |]. cbn zeta.
  destruct (@source_files_registered sampleHost sourcedOptions VUndef indexDocument eq_refl)
    as (Hregistered & Hdone & _).
  - constructor; [| constructor]. eexists. reflexivity.
  - split; [exact Hregistered |]. apply Hdone. rewrite Hregistered.
    constructor; [reflexivity | constructor].
Defined.

Lemma throwing_resolution_leaves_document_witness :
  getShouldSkip (o_files throwingOptions) indexDocument = false ∧
  let outcome := onBeforeHtmlGeneration throwingOptions VUndef indexDocument in
  ∃ e, g_completion outcome = Thrown e ∧ g_data outcome = indexDocument.
Proof.
  split; [reflexivity |]. cbn zeta.
  destruct (@throwing_resolution_leaves_document sampleHost throwingOptions VUndef indexDocument
              eq_refl)
    as [Hthrows Hleft].
  destruct (proj2 Hthrows) as [e He].
  - apply Exists_cons_hd. exists TypeError. reflexivity.
  - exists e. split; [exact He | apply (Hleft e He)].
Defined.

Lemma alter_hook_frame_witness :
  ∃ data',
    onAlterAssetTag linkOptions indexDocument = Ok data' ∧
    outputName data' = "index.html" ∧
    assets_js data' = ["main.js"] ∧
    assets_css data' = ["main.css"] ∧
    alteredPair "link" (head indexDocument) (headTags indexDocument)
                (head data') (headTags data') ∧
    alteredPair "script" (body indexDocument) (bodyTags indexDocument)
                (body data') (bodyTags data').
Proof.
  eexists. split; [reflexivity |].
  destruct (@alter_hook_frame sampleHost linkOptions indexDocument _ eq_refl)
    as (Hname & _ & Hjs & Hcss & Hhead & Hbody).
  split; [exact Hname |]. split; [exact Hjs |]. split; [exact Hcss |].
  split; [exact Hhead | exact Hbody].
Defined.

Lemma copy_back_correspondence_witness :
  ∃ data' pluginHead pluginHead',
    onAlterAssetTag linkOptions indexDocument = Ok data' ∧
    head indexDocument = Some pluginHead ∧
    tagPositions "link" pluginHead = [1; 2; 3]%nat ∧
    pickTags (head data') (headTags data') = Ok pluginHead' ∧
    copiedBack "link" [printLink] [lateLink] pluginHead pluginHead'.
Proof.
  eexists _, _.
  destruct (@copy_back_correspondence sampleHost linkOptions indexDocument _ _ _
              eq_refl eq_refl eq_refl eq_refl)
    as ((pluginHead' & pluginBody' & Hhead & _ & Hlinks & _) & _).
  exists pluginHead'. split; [reflexivity |]. split; [reflexivity |].
  split; [reflexivity |]. split; [exact Hhead |].
  apply Hlinks. vm_compute. repeat constructor.
Defined.

Lemma registered_variables_are_strings_witness :
  applyExternals twoExternalsOptions None !! "jquery" = Some (VStr "$") ∧
  ∃ script external variableName,
    script ∈ o_scripts twoExternalsOptions ∧
    get script "external" = VObj external ∧
    get external "packageName" = VStr "jquery" ∧
    VStr "$" = VStr variableName.
Proof.
  split; [reflexivity |].
  destruct (@registered_variables_are_strings sampleHost twoExternalsOptions None "jquery"
              (VStr "$"))
    as [Hhost | Hdeclared].
  - constructor; [| constructor; [| constructor]].
    + right. exists jqueryExternal, "jquery", "jQuery". repeat split.
    + right. eexists _, "jquery", "$". repeat split.
  - reflexivity.
  - discriminate Hhost.
  - exact Hdeclared.
Defined.

Lemma files_allowlist_witness :
  ∃ validated,
    getAllValidatedOptions (VObj indexOnlyOptions) = Ok validated ∧
    getShouldSkip (o_files validated) otherDocument = true ∧
    getAllValidatedOptions (VObj indexOnlyOptions)
    = getAllValidatedOptions (VObj (<[ "files" := VArr [VStr "index.html"] ]>
                                      indexOnlyOptions)).
Proof.
  eexists. split; [reflexivity |].
  destruct (@files_allowlist sampleHost indexOnlyOptions _ eq_refl) as (_ & _ & Hstring & Hskip).
  split.
  - apply (Hskip _ otherDocument eq_refl). eexists. split; [reflexivity |].
    constructor; [reflexivity | constructor].
  - apply (Hstring "index.html"). reflexivity.
Defined.

End Witnesses.
